(** * markxp/contacts: the Atom/XML wire codec and the directory client

    A shallow embedding of [encoding.go] (the per-structure MarshalXML and
    UnmarshalXML methods and the query options) and of the service file
    (ContactKind with its getters and Clone, the transport wrapper,
    NewService, CreateContact, getContact, ListContacts, UpdateContact,
    DeleteContact), with the properties the specification states about them
    and further properties of the code.

    The Go standard library is not part of the repository.  What the code
    uses of it is modelled in the first three modules:
    - [strings] and [strconv]: TrimSpace, HasPrefix, TrimPrefix, LastIndex,
      ParseBool, FormatBool;
    - [utf8]: DecodeRune;
    - [xml]: documents as trees of tokens (start element with attributes,
      character data), the way encoding/xml writes a tagged struct field and
      the way it reads one back.  A token holds the text itself; the escapes
      the Encoder writes and the Decoder undoes are not spelled out, but the
      Encoder's replacement of invalid bytes and of characters XML does not
      allow by U+FFFD is ([xml.wireText]).
    time.Time, the URLs net/http accepts and url.Values.Encode are left open
    (classes [Clock] and [Net]).  The HTTP transport under the client is a
    list of the answers it will give; a call that needs one more answer than
    the list holds ends [Waiting].

    The file has the model first (the packages, the sub-structures, the
    contact entry, the query options, the service), then the vocabulary of
    the properties and the example data, then the properties. *)

From Stdlib Require Import String Ascii List.
From stdpp Require Import base option list strings gmap pretty.

Set Warnings "-register-all".

(** ** Results of fallible calls *)

Inductive error : Type :=
| SyntaxError                       (* the body is no XML document *)
| UnmarshalError (msg : string)     (* xml.UnmarshalError *)
| ParseBoolError (src : string)     (* strconv.ParseBool *)
| ParseTimeError (src : string)     (* time.Time.UnmarshalText *)
| TransportError (msg : string)     (* http.Client.Do *)
| URLError (url : string)           (* http.NewRequestWithContext *)
| Errorf (msg : string)             (* fmt.Errorf without a wrapped error *)
| Wrapf (msg : string) (e : error). (* fmt.Errorf with %w *)

Inductive result (A : Type) : Type :=
| Ok (a : A)
| Err (e : error).
Arguments Ok {A} a.
Arguments Err {A} e.

Definition bind {A B} (r : result A) (k : A -> result B) : result B :=
  match r with
  | Ok a => k a
  | Err e => Err e
  end.

Declare Scope result_scope.
Delimit Scope result_scope with result.
Notation "x <-! r ; k" := (bind r (fun x => k))
  (at level 100, r at next level, k at level 200, right associativity,
   format "x  <-!  r ;  '/' k") : result_scope.
Local Open Scope result_scope.

Definition is_ok {A} (r : result A) : bool :=
  match r with Ok _ => true | Err _ => false end.

(** Go's zero test on a string: its length is 0. *)
Definition is_empty (s : string) : bool :=
  match s with
  | EmptyString => true
  | String _ _ => false
  end.

(** ** Package strings *)

Module strings.

(** The runes unicode.IsSpace accepts, each as its UTF-8 bytes: the six
    ASCII ones, U+0085, U+00A0, U+1680, U+2000 to U+200A, U+2028, U+2029,
    U+202F, U+205F and U+3000. *)
Definition b (n : nat) : ascii := ascii_of_nat n.

Definition spaces : list (list ascii) :=
  [ [b 9]; [b 10]; [b 11]; [b 12]; [b 13]; [b 32];
    [b 194; b 133]; [b 194; b 160]; [b 225; b 154; b 128];
    [b 226; b 128; b 128]; [b 226; b 128; b 129]; [b 226; b 128; b 130];
    [b 226; b 128; b 131]; [b 226; b 128; b 132]; [b 226; b 128; b 133];
    [b 226; b 128; b 134]; [b 226; b 128; b 135]; [b 226; b 128; b 136];
    [b 226; b 128; b 137]; [b 226; b 128; b 138];
    [b 226; b 128; b 168]; [b 226; b 128; b 169]; [b 226; b 128; b 175];
    [b 226; b 129; b 159]; [b 227; b 128; b 128] ].

(** [cut p s]: the rest of [s] after its prefix [p], when it has it. *)
Fixpoint cut (p s : list ascii) : option (list ascii) :=
  match p, s with
  | [], _ => Some s
  | a :: p', c :: s' => if Ascii.eqb a c then cut p' s' else None
  | _ :: _, [] => None
  end.

(** The rest of [s] after the first of [seqs] that starts it. *)
Fixpoint cut_any (seqs : list (list ascii)) (s : list ascii)
  : option (list ascii) :=
  match seqs with
  | [] => None
  | p :: seqs' =>
      match cut p s with
      | Some r => Some r
      | None => cut_any seqs' s
      end
  end.

(** Drop leading members of [seqs], at most [fuel] of them. *)
Fixpoint drop_seqs (seqs : list (list ascii)) (fuel : nat) (s : list ascii)
  : list ascii :=
  match fuel with
  | O => s
  | S n =>
      match cut_any seqs s with
      | Some r => drop_seqs seqs n r
      | None => s
      end
  end.

Definition trim_left (s : list ascii) : list ascii :=
  drop_seqs spaces (length s) s.

Definition trim_right (s : list ascii) : list ascii :=
  rev (drop_seqs (map (@rev ascii) spaces) (length s) (rev s)).

(** strings.TrimSpace: leading and trailing white space removed. *)
Definition TrimSpace (s : string) : string :=
  string_of_list_ascii (trim_right (trim_left (list_ascii_of_string s))).

(** strings.HasPrefix and strings.TrimPrefix. *)
Definition HasPrefix (s p : string) : bool := String.prefix p s.

Definition TrimPrefix (s p : string) : string :=
  if String.prefix p s
  then String.substring (String.length p) (String.length s - String.length p) s
  else s.

(** strings.LastIndex for a separator of one byte: the index of its last
    occurrence, -1 when there is none.  [i] is the index of the first byte of
    [s] and [acc] the last occurrence seen before it. *)
Fixpoint lastIndexFrom (sep : ascii) (s : string) (i : nat) (acc : Z) : Z :=
  match s with
  | EmptyString => acc
  | String a s' =>
      lastIndexFrom sep s' (S i) (if Ascii.eqb a sep then Z.of_nat i else acc)
  end.

Definition LastIndex (s : string) (sep : ascii) : Z :=
  lastIndexFrom sep s 0 (-1)%Z.

(** The slice [s[n:]], for [n] up to the length of [s]. *)
Fixpoint sliceFrom (n : nat) (s : string) : string :=
  match n, s with
  | O, _ => s
  | S n', String _ s' => sliceFrom n' s'
  | S _, EmptyString => EmptyString
  end.

End strings.

(** ** Package strconv *)

Module strconv.

Definition ParseBool (s : string) : option bool :=
  if existsb (String.eqb s) ["1"; "t"; "T"; "TRUE"; "true"; "True"]
  then Some true
  else if existsb (String.eqb s) ["0"; "f"; "F"; "FALSE"; "false"; "False"]
  then Some false
  else None.

Definition FormatBool (v : bool) : string := if v then "true" else "false".

End strconv.

(** ** Package unicode/utf8 *)

Module utf8.

(** U+FFFD, which DecodeRune returns with width 1 for bytes that are no
    valid encoding. *)
Definition RuneError : N := 65533.

Definition byte (a : ascii) : N := N_of_ascii a.

Definition within (lo hi : N) (a : ascii) : bool :=
  (lo <=? byte a)%N && (byte a <=? hi)%N.

(** utf8.DecodeRune: the rune at the head of [s] and the number of bytes it
    takes.  A lead byte C2..DF takes one continuation byte, E0..EF two and
    F0..F4 three; the byte after E0, ED, F0 and F4 has a narrower range
    (no overlong form, no surrogate, nothing above U+10FFFF). *)
Definition DecodeRune (s : list ascii) : N * nat :=
  match s with
  | [] => (RuneError, 0)
  | b0 :: rest =>
      if (byte b0 <? 128)%N then (byte b0, 1)
      else if within 194 223 b0 then
        match rest with
        | b1 :: _ =>
            if within 128 191 b1
            then (((byte b0 - 192) * 64 + (byte b1 - 128))%N, 2)
            else (RuneError, 1)
        | _ => (RuneError, 1)
        end
      else if within 224 239 b0 then
        match rest with
        | b1 :: b2 :: _ =>
            if within (if (byte b0 =? 224)%N then 160%N else 128%N)
                      (if (byte b0 =? 237)%N then 159%N else 191%N) b1
               && within 128 191 b2
            then (((byte b0 - 224) * 4096 + (byte b1 - 128) * 64
                   + (byte b2 - 128))%N, 3)
            else (RuneError, 1)
        | _ => (RuneError, 1)
        end
      else if within 240 244 b0 then
        match rest with
        | b1 :: b2 :: b3 :: _ =>
            if within (if (byte b0 =? 240)%N then 144%N else 128%N)
                      (if (byte b0 =? 244)%N then 143%N else 191%N) b1
               && within 128 191 b2 && within 128 191 b3
            then (((byte b0 - 240) * 262144 + (byte b1 - 128) * 4096
                   + (byte b2 - 128) * 64 + (byte b3 - 128))%N, 4)
            else (RuneError, 1)
        | _ => (RuneError, 1)
        end
      else (RuneError, 1)
  end.

End utf8.

(** ** Package encoding/xml *)

Module xml.

Record Name : Type := mkName { Space : string; Local : string }.

Record Attr : Type := mkAttr { AName : Name; Value : string }.

Record StartElement : Type := mkStart { SName : Name; SAttr : list Attr }.

(** A document: an element holds its attributes and, in document order, its
    child elements and the character data between them. *)
Inductive Node : Type :=
| Element (name : Name) (attrs : list Attr) (body : list Node)
| CharData (s : string).

(** *** Writing tagged struct fields (Encoder.EncodeElement) *)

(** A string written as an element's content: no token for the empty one. *)
Definition text (s : string) : list Node :=
  if is_empty s then [] else [CharData s].

(** Fields tagged [`xml:"name,attr"`] and [`xml:"name,attr,omitempty"`]. *)
Definition attr (name v : string) : list Attr := [mkAttr (mkName "" name) v].

Definition attrOmitempty (name v : string) : list Attr :=
  if is_empty v then [] else attr name v.

Definition boolAttrOmitempty (name : string) (v : bool) : list Attr :=
  if v then attr name (strconv.FormatBool v) else [].

(** Fields tagged [`xml:"name"`] and [`xml:"name,omitempty"`]. *)
Definition elem (name v : string) : list Node :=
  [Element (mkName "" name) [] (text v)].

Definition elemOmitempty (name v : string) : list Node :=
  if is_empty v then [] else elem name v.

(** *** Reading tagged struct fields (Decoder.DecodeElement) *)

(** A field tagged with a name space takes only names of that space. *)
Definition matches (xmlns local : string) (n : Name) : bool :=
  (is_empty xmlns || String.eqb xmlns (Space n)) && String.eqb local (Local n).

(** A string field tagged [,attr]: every attribute of that local name is
    copied into it in turn, so the last one stays; with none the field keeps
    the value [init] it had. *)
Definition attrString (local : string) (attrs : list Attr) (init : string)
  : string :=
  fold_left (fun acc a => if matches "" local (AName a) then Value a else acc)
            attrs init.

(** copyValue into a bool: empty text is false, other text goes through
    strconv.ParseBool after strings.TrimSpace. *)
Definition copyBool (src : string) : result bool :=
  if is_empty src then Ok false
  else match strconv.ParseBool (strings.TrimSpace src) with
       | Some v => Ok v
       | None => Err (ParseBoolError (strings.TrimSpace src))
       end.

(** A bool field tagged [,attr]: as [attrString], and the first attribute of
    that name that is no boolean ends the decoding. *)
Fixpoint attrBool (local : string) (attrs : list Attr) (acc : bool)
  : result bool :=
  match attrs with
  | [] => Ok acc
  | a :: rest =>
      if matches "" local (AName a)
      then v <-! copyBool (Value a); attrBool local rest v
      else attrBool local rest acc
  end.

(** The character data directly inside an element, concatenated. *)
Fixpoint charData (body : list Node) : string :=
  match body with
  | [] => ""
  | CharData s :: rest => s +:+ charData rest
  | Element _ _ _ :: rest => charData rest
  end.

(** A string field tagged with an element name: each child of that name
    overwrites it with its character data. *)
Definition childString (local : string) (body : list Node) (init : string)
  : string :=
  fold_left (fun acc n =>
               match n with
               | Element nm _ b => if matches "" local nm then charData b else acc
               | CharData _ => acc
               end) body init.

(** *** A document written by the Encoder and read back by a Decoder *)

(** strings.Cut at the first colon. *)
Fixpoint cutColon (s : string) : option (string * string) :=
  match s with
  | EmptyString => None
  | String c s' =>
      if Ascii.eqb c ":" then Some ("", s')
      else match cutColon s' with
           | Some (p, l) => Some (String c p, l)
           | None => None
           end
  end.

(** Decoder.nsname: a written name [prefix:local] is split at the colon
    when both parts are non-empty.  (Names with more than one colon are not
    written by this package.) *)
Definition nsname (s : string) : Name :=
  match cutColon s with
  | Some (p, l) => if is_empty p || is_empty l then mkName "" s else mkName p l
  | None => mkName "" s
  end.

(** Decoder.pushNs: the name space declarations among the attributes. *)
Definition pushNs (ns : gmap string string) (a : Attr) : gmap string string :=
  if String.eqb (Space (AName a)) "xmlns" then <[Local (AName a) := Value a]> ns
  else if is_empty (Space (AName a)) && String.eqb (Local (AName a)) "xmlns"
  then <["" := Value a]> ns
  else ns.

Definition xmlURL : string := "http://www.w3.org/XML/1998/namespace".

(** Decoder.translate: a prefix becomes the name space it is bound to; an
    unbound prefix stays as it is. *)
Definition translate (ns : gmap string string) (isElementName : bool) (n : Name)
  : Name :=
  if String.eqb (Space n) "xmlns" then n
  else if is_empty (Space n) && negb isElementName then n
  else if is_empty (Space n) && String.eqb (Local n) "xmlns" then n
  else
    let sp := if String.eqb (Space n) "xml" then xmlURL else Space n in
    match ns !! sp with
    | Some v => mkName v (Local n)
    | None => mkName sp (Local n)
    end.

(** The characters XML allows. *)
Definition isInCharacterRange (r : N) : bool :=
  ((r =? 9) || (r =? 10) || (r =? 13)
   || ((32 <=? r) && (r <=? 55295))
   || ((57344 <=? r) && (r <=? 65533))
   || ((65536 <=? r) && (r <=? 1114111)))%N.

(** The bytes of U+FFFD. *)
Definition escFFFD : list ascii :=
  [ascii_of_nat 239; ascii_of_nat 191; ascii_of_nat 189].

(** The loop of EscapeText and EscapeString over the runes of [s], as a
    Decoder reads its output back.  The escapes the Encoder writes for the
    quotes, the ampersand, the angle brackets, tab, line feed and carriage
    return are undone by the Decoder, so these characters come back as they
    were; a byte that is no valid UTF-8 and a rune outside XML's characters
    are written as U+FFFD and come back as that.  [fuel] bounds the turns of
    the loop; every turn consumes at least one byte. *)
Fixpoint escapeText (fuel : nat) (s : list ascii) : list ascii :=
  match fuel, s with
  | S n, _ :: _ =>
      let '(r, width) := utf8.DecodeRune s in
      (if negb (isInCharacterRange r)
          || ((r =? utf8.RuneError)%N && Nat.eqb width 1)
       then escFFFD
       else take width s)
      ++ escapeText n (drop width s)
  | _, _ => []
  end.

(** A text through the Encoder and back through a Decoder. *)
Definition wireText (s : string) : string :=
  let l := list_ascii_of_string s in
  string_of_list_ascii (escapeText (length l) l).

(** The tokens a Decoder reads from what the Encoder wrote for [n], inside
    the name space bindings [ns].  The encoders of this package put the whole
    written name, prefix included, in [Local] and leave [Space] empty.
    Attribute values and character data go through [wireText]. *)
Fixpoint reparse (ns : gmap string string) (n : Node) : Node :=
  match n with
  | CharData s => CharData (wireText s)
  | Element nm attrs body =>
      let named := map (fun a => mkAttr (nsname (Local (AName a)))
                                        (wireText (Value a))) attrs in
      let ns' := fold_left pushNs named ns in
      Element (translate ns' true (nsname (Local nm)))
              (map (fun a => mkAttr (translate ns' false (AName a)) (Value a)) named)
              (map (reparse ns') body)
  end.

(** xml.Marshal followed by xml.Unmarshal sees [wire n]. *)
Definition wire (n : Node) : Node := reparse ∅ n.

(** Decoder.Decode: the document's root element goes to the value's decoder. *)
Definition Decode {T} (unmarshal : list Node -> StartElement -> result T)
    (doc : Node) : result T :=
  match doc with
  | Element nm attrs body => unmarshal body (mkStart nm attrs)
  | CharData _ => Err SyntaxError
  end.

(** The start element xml.Marshal hands to a value's MarshalXML: named
    after the type, without attributes. *)
Definition defaultStart (typ : string) : StartElement :=
  mkStart (mkName "" typ) [].

End xml.

(** ** encoding.go: the sub-structures *)

(** GDName: a person's name, in six parts. *)
Module GDName.

Record t : Type := mk {
  GivenName : string;
  AdditionalName : string;
  FamilyName : string;
  Prefix : string;
  Suffix : string;
  FullName : string
}.

Definition zero : t := mk "" "" "" "" "" "".

(** [func (n *GDName) UnmarshalXML]: the six child elements, by local name,
    into a fresh decodeGDName; every field of the receiver is then
    assigned, the full name trimmed. *)
Definition UnmarshalXML (n : t) (d : list xml.Node) (start : xml.StartElement)
  : result t :=
  let o := mk (xml.childString "givenName" d "")
              (xml.childString "additionalName" d "")
              (xml.childString "familyName" d "")
              (xml.childString "namePrefix" d "")
              (xml.childString "nameSuffix" d "")
              (xml.childString "fullName" d "") in
  Ok {| GivenName := GivenName o;
        AdditionalName := AdditionalName o;
        FamilyName := FamilyName o;
        Prefix := Prefix o;
        Suffix := Suffix o;
        FullName := strings.TrimSpace (FullName o) |}.

(** [func (n GDName) MarshalXML]: the element is named gd:name; every part
    is tagged omitempty; the full name is trimmed first. *)
Definition MarshalXML (n : t) (start : xml.StartElement) : xml.Node :=
  let o := mk (GivenName n) (AdditionalName n) (FamilyName n) (Prefix n)
              (Suffix n) (strings.TrimSpace (FullName n)) in
  xml.Element (xml.mkName "" "gd:name") (xml.SAttr start)
    (xml.elemOmitempty "gd:givenName" (GivenName o)
     ++ xml.elemOmitempty "gd:additionalName" (AdditionalName o)
     ++ xml.elemOmitempty "gd:familyName" (FamilyName o)
     ++ xml.elemOmitempty "gd:namePrefix" (Prefix o)
     ++ xml.elemOmitempty "gd:nameSuffix" (Suffix o)
     ++ xml.elemOmitempty "gd:fullName" (FullName o)).

Definition Marshal (n : t) : xml.Node := MarshalXML n (xml.defaultStart "GDName").
Definition Unmarshal (doc : xml.Node) : result t := xml.Decode (UnmarshalXML zero) doc.

End GDName.

(** GDEmail: an e-mail address.  The type has no UnmarshalXML: it is read by
    its own field tags. *)
Module GDEmail.

Record t : Type := mk {
  Address : string;
  Related : string;
  Label : string;
  Primary : bool;
  DisplayName : string
}.

Definition zero : t := mk "" "" "" false "".

(** Decoding by the tags of GDEmail into the value [m]. *)
Definition unmarshal (m : t) (d : list xml.Node) (start : xml.StartElement)
  : result t :=
  let attrs := xml.SAttr start in
  primary <-! xml.attrBool "primary" attrs (Primary m);
  Ok {| Address := xml.attrString "address" attrs (Address m);
        Related := xml.attrString "rel" attrs (Related m);
        Label := xml.attrString "label" attrs (Label m);
        Primary := primary;
        DisplayName := xml.attrString "displayName" attrs (DisplayName m) |}.

(** [func (m GDEmail) MarshalXML]: the element is named gd:email. *)
Definition MarshalXML (m : t) (start : xml.StartElement) : xml.Node :=
  xml.Element (xml.mkName "" "gd:email")
    (xml.SAttr start
     ++ xml.attr "address" (Address m)
     ++ xml.attrOmitempty "rel" (Related m)
     ++ xml.attrOmitempty "label" (Label m)
     ++ xml.boolAttrOmitempty "primary" (Primary m)
     ++ xml.attrOmitempty "displayName" (DisplayName m))
    [].

Definition Marshal (m : t) : xml.Node := MarshalXML m (xml.defaultStart "GDEmail").
Definition Unmarshal (doc : xml.Node) : result t := xml.Decode (unmarshal zero) doc.

End GDEmail.

(** GDPhoneNumber: a phone number; the dial string is the element's text. *)
Module GDPhoneNumber.

Record t : Type := mk {
  Related : string;
  Label : string;
  URI : string;
  Primary : bool;
  DialNumber : string
}.

Definition zero : t := mk "" "" "" false "".

(** [func (n *GDPhoneNumber) UnmarshalXML]: a fresh decodeGDPhoneNumber is
    read, then copied to the receiver with the dial string trimmed. *)
Definition UnmarshalXML (n : t) (d : list xml.Node) (start : xml.StartElement)
  : result t :=
  let attrs := xml.SAttr start in
  primary <-! xml.attrBool "primary" attrs false;
  let o := mk (xml.attrString "rel" attrs "") (xml.attrString "label" attrs "")
              (xml.attrString "uri" attrs "") primary (xml.charData d) in
  Ok {| Related := Related o;
        Label := Label o;
        URI := URI o;
        Primary := Primary o;
        DialNumber := strings.TrimSpace (DialNumber o) |}.

(** [func (n GDPhoneNumber) MarshalXML]: the element is named
    gd:phoneNumber; the dial string is trimmed and written as text. *)
Definition MarshalXML (n : t) (start : xml.StartElement) : xml.Node :=
  let obj := mk (Related n) (Label n) (URI n) (Primary n)
                (strings.TrimSpace (DialNumber n)) in
  xml.Element (xml.mkName "" "gd:phoneNumber")
    (xml.SAttr start
     ++ xml.attrOmitempty "rel" (Related obj)
     ++ xml.attrOmitempty "label" (Label obj)
     ++ xml.attrOmitempty "uri" (URI obj)
     ++ xml.boolAttrOmitempty "primary" (Primary obj))
    (xml.text (DialNumber obj)).

Definition Marshal (n : t) : xml.Node :=
  MarshalXML n (xml.defaultStart "GDPhoneNumber").
Definition Unmarshal (doc : xml.Node) : result t := xml.Decode (UnmarshalXML zero) doc.

End GDPhoneNumber.

(** GDIM: an instant-message account, read by its own field tags. *)
Module GDIM.

Record t : Type := mk {
  Address : string;
  Label : string;
  Related : string;
  Protocol : string;
  Primary : bool
}.

Definition zero : t := mk "" "" "" "" false.

Definition unmarshal (im : t) (d : list xml.Node) (start : xml.StartElement)
  : result t :=
  let attrs := xml.SAttr start in
  primary <-! xml.attrBool "primary" attrs (Primary im);
  Ok {| Address := xml.attrString "address" attrs (Address im);
        Label := xml.attrString "label" attrs (Label im);
        Related := xml.attrString "rel" attrs (Related im);
        Protocol := xml.attrString "protocol" attrs (Protocol im);
        Primary := primary |}.

(** [func (im GDIM) MarshalXML]: the element is named gd:im. *)
Definition MarshalXML (im : t) (start : xml.StartElement) : xml.Node :=
  xml.Element (xml.mkName "" "gd:im")
    (xml.SAttr start
     ++ xml.attr "address" (Address im)
     ++ xml.attrOmitempty "label" (Label im)
     ++ xml.attrOmitempty "rel" (Related im)
     ++ xml.attrOmitempty "protocol" (Protocol im)
     ++ xml.boolAttrOmitempty "primary" (Primary im))
    [].

Definition Marshal (im : t) : xml.Node := MarshalXML im (xml.defaultStart "GDIM").
Definition Unmarshal (doc : xml.Node) : result t := xml.Decode (unmarshal zero) doc.

End GDIM.

(** GDStructuredPostalAddress: a postal address. *)
Module GDStructuredPostalAddress.

Record t : Type := mk {
  Related : string;
  MailClass : string;
  Usage : string;
  Label : string;
  Primary : bool;
  Agent : string;
  HouseName : string;
  Pobox : string;
  Neighborhood : string;
  City : string;
  Street : string;
  Region : string;
  SubRegion : string;
  PostCode : string;
  Country : string;
  FormattedAddress : string
}.

Definition zero : t := mk "" "" "" "" false "" "" "" "" "" "" "" "" "" "" "".

(** [func (a *GDStructuredPostalAddress) UnmarshalXML]: a fresh
    decodedGDStructuredPostalAddress [o] is read, then copied field by
    field.  The first assignment is [a.Region = o.Related] and a later one
    is [a.Region = o.Region]: the receiver's Region ends as [o.Region] and
    its Related is assigned nowhere, so it keeps the value it had. *)
Definition UnmarshalXML (a : t) (d : list xml.Node) (start : xml.StartElement)
  : result t :=
  let attrs := xml.SAttr start in
  primary <-! xml.attrBool "primary" attrs false;
  let o := {| Related := xml.attrString "rel" attrs "";
              MailClass := xml.attrString "mailClass" attrs "";
              Usage := xml.attrString "usage" attrs "";
              Label := xml.attrString "label" attrs "";
              Primary := primary;
              Agent := xml.childString "agent" d "";
              HouseName := xml.childString "housename" d "";
              Pobox := xml.childString "pobox" d "";
              Neighborhood := xml.childString "neighborhood" d "";
              City := xml.childString "city" d "";
              Street := xml.childString "street" d "";
              Region := xml.childString "region" d "";
              SubRegion := xml.childString "subregion" d "";
              PostCode := xml.childString "postcode" d "";
              Country := xml.childString "country" d "";
              FormattedAddress := xml.childString "formattedAddress" d "" |} in
  Ok {| Related := Related a;
        MailClass := MailClass o;
        Usage := Usage o;
        Label := Label o;
        Primary := Primary o;
        Agent := Agent o;
        HouseName := HouseName o;
        Pobox := Pobox o;
        Neighborhood := Neighborhood o;
        City := City o;
        Street := Street o;
        Region := Region o;
        SubRegion := SubRegion o;
        PostCode := PostCode o;
        Country := Country o;
        FormattedAddress := FormattedAddress o |}.

(** [func (a GDStructuredPostalAddress) MarshalXML]: the element is named
    gd:structuredPostalAddress; every field is tagged omitempty. *)
Definition MarshalXML (a : t) (start : xml.StartElement) : xml.Node :=
  xml.Element (xml.mkName "" "gd:structuredPostalAddress")
    (xml.SAttr start
     ++ xml.attrOmitempty "rel" (Related a)
     ++ xml.attrOmitempty "mailClass" (MailClass a)
     ++ xml.attrOmitempty "usage" (Usage a)
     ++ xml.attrOmitempty "label" (Label a)
     ++ xml.boolAttrOmitempty "primary" (Primary a))
    (xml.elemOmitempty "gd:agent" (Agent a)
     ++ xml.elemOmitempty "gd:housename" (HouseName a)
     ++ xml.elemOmitempty "gd:pobox" (Pobox a)
     ++ xml.elemOmitempty "gd:neighborhood" (Neighborhood a)
     ++ xml.elemOmitempty "gd:city" (City a)
     ++ xml.elemOmitempty "gd:street" (Street a)
     ++ xml.elemOmitempty "gd:region" (Region a)
     ++ xml.elemOmitempty "gd:subregion" (SubRegion a)
     ++ xml.elemOmitempty "gd:postcode" (PostCode a)
     ++ xml.elemOmitempty "gd:country" (Country a)
     ++ xml.elemOmitempty "gd:formattedAddress" (FormattedAddress a)).

Definition Marshal (a : t) : xml.Node :=
  MarshalXML a (xml.defaultStart "GDStructuredPostalAddress").
Definition Unmarshal (doc : xml.Node) : result t := xml.Decode (UnmarshalXML zero) doc.

End GDStructuredPostalAddress.

(** GDExtendedProperty: a custom name and value, read by its own tags. *)
Module GDExtendedProperty.

Record t : Type := mk {
  Name : string;
  Value : string;
  Realm : string
}.

Definition zero : t := mk "" "" "".

Definition unmarshal (p : t) (d : list xml.Node) (start : xml.StartElement)
  : result t :=
  let attrs := xml.SAttr start in
  Ok {| Name := xml.attrString "name" attrs (Name p);
        Value := xml.attrString "value" attrs (Value p);
        Realm := xml.attrString "realm" attrs (Realm p) |}.

(** [func (p GDExtendedProperty) MarshalXML]: the element is named
    gd:extendedProperty. *)
Definition MarshalXML (p : t) (start : xml.StartElement) : xml.Node :=
  xml.Element (xml.mkName "" "gd:extendedProperty")
    (xml.SAttr start
     ++ xml.attr "name" (Name p)
     ++ xml.attrOmitempty "value" (Value p)
     ++ xml.attrOmitempty "realm" (Realm p))
    [].

Definition Marshal (p : t) : xml.Node :=
  MarshalXML p (xml.defaultStart "GDExtendedProperty").
Definition Unmarshal (doc : xml.Node) : result t := xml.Decode (unmarshal zero) doc.

End GDExtendedProperty.

(** Link: a link element of an entry or of a feed. *)
Module Link.

Record t : Type := mk {
  Related : string;
  Type_ : string;
  Href : string
}.

Definition zero : t := mk "" "" "".

Definition unmarshal (l : t) (d : list xml.Node) (start : xml.StartElement)
  : result t :=
  let attrs := xml.SAttr start in
  Ok {| Related := xml.attrString "rel" attrs (Related l);
        Type_ := xml.attrString "type" attrs (Type_ l);
        Href := xml.attrString "href" attrs (Href l) |}.

End Link.

(** GDOrganization: declared without fields ("NOT IMPLEMENTED YET"). *)
Inductive GDOrganization : Type := mkGDOrganization.

(** ** The contact entry *)

(** time.Time is used through its zero value and its UnmarshalText (RFC 3339)
    only. *)
Class Clock : Type := {
  time : Type;
  zeroTime : time;
  UnmarshalText : string -> option time
}.

Definition atomNS : string := "http://www.w3.org/2005/Atom".
Definition gdNS : string := "http://schemas.google.com/g/2005".
Definition contactTerm : string := "http://schemas.google.com/contact/2008#contact".
Definition photoRel : string := "http://schemas.google.com/contacts/2008/rel#photo".

(** [make([]T, n)]: n zero values; [append] one by one in a range loop. *)
Definition make {T} (zero : T) (n : nat) : list T := replicate n zero.

Definition appendEach {T} (dst src : list T) : list T :=
  fold_left (fun acc v => acc ++ [v]) src dst.

Module ContactKind.
Section contact.
Context {clk : Clock}.

(** [type ContactKind struct]: six exported fields the caller sets, and
    eight unexported ones filled from the server's answer. *)
Record t : Type := mk {
  Name : GDName.t;
  Email : list GDEmail.t;
  PhoneNumber : list GDPhoneNumber.t;
  StructuredPostalAddress : list GDStructuredPostalAddress.t;
  IM : list GDIM.t;
  ExtendedProperty : gmap string string;
  deleted : bool;
  editLink : string;
  photoLink : string;
  selfLink : string;
  id : string;
  updated : time;
  content : string;
  etag : string
}.

Definition zero : t :=
  mk GDName.zero [] [] [] [] ∅ false "" "" "" "" zeroTime "" "".

(** The local [decodeContactKind] of UnmarshalXML; [o_Term] is its
    Category.Term. *)
Record decodeContactKind : Type := mkDecode {
  o_XMLName : xml.Name;
  o_Etag : string;
  o_Term : string;
  o_ID : string;
  o_Updated : time;
  o_Title : string;
  o_Content : string;
  o_Name : GDName.t;
  o_Email : list GDEmail.t;
  o_Deleted : bool;
  o_PhoneNumber : list GDPhoneNumber.t;
  o_StructuredPostalAddress : list GDStructuredPostalAddress.t;
  o_Link : list Link.t;
  o_ExtendedProperty : list GDExtendedProperty.t;
  o_IM : list GDIM.t;
  o_Organization : list GDOrganization
}.

Definition decodeZero : decodeContactKind :=
  mkDecode (xml.mkName "" "") "" "" "" zeroTime "" "" GDName.zero [] false
           [] [] [] [] [] [].

(** Assignment to one field of [o]. *)
Definition set_XMLName (v : xml.Name) (o : decodeContactKind) :=
  mkDecode v (o_Etag o) (o_Term o) (o_ID o) (o_Updated o) (o_Title o)
    (o_Content o) (o_Name o) (o_Email o) (o_Deleted o) (o_PhoneNumber o)
    (o_StructuredPostalAddress o) (o_Link o) (o_ExtendedProperty o) (o_IM
    o) (o_Organization o).
Definition set_Etag (v : string) (o : decodeContactKind) :=
  mkDecode (o_XMLName o) v (o_Term o) (o_ID o) (o_Updated o) (o_Title o)
    (o_Content o) (o_Name o) (o_Email o) (o_Deleted o) (o_PhoneNumber o)
    (o_StructuredPostalAddress o) (o_Link o) (o_ExtendedProperty o) (o_IM
    o) (o_Organization o).
Definition set_Term (v : string) (o : decodeContactKind) :=
  mkDecode (o_XMLName o) (o_Etag o) v (o_ID o) (o_Updated o) (o_Title o)
    (o_Content o) (o_Name o) (o_Email o) (o_Deleted o) (o_PhoneNumber o)
    (o_StructuredPostalAddress o) (o_Link o) (o_ExtendedProperty o) (o_IM
    o) (o_Organization o).
Definition set_ID (v : string) (o : decodeContactKind) :=
  mkDecode (o_XMLName o) (o_Etag o) (o_Term o) v (o_Updated o) (o_Title o)
    (o_Content o) (o_Name o) (o_Email o) (o_Deleted o) (o_PhoneNumber o)
    (o_StructuredPostalAddress o) (o_Link o) (o_ExtendedProperty o) (o_IM
    o) (o_Organization o).
Definition set_Updated (v : time) (o : decodeContactKind) :=
  mkDecode (o_XMLName o) (o_Etag o) (o_Term o) (o_ID o) v (o_Title o)
    (o_Content o) (o_Name o) (o_Email o) (o_Deleted o) (o_PhoneNumber o)
    (o_StructuredPostalAddress o) (o_Link o) (o_ExtendedProperty o) (o_IM
    o) (o_Organization o).
Definition set_Title (v : string) (o : decodeContactKind) :=
  mkDecode (o_XMLName o) (o_Etag o) (o_Term o) (o_ID o) (o_Updated o) v
    (o_Content o) (o_Name o) (o_Email o) (o_Deleted o) (o_PhoneNumber o)
    (o_StructuredPostalAddress o) (o_Link o) (o_ExtendedProperty o) (o_IM
    o) (o_Organization o).
Definition set_Content (v : string) (o : decodeContactKind) :=
  mkDecode (o_XMLName o) (o_Etag o) (o_Term o) (o_ID o) (o_Updated o)
    (o_Title o) v (o_Name o) (o_Email o) (o_Deleted o) (o_PhoneNumber o)
    (o_StructuredPostalAddress o) (o_Link o) (o_ExtendedProperty o) (o_IM
    o) (o_Organization o).
Definition set_Name (v : GDName.t) (o : decodeContactKind) :=
  mkDecode (o_XMLName o) (o_Etag o) (o_Term o) (o_ID o) (o_Updated o)
    (o_Title o) (o_Content o) v (o_Email o) (o_Deleted o) (o_PhoneNumber
    o) (o_StructuredPostalAddress o) (o_Link o) (o_ExtendedProperty o)
    (o_IM o) (o_Organization o).
Definition set_Email (v : list GDEmail.t) (o : decodeContactKind) :=
  mkDecode (o_XMLName o) (o_Etag o) (o_Term o) (o_ID o) (o_Updated o)
    (o_Title o) (o_Content o) (o_Name o) v (o_Deleted o) (o_PhoneNumber o)
    (o_StructuredPostalAddress o) (o_Link o) (o_ExtendedProperty o) (o_IM
    o) (o_Organization o).
Definition set_Deleted (v : bool) (o : decodeContactKind) :=
  mkDecode (o_XMLName o) (o_Etag o) (o_Term o) (o_ID o) (o_Updated o)
    (o_Title o) (o_Content o) (o_Name o) (o_Email o) v (o_PhoneNumber o)
    (o_StructuredPostalAddress o) (o_Link o) (o_ExtendedProperty o) (o_IM
    o) (o_Organization o).
Definition set_PhoneNumber (v : list GDPhoneNumber.t) (o : decodeContactKind) :=
  mkDecode (o_XMLName o) (o_Etag o) (o_Term o) (o_ID o) (o_Updated o)
    (o_Title o) (o_Content o) (o_Name o) (o_Email o) (o_Deleted o) v
    (o_StructuredPostalAddress o) (o_Link o) (o_ExtendedProperty o) (o_IM
    o) (o_Organization o).
Definition set_StructuredPostalAddress (v : list GDStructuredPostalAddress.t) (o : decodeContactKind) :=
  mkDecode (o_XMLName o) (o_Etag o) (o_Term o) (o_ID o) (o_Updated o)
    (o_Title o) (o_Content o) (o_Name o) (o_Email o) (o_Deleted o)
    (o_PhoneNumber o) v (o_Link o) (o_ExtendedProperty o) (o_IM o)
    (o_Organization o).
Definition set_Link (v : list Link.t) (o : decodeContactKind) :=
  mkDecode (o_XMLName o) (o_Etag o) (o_Term o) (o_ID o) (o_Updated o)
    (o_Title o) (o_Content o) (o_Name o) (o_Email o) (o_Deleted o)
    (o_PhoneNumber o) (o_StructuredPostalAddress o) v (o_ExtendedProperty
    o) (o_IM o) (o_Organization o).
Definition set_ExtendedProperty (v : list GDExtendedProperty.t) (o : decodeContactKind) :=
  mkDecode (o_XMLName o) (o_Etag o) (o_Term o) (o_ID o) (o_Updated o)
    (o_Title o) (o_Content o) (o_Name o) (o_Email o) (o_Deleted o)
    (o_PhoneNumber o) (o_StructuredPostalAddress o) (o_Link o) v (o_IM o)
    (o_Organization o).
Definition set_IM (v : list GDIM.t) (o : decodeContactKind) :=
  mkDecode (o_XMLName o) (o_Etag o) (o_Term o) (o_ID o) (o_Updated o)
    (o_Title o) (o_Content o) (o_Name o) (o_Email o) (o_Deleted o)
    (o_PhoneNumber o) (o_StructuredPostalAddress o) (o_Link o)
    (o_ExtendedProperty o) v (o_Organization o).
Definition set_Organization (v : list GDOrganization) (o : decodeContactKind) :=
  mkDecode (o_XMLName o) (o_Etag o) (o_Term o) (o_ID o) (o_Updated o)
    (o_Title o) (o_Content o) (o_Name o) (o_Email o) (o_Deleted o)
    (o_PhoneNumber o) (o_StructuredPostalAddress o) (o_Link o)
    (o_ExtendedProperty o) (o_IM o) v.

(** One token inside the entry, as DecodeElement handles it for
    [decodeContactKind]: character data is dropped (no field takes it); a
    child element goes to the field whose tag names it, fields tagged with a
    name space taking only elements of that space; any other element is
    skipped.  A slice field grows by one freshly decoded element. *)
Definition decodeChild (o : decodeContactKind) (n : xml.Node)
  : result decodeContactKind :=
  match n with
  | xml.CharData _ => Ok o
  | xml.Element nm attrs body =>
      let start := xml.mkStart nm attrs in
      if xml.matches "" "category" nm then
        Ok (set_Term (xml.attrString "term" attrs (o_Term o)) o)
      else if xml.matches "" "id" nm then
        Ok (set_ID (xml.charData body) o)
      else if xml.matches "" "updated" nm then
        match UnmarshalText (xml.charData body) with
        | Some t => Ok (set_Updated t o)
        | None => Err (ParseTimeError (xml.charData body))
        end
      else if xml.matches "" "title" nm then
        Ok (set_Title (xml.charData body) o)
      else if xml.matches "" "content" nm then
        Ok (set_Content (xml.charData body) o)
      else if xml.matches gdNS "name" nm then
        v <-! GDName.UnmarshalXML (o_Name o) body start;
        Ok (set_Name v o)
      else if xml.matches gdNS "email" nm then
        v <-! GDEmail.unmarshal GDEmail.zero body start;
        Ok (set_Email (o_Email o ++ [v]) o)
      else if xml.matches gdNS "deleted" nm then
        v <-! xml.copyBool (xml.charData body);
        Ok (set_Deleted v o)
      else if xml.matches gdNS "phoneNumber" nm then
        v <-! GDPhoneNumber.UnmarshalXML GDPhoneNumber.zero body start;
        Ok (set_PhoneNumber (o_PhoneNumber o ++ [v]) o)
      else if xml.matches gdNS "structuredPostalAddress" nm then
        v <-! GDStructuredPostalAddress.UnmarshalXML
                GDStructuredPostalAddress.zero body start;
        Ok (set_StructuredPostalAddress (o_StructuredPostalAddress o ++ [v]) o)
      else if xml.matches atomNS "link" nm then
        v <-! Link.unmarshal Link.zero body start;
        Ok (set_Link (o_Link o ++ [v]) o)
      else if xml.matches gdNS "extendedProperty" nm then
        v <-! GDExtendedProperty.unmarshal GDExtendedProperty.zero body start;
        Ok (set_ExtendedProperty (o_ExtendedProperty o ++ [v]) o)
      else if xml.matches gdNS "im" nm then
        v <-! GDIM.unmarshal GDIM.zero body start;
        Ok (set_IM (o_IM o ++ [v]) o)
      else if xml.matches gdNS "organization" nm then
        Ok (set_Organization (o_Organization o ++ [mkGDOrganization]) o)
      else Ok o
  end.

Fixpoint decodeChildren (o : decodeContactKind) (d : list xml.Node)
  : result decodeContactKind :=
  match d with
  | [] => Ok o
  | n :: rest => o' <-! decodeChild o n; decodeChildren o' rest
  end.

(** [d.DecodeElement(&o, &start)] for [var o decodeContactKind]: the start
    element must be an Atom entry (the XMLName tag); then the attributes,
    then the tokens inside. *)
Definition DecodeElement (d : list xml.Node) (start : xml.StartElement)
  : result decodeContactKind :=
  let nm := xml.SName start in
  if negb (String.eqb "entry" (xml.Local nm)) then
    Err (UnmarshalError ("expected element type <entry> but have <"
                         +:+ xml.Local nm +:+ ">"))
  else if negb (String.eqb atomNS (xml.Space nm)) then
    Err (UnmarshalError ("expected element <entry> in name space " +:+ atomNS
                         +:+ " but have "
                         +:+ (if is_empty (xml.Space nm) then "no name space"
                              else xml.Space nm)))
  else
    decodeChildren
      (set_Etag (xml.attrString "etag" (xml.SAttr start) "")
                (set_XMLName nm decodeZero))
      d.

(** The three links the entry keeps, in one pass over [o.Link]. *)
Definition scanLinks (links : list Link.t) (init : string * string * string)
  : string * string * string :=
  fold_left
    (fun '(photo, self, edit) l =>
       if String.eqb (Link.Related l) photoRel then (Link.Href l, self, edit)
       else if String.eqb (Link.Related l) "self" then (photo, Link.Href l, edit)
       else if String.eqb (Link.Related l) "edit" then (photo, self, Link.Href l)
       else (photo, self, edit))
    links init.

(** [c.ExtendedProperty[pair.Name] = pair.Value] for every pair in turn,
    into a fresh map. *)
Definition collectProperties (pairs : list GDExtendedProperty.t)
  : gmap string string :=
  fold_left (fun m pair =>
               <[GDExtendedProperty.Name pair := GDExtendedProperty.Value pair]> m)
            pairs ∅.

Definition typeMismatch (got : string) : error :=
  Errorf ("xml type not match: expect " +:+ contactTerm +:+ ", got " +:+ got).

(** [func (c *ContactKind) UnmarshalXML]. *)
Definition UnmarshalXML (c : t) (d : list xml.Node) (start : xml.StartElement)
  : result t :=
  o <-! DecodeElement d start;
  if negb (String.eqb (o_Term o) contactTerm) then Err (typeMismatch (o_Term o))
  else
    let '(photo, self, edit) :=
      scanLinks (o_Link o) (photoLink c, selfLink c, editLink c) in
    Ok {| Name := GDName.mk (GDName.GivenName (o_Name o))
                            (GDName.AdditionalName (o_Name o))
                            (GDName.FamilyName (o_Name o))
                            (GDName.Prefix (o_Name o))
                            (GDName.Suffix (o_Name o))
                            (GDName.FullName (o_Name o));
          Email := appendEach (make GDEmail.zero 0) (o_Email o);
          IM := appendEach (make GDIM.zero 0) (o_IM o);
          PhoneNumber := appendEach (make GDPhoneNumber.zero 0) (o_PhoneNumber o);
          StructuredPostalAddress :=
            appendEach (make GDStructuredPostalAddress.zero 0)
                       (o_StructuredPostalAddress o);
          photoLink := photo;
          selfLink := self;
          editLink := edit;
          deleted := o_Deleted o;
          id := o_ID o;
          updated := o_Updated o;
          content := o_Content o;
          etag := o_Etag o;
          ExtendedProperty := collectProperties (o_ExtendedProperty o) |}.

(** [func (c ContactKind) MarshalXML].  Email is copied into a slice made
    with length 0; PhoneNumber, StructuredPostalAddress, IM and
    ExtendedProperty into slices made with the source's length, so the
    copies follow that many zero values.  (The order in which Go ranges over
    the map is not fixed; [map_to_list] stands for one such order.) *)
Definition MarshalXML (c : t) (start : xml.StartElement) : xml.Node :=
  let o_Content := content c in
  let o_Name := GDName.mk (GDName.GivenName (Name c))
                          (GDName.AdditionalName (Name c))
                          (GDName.FamilyName (Name c))
                          (GDName.Prefix (Name c))
                          (GDName.Suffix (Name c))
                          (GDName.FullName (Name c)) in
  let o_Email := appendEach (make GDEmail.zero 0) (Email c) in
  let o_PhoneNumber :=
    appendEach (make GDPhoneNumber.zero (length (PhoneNumber c))) (PhoneNumber c) in
  let o_StructuredPostalAddress :=
    appendEach (make GDStructuredPostalAddress.zero
                     (length (StructuredPostalAddress c)))
               (StructuredPostalAddress c) in
  let o_IM := appendEach (make GDIM.zero (length (IM c))) (IM c) in
  let o_ExtendedProperty :=
    appendEach (make GDExtendedProperty.zero (size (ExtendedProperty c)))
               (map (fun kv => GDExtendedProperty.mk kv.1 kv.2 "")
                    (map_to_list (ExtendedProperty c))) in
  let field (tag : string) := xml.mkStart (xml.mkName "" tag) [] in
  xml.Element (xml.mkName "" "entry")
    [ xml.mkAttr (xml.mkName "" "xmlns:atom") atomNS;
      xml.mkAttr (xml.mkName "" "xmlns:gd") gdNS ]
    ([GDName.MarshalXML o_Name (field "gd:name")]
     ++ map (fun v => GDEmail.MarshalXML v (field "gd:email")) o_Email
     ++ map (fun v => GDPhoneNumber.MarshalXML v (field "gd:phoneNumber"))
            o_PhoneNumber
     ++ map (fun v => GDStructuredPostalAddress.MarshalXML v
                        (field "gd:structuredPostalAddress"))
            o_StructuredPostalAddress
     ++ xml.elem "content" o_Content
     ++ [xml.Element (xml.mkName "" "category")
           (xml.attr "scheme" "http://schemas.google.com/g/2005#kind"
            ++ xml.attr "term" contactTerm) []]
     ++ map (fun v => GDExtendedProperty.MarshalXML v (field "gd:extendedProperty"))
            o_ExtendedProperty
     ++ map (fun v => GDIM.MarshalXML v (field "gd:im")) o_IM).

Definition Marshal (c : t) : xml.Node := MarshalXML c (xml.defaultStart "ContactKind").
Definition Unmarshal (doc : xml.Node) : result t := xml.Decode (UnmarshalXML zero) doc.

(** [func (c ContactKind) Clone]: Email, PhoneNumber and
    StructuredPostalAddress are made with the source's length and then
    appended to; IM is made with length 0 and that capacity; the map is
    filled key by key. *)
Definition Clone (c : t) : t :=
  let ret :=
    {| Name := Name c;
       Email := make GDEmail.zero (length (Email c));
       PhoneNumber := make GDPhoneNumber.zero (length (PhoneNumber c));
       StructuredPostalAddress :=
         make GDStructuredPostalAddress.zero (length (StructuredPostalAddress c));
       IM := make GDIM.zero 0;
       ExtendedProperty := ∅;
       deleted := deleted c;
       editLink := editLink c;
       photoLink := photoLink c;
       selfLink := selfLink c;
       id := id c;
       updated := updated c;
       content := content c;
       etag := etag c |} in
  {| Name := Name ret;
     Email := appendEach (Email ret) (Email c);
     PhoneNumber := appendEach (PhoneNumber ret) (PhoneNumber c);
     StructuredPostalAddress :=
       appendEach (StructuredPostalAddress ret) (StructuredPostalAddress c);
     IM := appendEach (IM ret) (IM c);
     ExtendedProperty :=
       fold_left (fun m kv => <[kv.1 := kv.2]> m)
                 (map_to_list (ExtendedProperty c)) (ExtendedProperty ret);
     deleted := deleted ret;
     editLink := editLink ret;
     photoLink := photoLink ret;
     selfLink := selfLink ret;
     id := id ret;
     updated := updated ret;
     content := content ret;
     etag := etag ret |}.

Definition GetEditLink (c : t) : string := editLink c.
Definition GetPhotoLink (c : t) : string := photoLink c.
Definition GetUpdated (c : t) : time := updated c.
Definition GetEtag (c : t) : string := etag c.

(** [func (c ContactKind) GetID]: what follows the last "/" of the id. *)
Definition GetID (c : t) : string :=
  let idx := strings.LastIndex (id c) "/" in
  strings.sliceFrom (Z.to_nat (idx + 1)) (id c).

End contact.
End ContactKind.

(** ** encoding.go: the query options of ListContacts *)

Module query.

(** url.Values, with [Set] replacing whatever the key held. *)
Abbreviation Values := (gmap string (list string)).

Definition Set_ (key value : string) (v : Values) : Values := <[key := [value]]> v.

Definition withStrict (v : Values) : Values := Set_ "strict" (strconv.FormatBool true) v.

Definition FilterByAuthor (name : string) (v : Values) : Values := Set_ "author" name v.

Definition FilterByCategory (filters : string) (v : Values) : Values :=
  Set_ "category" filters v.

Definition WithShowDeleted (b : bool) (v : Values) : Values :=
  Set_ "showdeleted" (strconv.FormatBool b) v.

Definition WithSort (asc : string) (v : Values) : Values :=
  Set_ "sortorder" asc (Set_ "orderby" "lastmodified" v).

(** The double quote of the format [-"%s"]. *)
Definition dquote : string := String (ascii_of_nat 34) EmptyString.

(** One turn of the range loop of WithTextQuery over [texts], on the buffer
    [b]: a blank before every term but the first; then the term itself is
    written only under [strings.HasPrefix(t, "-")]. *)
Definition writeTerm (b : string) (idx : nat) (t : string) : string :=
  let b := if negb (Nat.eqb idx 0) then b +:+ " " else b in
  if strings.HasPrefix t "-"
  then b +:+ ("-" +:+ dquote +:+ strings.TrimPrefix t "-" +:+ dquote)
  else b.

Fixpoint writeTerms (b : string) (idx : nat) (texts : list string) : string :=
  match texts with
  | [] => b
  | t :: rest => writeTerms (writeTerm b idx t) (S idx) rest
  end.

Definition WithTextQuery (texts : list string) (v : Values) : Values :=
  Set_ "q" (writeTerms "" 0 texts) v.

(** [fmt.Sprint] of an int: its decimal digits, after a "-" when negative. *)
Definition Sprint (n : Z) : string := pretty n.

Definition withReturnType (t : string) (v : Values) : Values := Set_ "alt" t v.

Definition WithMaxResults (n : Z) (v : Values) : Values :=
  Set_ "max-results" (Sprint n) v.

Definition WithStartIndex (n : Z) (v : Values) : Values :=
  Set_ "start-index" (Sprint n) v.

(** [t.Format(time.RFC3339)] is left open as [Format]. *)
Definition WithUpdateMin {clk : Clock} (Format : time -> string) (t : time)
    (v : Values) : Values :=
  Set_ "updated-min" (Format t) v.

Definition WithUpdateMax {clk : Clock} (Format : time -> string) (t : time)
    (v : Values) : Values :=
  Set_ "updated-max" (Format t) v.

End query.

(** ** The service *)

(** net/url and net/http as the service uses them: which strings
    http.NewRequestWithContext takes as a URL, and url.Values.Encode. *)
Class Net : Type := {
  validURL : string -> bool;
  Encode : gmap string (list string) -> string
}.

Module http.

Inductive Method : Type := MethodGet | MethodPost | MethodPut | MethodDelete.

Record Request : Type := mkRequest {
  Method_ : Method;
  URL : string;
  Header : gmap string string;
  Body : option xml.Node
}.

Record Response : Type := mkResponse {
  StatusCode : nat;
  Status : string;
  RBody : option xml.Node
}.

Definition StatusOK : nat := 200.
Definition StatusNotModified : nat := 304.

Definition NewRequest {net : Net} (m : Method) (url : string) (body : option xml.Node)
  : result Request :=
  if validURL url then Ok (mkRequest m url ∅ body) else Err (URLError url).

(** [req.Header.Set(key, value)]; the keys are kept as the source writes
    them. *)
Definition SetHeader (key value : string) (req : Request) : Request :=
  mkRequest (Method_ req) (URL req) (<[key := value]> (Header req)) (Body req).

Definition mutating (req : Request) : bool :=
  match Method_ req with
  | MethodPut | MethodDelete | MethodPost => true
  | MethodGet => false
  end.

End http.

Module service.
Section service.
Context {clk : Clock} {net : Net}.

Abbreviation ContactKind := ContactKind.t.

(** The world outside: the answers the transport under the client will
    give, in order (a response or a transport error each), and the requests
    that have reached it. *)
Record world : Type := mkWorld {
  pending : list (result http.Response);
  sent : list http.Request
}.

(** How a call ends: with its result and a nil error; with a non-nil
    error; in a nil-pointer panic; or still waiting for the transport,
    which has no answer left. *)
Inductive outcome (A : Type) : Type :=
| Returned (a : A)
| Failed (e : error)
| Panicked
| Waiting.
Arguments Returned {A} a.
Arguments Failed {A} e.
Arguments Panicked {A}.
Arguments Waiting {A}.

Definition client (A : Type) : Type := world -> outcome A * world.

Definition ret {A} (a : A) : client A := fun w => (Returned a, w).
Definition fail {A} (e : error) : client A := fun w => (Failed e, w).
Definition panic {A} : client A := fun w => (Panicked, w).

Definition cbind {A B} (m : client A) (k : A -> client B) : client B :=
  fun w =>
    match m w with
    | (Returned a, w') => k a w'
    | (Failed e, w') => (Failed e, w')
    | (Panicked, w') => (Panicked, w')
    | (Waiting, w') => (Waiting, w')
    end.

Notation "x <-- m ; k" := (cbind m (fun x => k))
  (at level 100, m at next level, k at level 200, right associativity).

(** A fallible pure step; [wrap] is what the caller makes of the error. *)
Definition try {A} (r : result A) (wrap : error -> error) : client A :=
  match r with
  | Ok a => ret a
  | Err e => fail (wrap e)
  end.

(** [func (rt *trapnsport) RoundTrip]: the headers every request gets. *)
Definition RoundTrip (req : http.Request) : http.Request :=
  let req := http.SetHeader "GData-Version" "3.0" req in
  match http.Method_ req with
  | http.MethodPost | http.MethodPut =>
      http.SetHeader "Content-Type" "application/atom+xml" req
  | _ => req
  end.

(** [s.base.Do(req)]: the request reaches the transport and its next answer
    comes back. *)
Definition Do (req : http.Request) : client http.Response :=
  fun w =>
    let sent' := sent w ++ [RoundTrip req] in
    match pending w with
    | [] => (Waiting, mkWorld [] sent')
    | Ok res :: rest => (Returned res, mkWorld rest sent')
    | Err e :: rest => (Failed e, mkWorld rest sent')
    end.

Record t : Type := mk {
  endpoint : string;
  projection : string
}.

Definition setDefaultProjection (p : string) : string :=
  if is_empty p then "full" else p.

Definition NewService (domain defaultProjection : string) : t :=
  mk ("https://www.google.com/m8/feeds/contacts/" +:+ domain)
     (setDefaultProjection defaultProjection).

Definition getPojection (s : t) (p : string) : string :=
  if negb (is_empty p) then p else projection s.

(** [dec.Decode(&contact)] on a response body. *)
Definition decodeContact (body : option xml.Node) : result ContactKind :=
  match body with
  | Some doc => xml.Decode (ContactKind.UnmarshalXML ContactKind.zero) doc
  | None => Err SyntaxError
  end.

(** [func (s *service) getContact]; a nil contact is [None]. *)
Definition getContact (s : t) (id projection etag errPrefix : string)
  : client (option ContactKind) :=
  req <-- try (http.NewRequest http.MethodGet
                 (endpoint s +:+ "/" +:+ getPojection s projection +:+ "/" +:+ id)
                 None)
              (Wrapf errPrefix);
  let req := if negb (String.eqb etag "") && negb (String.eqb etag "*")
             then http.SetHeader "If-None-Match" etag req else req in
  res <-- (fun w => match Do req w with
                    | (Failed e, w') => (Failed (Wrapf errPrefix e), w')
                    | other => other
                    end);
  if Nat.eqb (http.StatusCode res) http.StatusNotModified then ret None
  else
    contact <-- try (decodeContact (http.RBody res)) (fun e => e);
    ret (Some contact).

Definition GetContact (s : t) (id projection etag : string)
  : client (option ContactKind) :=
  getContact s id projection etag "could not get a contact from GetContact".

(** [QueryStatus] and the local [feed] of ListContacts. *)
Record QueryStatus : Type := mkQueryStatus {
  Updated : time;
  Etag : string
}.

Record feed : Type := mkFeed {
  f_Etag : string;
  f_Updated : time;
  f_Links : list Link.t;
  f_Contacts : list ContactKind
}.

(** One token inside the feed element, as Decode handles it for [feed]. *)
Definition feedChild (f : feed) (n : xml.Node) : result feed :=
  match n with
  | xml.CharData _ => Ok f
  | xml.Element nm attrs body =>
      let start := xml.mkStart nm attrs in
      if xml.matches "" "updated" nm then
        match UnmarshalText (xml.charData body) with
        | Some t => Ok (mkFeed (f_Etag f) t (f_Links f) (f_Contacts f))
        | None => Err (ParseTimeError (xml.charData body))
        end
      else if xml.matches "" "link" nm then
        v <-! Link.unmarshal Link.zero body start;
        Ok (mkFeed (f_Etag f) (f_Updated f) (f_Links f ++ [v]) (f_Contacts f))
      else if xml.matches atomNS "entry" nm then
        v <-! ContactKind.UnmarshalXML ContactKind.zero body start;
        Ok (mkFeed (f_Etag f) (f_Updated f) (f_Links f) (f_Contacts f ++ [v]))
      else Ok f
  end.

Fixpoint feedChildren (f : feed) (d : list xml.Node) : result feed :=
  match d with
  | [] => Ok f
  | n :: rest => f' <-! feedChild f n; feedChildren f' rest
  end.

(** [dec.Decode(f)] for [f = new(feed)]. *)
Definition decodeFeed (body : option xml.Node) : result feed :=
  match body with
  | Some (xml.Element nm attrs d) =>
      feedChildren (mkFeed (xml.attrString "etag" attrs "") zeroTime [] []) d
  | _ => Err SyntaxError
  end.

(** The range loop of ListContacts over [f.Links], on the variable [req]:
    a link whose relation is "next" makes the next request (nil if it cannot
    be made, the error being dropped) and ends the loop; any other link sets
    [req] to nil. *)
Fixpoint scanNext (links : list Link.t) (req : option http.Request)
  : option http.Request :=
  match links with
  | [] => req
  | l :: rest =>
      if String.eqb (Link.Related l) "next" then
        match http.NewRequest http.MethodGet (Link.Href l) None with
        | Ok r => Some r
        | Err _ => None
        end
      else scanNext rest None
  end.

(** [ret = append(ret, &o)] for the Clone [o] of every contact of the page. *)
Definition appendClones (ret : list ContactKind) (cts : list ContactKind)
  : list ContactKind :=
  fold_left (fun acc ct => acc ++ [ContactKind.Clone ct]) cts ret.

(** The loop [for req != nil] of ListContacts.  Every turn takes one answer
    from the transport, so the loop is defined by recursion on the answers
    that are left; its first three cases are [Do req]. *)
Fixpoint pages (answers : list (result http.Response)) (sent : list http.Request)
    (req : http.Request) (ret : list ContactKind)
  : outcome (list ContactKind * QueryStatus) * world :=
  let sent' := sent ++ [RoundTrip req] in
  match answers with
  | [] => (Waiting, mkWorld [] sent')
  | Err e :: rest => (Failed e, mkWorld rest sent')
  | Ok res :: rest =>
      match decodeFeed (http.RBody res) with
      | Err e => (Failed (Wrapf "ListContact error" e), mkWorld rest sent')
      | Ok f =>
          let ret' := appendClones ret (f_Contacts f) in
          match scanNext (f_Links f) (Some req) with
          | Some req' => pages rest sent' req' ret'
          | None =>
              (Returned (ret', mkQueryStatus (f_Updated f) (f_Etag f)),
               mkWorld rest sent')
          end
      end
  end.

(** [func (s *service) ListContacts]. *)
Definition ListContacts (s : t) (projection etag : string)
    (queries : list (query.Values -> query.Values))
  : client (list ContactKind * QueryStatus) :=
  let u :=
    match queries with
    | [] => endpoint s +:+ "/" +:+ getPojection s projection
    | _ :: _ =>
        let params := fold_left (fun v q => q v) queries (query.withStrict ∅) in
        endpoint s +:+ "/" +:+ getPojection s projection +:+ "?" +:+ Encode params
    end in
  req <-- try (http.NewRequest http.MethodGet u None)
              (Wrapf "ListContacts error: could not create a HTTP request");
  let req := if negb (String.eqb etag "")
             then http.SetHeader "If-None-Match" etag req else req in
  fun w => pages (pending w) (sent w) req [].

Definition etagNotMatch : error := Errorf "UpdateContact error: etag not match".

(** [func (s *service) UpdateContact]; [p] is the pointer's target, [None]
    for nil (the encoder then writes nothing). *)
Definition UpdateContact (s : t) (id etag : string) (p : option ContactKind)
  : client ContactKind :=
  op <-- getContact s id "full" "" "UpdateContact error: could not get a contact";
  match op with
  | None => panic
  | Some op =>
      if negb (String.eqb (ContactKind.etag op) etag) && negb (String.eqb etag "*")
      then fail etagNotMatch
      else
        let url := ContactKind.editLink op in
        let buf := option_map ContactKind.Marshal p in
        req <-- try (http.NewRequest http.MethodPut url buf)
                    (Wrapf "could not create a HTTP request from UpdateContact");
        let req := http.SetHeader "If-Match" etag req in
        res <-- Do req;
        if negb (Nat.eqb (http.StatusCode res) http.StatusOK)
        then fail (Errorf ("expect get HTTP status OK, got: " +:+ http.Status res))
        else try (decodeContact (http.RBody res)) (fun e => e)
  end.

(** [func (s *service) DeleteContact]. *)
Definition DeleteContact (s : t) (id etag : string) : client unit :=
  op <-- getContact s id "thin" "" "could not get a contact from DeleteContact";
  match op with
  | None => panic
  | Some op =>
      if negb (String.eqb (ContactKind.etag op) etag) && negb (String.eqb etag "*")
      then fail etagNotMatch
      else
        let url := ContactKind.editLink op in
        req <-- try (http.NewRequest http.MethodDelete url None)
                    (Wrapf "DeleteContact error: could not create a HTTP request");
        let req := http.SetHeader "If-Match" etag req in
        fun w => match Do req w with
                 | (Failed e, w') =>
                     (Failed (Wrapf "DeleteContact error: failed to call" e), w')
                 | (Returned _, w') => (Returned tt, w')
                 | (Panicked, w') => (Panicked, w')
                 | (Waiting, w') => (Waiting, w')
                 end
  end.

Definition StatusCreated : nat := 201.
Definition StatusConflict : nat := 409.

(** [func (s *service) CreateContact]; [p] is the pointer's target, [None]
    for nil (the encoder then writes nothing).  The URL takes the service's
    own projection. *)
Definition CreateContact (s : t) (p : option ContactKind) : client ContactKind :=
  let buf := option_map ContactKind.Marshal p in
  req <-- try (http.NewRequest http.MethodPost
                 (endpoint s +:+ "/" +:+ projection s) buf)
              (Wrapf "CreateContact error: could not create new request");
  res <-- (fun w => match Do req w with
                    | (Failed e, w') => (Failed (Wrapf "CreateContact error" e), w')
                    | other => other
                    end);
  if Nat.eqb (http.StatusCode res) StatusCreated then
    try (decodeContact (http.RBody res)) (fun e => e)
  else if Nat.eqb (http.StatusCode res) StatusConflict then
    fail (Errorf "CreateContact error: version conflict")
  else if existsb (Nat.eqb (http.StatusCode res)) [400; 401; 403; 404] then
    fail (Errorf ("CreateContact error: " +:+ http.Status res))
  else
    fail (Errorf ("CreateContact error: unknown with " +:+ http.Status res)).

End service.

Arguments Returned {A} a.
Arguments Failed {A} e.
Arguments Panicked {A}.
Arguments Waiting {A}.

End service.

(** ** A clock and a net for the examples

    Instants are kept as their RFC 3339 text, every non-empty text taken as
    one; every non-empty string is taken as a URL; the query string is not
    looked at. *)
Module example.

Definition clock : Clock :=
  {| time := string;
     zeroTime := "";
     UnmarshalText := fun s => if is_empty s then None else Some s |}.

Definition net : Net :=
  {| validURL := fun u => negb (is_empty u);
     Encode := fun _ => "" |}.

End example.

(** * The vocabulary of the properties *)

Section vocabulary.
Context {clk : Clock} {net : Net}.

Import xml service.

(** The extended-property elements of an entry, in document order, each
    with the name, value and realm its attributes give. *)
Definition properties (d : list xml.Node) : list GDExtendedProperty.t :=
  omap (fun n =>
          match n with
          | xml.Element nm attrs _ =>
              if xml.matches gdNS "extendedProperty" nm
              then Some (GDExtendedProperty.mk (xml.attrString "name" attrs "")
                                               (xml.attrString "value" attrs "")
                                               (xml.attrString "realm" attrs ""))
              else None
          | xml.CharData _ => None
          end) d.

(** The value of the last pair named [k], if any pair is. *)
Definition lastValue (k : string) (pairs : list GDExtendedProperty.t)
  : option string :=
  GDExtendedProperty.Value
    <$> last (filter (fun p => GDExtendedProperty.Name p = k) pairs).

(** The values of the term attributes of the entry's category elements, in
    document order; the entry's category term is the last of them, and is
    absent when there is none. *)
Definition categoryTerms (d : list xml.Node) : list string :=
  flat_map (fun n =>
              match n with
              | xml.Element nm attrs _ =>
                  if xml.matches "" "category" nm
                  then omap (fun a => if xml.matches "" "term" (xml.AName a)
                                      then Some (xml.Value a) else None) attrs
                  else []
              | xml.CharData _ => []
              end) d.

(** The entry's category term. *)
Definition categoryTerm (d : list xml.Node) : option string :=
  last (categoryTerms d).

(** The URL of a single contact. *)
Definition contactURL (s : service.t) (id projection : string) : string :=
  endpoint s +:+ "/" +:+ getPojection s projection +:+ "/" +:+ id.

(** The request getContact builds. *)
Definition getRequest (s : service.t) (id projection etag : string) : http.Request :=
  let req := http.mkRequest http.MethodGet (contactURL s id projection) ∅ None in
  if negb (String.eqb etag "") && negb (String.eqb etag "*")
  then http.SetHeader "If-None-Match" etag req else req.

(** The requests that reached the transport between two worlds. *)
Definition issued (w w' : world) : list http.Request :=
  drop (length (sent w)) (sent w').

(** A link of relation "next". *)
Definition isNext (l : Link.t) : bool := String.eqb (Link.Related l) "next".

(** The request that follows a page: a GET of the first "next" link as it
    stands, without header and without body. *)
Definition follows (f : feed) : option http.Request :=
  match find isNext (f_Links f) with
  | Some l =>
      if validURL (Link.Href l)
      then Some (http.mkRequest http.MethodGet (Link.Href l) ∅ None)
      else None
  | None => None
  end.

(** The QueryStatus a page gives: its updated time and its version tag. *)
Definition status (f : feed) : QueryStatus := mkQueryStatus (f_Updated f) (f_Etag f).

(** The first request of ListContacts. *)
Definition listURL (s : service.t) (projection : string)
    (queries : list (query.Values -> query.Values)) : string :=
  match queries with
  | [] => endpoint s +:+ "/" +:+ getPojection s projection
  | _ :: _ =>
      endpoint s +:+ "/" +:+ getPojection s projection +:+ "?"
      +:+ Encode (fold_left (fun v q => q v) queries (query.withStrict ∅))
  end.

Definition listRequest (s : service.t) (projection etag : string)
    (queries : list (query.Values -> query.Values)) : http.Request :=
  let req := http.mkRequest http.MethodGet (listURL s projection queries) ∅ None in
  if negb (String.eqb etag "") then http.SetHeader "If-None-Match" etag req else req.

(** Whether the element carries an attribute, a child element, or text. *)
Definition attrIn (name : string) (attrs : list Attr) : bool :=
  existsb (fun a => String.eqb name (Local (AName a))) attrs.

Definition childIn (name : string) (body : list Node) : bool :=
  existsb (fun c => match c with
                    | Element nm _ _ => String.eqb name (Local nm)
                    | CharData _ => false
                    end) body.

Definition hasAttr (name : string) (n : Node) : bool :=
  match n with Element _ attrs _ => attrIn name attrs | CharData _ => false end.

Definition hasChild (name : string) (n : Node) : bool :=
  match n with Element _ _ body => childIn name body | CharData _ => false end.

Definition hasText (n : Node) : bool :=
  match n with
  | Element _ _ body =>
      existsb (fun c => match c with CharData _ => true | Element _ _ _ => false end) body
  | CharData _ => false
  end.

(** An attribute name without prefix that declares no name space. *)
Definition plain (k : string) : bool :=
  match cutColon k with
  | None => negb (String.eqb k "xmlns")
  | Some _ => false
  end.

Definition plainAttr (a : Attr) : Prop :=
  Space (AName a) = "" /\ plain (Local (AName a)) = true.

End vocabulary.

Section more_vocabulary.
Context {clk : Clock} {net : Net}.

Import service.

(** Whether the byte occurs in the string. *)
Fixpoint containsByte (sep : ascii) (s : string) : bool :=
  match s with
  | EmptyString => false
  | String a s' => Ascii.eqb a sep || containsByte sep s'
  end.

(** The link elements of an entry, in document order. *)
Definition entryLinks (d : list xml.Node) : list Link.t :=
  omap (fun n =>
          match n with
          | xml.Element nm attrs _ =>
              if xml.matches atomNS "link" nm
              then Some (Link.mk (xml.attrString "rel" attrs "")
                                 (xml.attrString "type" attrs "")
                                 (xml.attrString "href" attrs ""))
              else None
          | xml.CharData _ => None
          end) d.

(** The href of the last link of relation [rel], [init] when there is none. *)
Definition lastHref (rel : string) (links : list Link.t) (init : string) : string :=
  default init (last (Link.Href <$> filter (fun l => Link.Related l = rel) links)).

(** What the child elements of one name give when each is decoded on its
    own, in document order. *)
Definition decodedChildren {T} (xmlns local : string)
    (unmarshal : list xml.Node -> xml.StartElement -> result T)
    (d : list xml.Node) : list (result T) :=
  omap (fun n =>
          match n with
          | xml.Element nm attrs body =>
              if xml.matches xmlns local nm
              then Some (unmarshal body (xml.mkStart nm attrs))
              else None
          | xml.CharData _ => None
          end) d.

(** Every primary attribute holds a boolean as copyValue reads one. *)
Definition primaryOk (attrs : list xml.Attr) : bool :=
  forallb (fun a => if xml.matches "" "primary" (xml.AName a)
                    then is_ok (xml.copyBool (xml.Value a)) else true) attrs.

(** An option that leaves the strict parameter as it finds it. *)
Definition keepsStrict (q : query.Values -> query.Values) : Prop :=
  forall v, q v !! "strict" = v !! "strict".

(** The parameters ListContacts builds from its options. *)
Definition listParams (queries : list (query.Values -> query.Values)) : query.Values :=
  fold_left (fun v q => q v) queries (query.withStrict ∅).

(** A negated term as the q parameter holds it. *)
Definition negated (t : string) : string :=
  "-" +:+ query.dquote +:+ strings.TrimPrefix t "-" +:+ query.dquote.

(** A request as the transport wrapper passes it on: with the protocol
    version header. *)
Definition stamped (r : http.Request) : Prop :=
  http.Header r !! "GData-Version" = Some "3.0".

(** A GET without body, which is all ListContacts sends. *)
Definition plainGet (r : http.Request) : Prop :=
  http.Method_ r = http.MethodGet /\ http.Body r = None.

(** Two answers of the transport that differ in nothing but the status. *)
Definition sameBody (a a' : result http.Response) : Prop :=
  match a, a' with
  | Ok res, Ok res' => http.RBody res = http.RBody res'
  | Err e, Err e' => e = e'
  | _, _ => False
  end.

(** The request UpdateContact and DeleteContact send after the re-fetch. *)
Definition mutation (m : http.Method) (op : ContactKind.t) (etag : string)
    (body : option xml.Node) : http.Request :=
  RoundTrip (http.SetHeader "If-Match" etag
               (http.mkRequest m (ContactKind.editLink op) ∅ body)).

(** The supplied version tag passes the check against the re-fetched one. *)
Definition tagPasses (op : ContactKind.t) (etag : string) : Prop :=
  ContactKind.etag op = etag \/ etag = "*".

(** An attribute with its value as a Decoder reads it back. *)
Definition wireAttr (a : xml.Attr) : xml.Attr :=
  xml.mkAttr (xml.AName a) (xml.wireText (xml.Value a)).

(** A string the Encoder writes as it is: valid UTF-8 of characters XML
    allows. *)
Definition xmlText (s : string) : Prop := xml.wireText s = s.

(** The shape of the encoding of one rune: the lead byte tells the number
    of continuation bytes that follow it. *)
Definition isRune (c : list ascii) : bool :=
  match c with
  | [a] => (utf8.byte a <? 128)%N
  | [a; a1] => utf8.within 194 223 a && utf8.within 128 191 a1
  | [a; a1; a2] =>
      utf8.within 224 239 a && utf8.within 128 191 a1 && utf8.within 128 191 a2
  | [a; a1; a2; a3] =>
      utf8.within 240 244 a && utf8.within 128 191 a1 && utf8.within 128 191 a2
      && utf8.within 128 191 a3
  | _ => false
  end.

(** The child elements of a written name, in document order. *)
Definition named (name : string) (n : xml.Node) : bool :=
  match n with
  | xml.Element nm _ _ => String.eqb name (xml.Local nm)
  | xml.CharData _ => false
  end.

Definition childrenNamed (name : string) (n : xml.Node) : list xml.Node :=
  match n with
  | xml.Element _ _ body => List.filter (named name) body
  | xml.CharData _ => []
  end.

(** The strings of a list one after the other. *)
Definition appendAll (l : list string) : string := fold_right String.append "" l.

(** The strings of a list with [sep] between them. *)
Fixpoint joinWith (sep : string) (l : list string) : string :=
  match l with
  | [] => ""
  | [x] => x
  | x :: rest => x +:+ sep +:+ joinWith sep rest
  end.

(** What a search term leaves in the q parameter: its negated form when it
    starts with "-", and nothing otherwise. *)
Definition rendered (t : string) : string :=
  if strings.HasPrefix t "-" then negated t else "".

(** The URL CreateContact posts to. *)
Definition createURL (s : service.t) : string := endpoint s +:+ "/" +:+ projection s.

End more_vocabulary.

(** * Example data *)

Section example_contact.
Context {clk : Clock}.

(** A contact with one e-mail address. *)
Definition oneEmail : GDEmail.t :=
  GDEmail.mk "liz@gmail.com" "http://schemas.google.com/g/2005#work" "" true "".

Definition liz : ContactKind.t :=
  {| ContactKind.Name := GDName.mk "Elizabeth" "" "Bennet" "" "" "Elizabeth Bennet";
     ContactKind.Email := [oneEmail];
     ContactKind.PhoneNumber := [];
     ContactKind.StructuredPostalAddress := [];
     ContactKind.IM := [];
     ContactKind.ExtendedProperty := ∅;
     ContactKind.deleted := false;
     ContactKind.editLink := "";
     ContactKind.photoLink := "";
     ContactKind.selfLink := "";
     ContactKind.id := "";
     ContactKind.updated := zeroTime;
     ContactKind.content := "";
     ContactKind.etag := "" |}.

End example_contact.

Section example_directory.

Import service.

(** The start of an Atom entry, and an element that has attributes only. *)
Definition entryStart : xml.StartElement :=
  xml.mkStart (xml.mkName atomNS "entry") [].

Definition attrNode (tag : xml.Name) (attrs : list (string * string)) : xml.Node :=
  xml.Element tag (map (fun kv => xml.mkAttr (xml.mkName "" kv.1) kv.2) attrs) [].

(** An entry of the group kind, as a Decoder reads it. *)
Definition groupEntry : list xml.Node :=
  [ attrNode (xml.mkName atomNS "category")
      [("scheme", "http://schemas.google.com/g/2005#kind");
       ("term", "http://schemas.google.com/contact/2008#group")];
    xml.Element (xml.mkName atomNS "title") [] [xml.CharData "Friends"] ].

(** A contact entry with the property "color" given twice. *)
Definition colorEntry : list xml.Node :=
  [ attrNode (xml.mkName atomNS "category") [("term", contactTerm)];
    attrNode (xml.mkName gdNS "extendedProperty") [("name", "color"); ("value", "red")];
    attrNode (xml.mkName gdNS "extendedProperty") [("name", "size"); ("value", "L")];
    attrNode (xml.mkName gdNS "extendedProperty") [("name", "color"); ("value", "blue")] ].

Definition colorContact : ContactKind.t (clk := example.clock) :=
  ContactKind.mk (clk := example.clock) GDName.zero [] [] [] []
     (<["color" := "blue"]> (<["size" := "L"]> ∅))
     false "" "" "" "" ("" : string) "" "".

(** The service of the domain example.com, with the default projection. *)
Definition svc : service.t := NewService "example.com" "".

Definition ok (doc : xml.Node) : result http.Response :=
  Ok (http.mkResponse 200 "200 OK" (Some doc)).

(** A contact entry as a Decoder reads it, with its version tag and one
    e-mail address. *)
Definition entryDoc (tag address : string) : xml.Node :=
  xml.Element (xml.mkName atomNS "entry") [xml.mkAttr (xml.mkName gdNS "etag") tag]
    [ attrNode (xml.mkName atomNS "category")
        [("scheme", "http://schemas.google.com/g/2005#kind"); ("term", contactTerm)];
      attrNode (xml.mkName atomNS "link")
        [("rel", "edit");
         ("href", "https://www.google.com/m8/feeds/contacts/example.com/full/42")];
      attrNode (xml.mkName gdNS "email") [("address", address)] ].

Definition contactOf (tag address : string) : ContactKind.t (clk := example.clock) :=
  ContactKind.mk (clk := example.clock) GDName.zero
    [GDEmail.mk address "" "" false ""] [] [] [] ∅ false
    "https://www.google.com/m8/feeds/contacts/example.com/full/42" "" "" ""
    ("" : string) "" tag.

(** A feed page as a Decoder reads it. *)
Definition pageDoc (tag updated : string) (links : list (string * string))
    (entries : list xml.Node) : xml.Node :=
  xml.Element (xml.mkName atomNS "feed") [xml.mkAttr (xml.mkName gdNS "etag") tag]
    (xml.Element (xml.mkName atomNS "updated") [] [xml.CharData updated]
     :: map (fun l => attrNode (xml.mkName atomNS "link") [("rel", l.1); ("href", l.2)])
            links
     ++ entries).

Definition feedOf (tag updated : string) (links : list (string * string))
    (cts : list (ContactKind.t (clk := example.clock))) : feed (clk := example.clock) :=
  mkFeed (clk := example.clock) tag (updated : string)
         (map (fun l => Link.mk l.1 "" l.2) links) cts.

(** Three pages of one contact each: the first two name the page that
    follows, the last names itself only. *)
Definition links1 : list (string * string) :=
  [("self", "https://example.com/feed?start-index=1");
   ("next", "https://example.com/feed?start-index=2")].

Definition links2 : list (string * string) :=
  [("next", "https://example.com/feed?start-index=3")].

Definition links3 : list (string * string) :=
  [("self", "https://example.com/feed?start-index=3")].

Definition page1 : xml.Node :=
  pageDoc "p1" "2023-08-18T09:00:00Z" links1 [entryDoc "a1" "ann@example.org"].

Definition page2 : xml.Node :=
  pageDoc "p2" "2023-08-18T10:00:00Z" links2 [entryDoc "b1" "bob@example.org"].

Definition page3 : xml.Node :=
  pageDoc "p3" "2023-08-18T11:00:00Z" links3 [entryDoc "c1" "cat@example.org"].

Definition feed1 := feedOf "p1" "2023-08-18T09:00:00Z" links1 [contactOf "a1" "ann@example.org"].

Definition feed2 := feedOf "p2" "2023-08-18T10:00:00Z" links2 [contactOf "b1" "bob@example.org"].

Definition feed3 := feedOf "p3" "2023-08-18T11:00:00Z" links3 [contactOf "c1" "cat@example.org"].

Definition threePages : world := mkWorld [ok page1; ok page2; ok page3] [].

(** A page without any link element. *)
Definition lonePage : xml.Node :=
  pageDoc "p1" "2023-08-18T09:00:00Z" [] [entryDoc "a1" "ann@example.org"].

(** The directory holds contact 42 at version "v2". *)
Definition oneContact : world := mkWorld [ok (entryDoc "v2" "ann@example.org")] [].

(** The world after the contact has been fetched once. *)
Definition fetched (projection : string) : world :=
  mkWorld []
    [RoundTrip (getRequest svc "42" projection "")].

(** The transport answers 304 Not Modified. *)
Definition unchanged : world :=
  mkWorld [Ok (http.mkResponse 304 "304 Not Modified" None)] [].

End example_directory.

Section more_examples.

Import service.

(** The directory holds contact 42 at version "v2"; [res] is what the
    transport answers to the request that follows the re-fetch. *)
Definition thenAnswers (res : http.Response) : world :=
  mkWorld [ok (entryDoc "v2" "ann@example.org"); Ok res] [].

(** The world after the re-fetch of contact 42. *)
Definition refetched (projection : string) (res : http.Response) : world :=
  mkWorld [Ok res] [RoundTrip (getRequest svc "42" projection "")].

Definition preconditionFailed : http.Response :=
  http.mkResponse 412 "412 Precondition Failed" None.

(** An entry with a padded full name, two e-mail addresses around a phone
    number with a padded dial string, a postal address of relation home, and
    three links, two of them of relation edit. *)
Definition fullEntry : list xml.Node :=
  [ attrNode (xml.mkName atomNS "category") [("term", contactTerm)];
    xml.Element (xml.mkName gdNS "name") []
      [xml.Element (xml.mkName gdNS "fullName") [] [xml.CharData " Ann Lee "]];
    attrNode (xml.mkName gdNS "email")
      [("address", "ann@example.org"); ("primary", "true")];
    attrNode (xml.mkName atomNS "link")
      [("rel", "edit"); ("href", "https://example.com/edit/1")];
    xml.Element (xml.mkName gdNS "phoneNumber")
      [xml.mkAttr (xml.mkName "" "rel") "work"] [xml.CharData " 555 0100 "];
    attrNode (xml.mkName gdNS "email") [("address", "lee@example.org")];
    xml.Element (xml.mkName gdNS "structuredPostalAddress")
      [xml.mkAttr (xml.mkName "" "rel") "http://schemas.google.com/g/2005#home"]
      [xml.Element (xml.mkName gdNS "city") [] [xml.CharData "Bath"]];
    attrNode (xml.mkName atomNS "link")
      [("rel", "self"); ("href", "https://example.com/self")];
    attrNode (xml.mkName atomNS "link")
      [("rel", "edit"); ("href", "https://example.com/edit/2")] ].

Definition fullContact : ContactKind.t (clk := example.clock) :=
  ContactKind.mk (clk := example.clock)
    (GDName.mk "" "" "" "" "" "Ann Lee")
    [GDEmail.mk "ann@example.org" "" "" true "";
     GDEmail.mk "lee@example.org" "" "" false ""]
    [GDPhoneNumber.mk "work" "" "" false "555 0100"]
    [GDStructuredPostalAddress.mk "" "" "" "" false "" "" "" "" "Bath" "" "" "" "" "" ""]
    [] ∅ false
    "https://example.com/edit/2" "" "https://example.com/self" ""
    ("" : string) "" "".

(** A contact with two phone numbers and one e-mail address. *)
Definition twoPhones : ContactKind.t (clk := example.clock) :=
  ContactKind.mk (clk := example.clock) GDName.zero
    [GDEmail.mk "ann@example.org" "" "" false ""]
    [GDPhoneNumber.mk "work" "" "" true "555 0100";
     GDPhoneNumber.mk "home" "" "" false "555 0101"]
    [] [] ∅ false "" "" "" "" ("" : string) "" "".

(** The transport answers 201 Created with the stored entry. *)
Definition created : world :=
  mkWorld [Ok (http.mkResponse 201 "201 Created"
                 (Some (entryDoc "v1" "ann@example.org")))] [].

(** The connection breaks after the first page. *)
Definition brokenAfterFirst : world :=
  mkWorld [ok page1; Err (TransportError "connection reset")] [].

(** The first page, then an answer without a body. *)
Definition emptyAfterFirst : world :=
  mkWorld [ok page1; Ok (http.mkResponse 304 "304 Not Modified" None)] [].

(** The three pages, each served with status 500. *)
Definition threePages500 : world :=
  mkWorld (map (fun doc => Ok (http.mkResponse 500 "500 Internal Server Error"
                                               (Some doc)))
               [page1; page2; page3]) [].

End more_examples.

(** * Properties *)

(** ** First facts *)

Lemma is_empty_true s : is_empty s = true <-> s = "".
Proof. destruct s; simpl; split; congruence. Qed.

Lemma appendEach_app {T} (src dst : list T) : appendEach dst src = dst ++ src.
Proof.
  unfold appendEach. revert dst.
  induction src as [|v src IH]; intros dst; simpl.
  - by rewrite app_nil_r.
  - rewrite IH. by rewrite <- app_assoc.
Qed.

(** ** The free-text query option *)

Section text_query.

(** Terms without a leading "-" leave nothing but the separating blanks. *)
Lemma writeTerm_plain b idx t :
  strings.HasPrefix t "-" = false ->
  query.writeTerm b idx t = if Nat.eqb idx 0 then b else b +:+ " ".
Proof.
  intros Hp. unfold query.writeTerm. rewrite Hp. by destruct idx.
Qed.

(** C10, on the example of the function's own documentation: "to search for
    all entries that contain the exact phrase Elizabeth Bennet and the word
    Darcy but don't contain the word Austen".  The two positive terms do not
    reach the q parameter; only their separating blanks and the negated term
    do. *)
Theorem WithTextQuery_loses_positive_terms :
  query.WithTextQuery ["Elizabeth Bennet"; "Darcy"; "-Austen"] ∅ !! "q"
  = Some ["  -" +:+ query.dquote +:+ "Austen" +:+ query.dquote]
  /\ query.WithTextQuery ["Darcy"] ∅ !! "q" = Some [""].
Proof.
  unfold query.WithTextQuery, query.Set_. rewrite !lookup_insert_eq.
  split; reflexivity.
Qed.

End text_query.

(** ** Clone *)

Section clone.
Context {clk : Clock}.

(** Ranging over a map and storing every pair in a fresh map copies it. *)
Lemma fold_insert_map_to_list (m : gmap string string) :
  fold_left (fun acc kv => <[kv.1 := kv.2]> acc) (map_to_list m) ∅ = m.
Proof.
  rewrite <- fold_left_rev_right.
  change (list_to_map (M := gmap string string) (rev (map_to_list m)) = m).
  rewrite <- (list_to_map_to_list m) at 2.
  assert (Hp : rev (map_to_list m) ≡ₚ map_to_list m)
    by (symmetry; apply Permutation_rev).
  apply list_to_map_proper; [|exact Hp].
  rewrite Hp. apply NoDup_fst_map_to_list.
Qed.

(** What Clone returns, for every contact: the three slices made with the
    source's length carry that many zero values in front of the copies. *)
Lemma Clone_eq (c : ContactKind.t) :
  ContactKind.Clone c =
  {| ContactKind.Name := ContactKind.Name c;
     ContactKind.Email :=
       replicate (length (ContactKind.Email c)) GDEmail.zero
       ++ ContactKind.Email c;
     ContactKind.PhoneNumber :=
       replicate (length (ContactKind.PhoneNumber c)) GDPhoneNumber.zero
       ++ ContactKind.PhoneNumber c;
     ContactKind.StructuredPostalAddress :=
       replicate (length (ContactKind.StructuredPostalAddress c))
                 GDStructuredPostalAddress.zero
       ++ ContactKind.StructuredPostalAddress c;
     ContactKind.IM := ContactKind.IM c;
     ContactKind.ExtendedProperty := ContactKind.ExtendedProperty c;
     ContactKind.deleted := ContactKind.deleted c;
     ContactKind.editLink := ContactKind.editLink c;
     ContactKind.photoLink := ContactKind.photoLink c;
     ContactKind.selfLink := ContactKind.selfLink c;
     ContactKind.id := ContactKind.id c;
     ContactKind.updated := ContactKind.updated c;
     ContactKind.content := ContactKind.content c;
     ContactKind.etag := ContactKind.etag c |}.
Proof.
  unfold ContactKind.Clone; simpl.
  rewrite !appendEach_app, fold_insert_map_to_list. reflexivity.
Qed.

(** A contact without e-mail addresses, phone numbers and postal addresses
    is cloned exactly. *)
Lemma Clone_id (c : ContactKind.t) :
  ContactKind.Email c = [] ->
  ContactKind.PhoneNumber c = [] ->
  ContactKind.StructuredPostalAddress c = [] ->
  ContactKind.Clone c = c.
Proof.
  intros He Hp Ha. rewrite Clone_eq.
  destruct c; simpl in *; subst; reflexivity.
Qed.

(** C5, at a contact with one e-mail address: its clone has two, the first
    of them the zero value, so the clone is not equal to the contact. *)
Theorem Clone_pads_email :
  ContactKind.Email (ContactKind.Clone liz) = [GDEmail.zero; oneEmail]
  /\ ContactKind.Clone liz <> liz.
Proof.
  split; [by rewrite Clone_eq|].
  intros Heq. apply (f_equal ContactKind.Email) in Heq.
  rewrite Clone_eq in Heq. discriminate Heq.
Qed.

End clone.

(** ** Decoding an entry *)

Arguments xml.matches : simpl never.

Section entry.
Context {clk : Clock}.

Import ContactKind.

Lemma matches_local xmlns local nm :
  xml.matches xmlns local nm = true -> xml.Local nm = local.
Proof.
  unfold xml.matches. intros [_ Hl]%andb_prop.
  by apply String.eqb_eq in Hl.
Qed.

(** An element name is taken by one local name only. *)
Lemma matches_other xmlns local nm xmlns' local' :
  xml.matches xmlns local nm = true ->
  local' <> local ->
  xml.matches xmlns' local' nm = false.
Proof.
  intros <-%matches_local Hne. unfold xml.matches.
  apply andb_false_intro2. by apply String.eqb_neq.
Qed.

Lemma collectProperties_snoc pairs p :
  collectProperties (pairs ++ [p])
  = <[GDExtendedProperty.Name p := GDExtendedProperty.Value p]>
      (collectProperties pairs).
Proof. unfold collectProperties. by rewrite fold_left_app. Qed.

(** The loop over the decoded pairs is last-wins. *)
Lemma collectProperties_lookup pairs k :
  collectProperties pairs !! k = lastValue k pairs.
Proof.
  unfold lastValue.
  induction pairs as [|p pairs IH] using rev_ind; [done|].
  rewrite collectProperties_snoc, filter_app, filter_cons, filter_nil.
  destruct (decide (GDExtendedProperty.Name p = k)) as [->|Hne].
  - by rewrite lookup_insert_eq, last_snoc.
  - rewrite lookup_insert_ne by done. by rewrite app_nil_r.
Qed.

(** A child element leaves the pairs as they are or adds the one it holds. *)
Lemma decodeChild_properties o n o' :
  decodeChild o n = Ok o' ->
  o_ExtendedProperty o' = o_ExtendedProperty o ++ properties [n].
Proof.
  unfold properties.
  destruct n as [nm attrs body|s]; simpl;
    [|intros [= <-]; by rewrite app_nil_r].
  destruct (xml.matches gdNS "extendedProperty" nm) eqn:Hm.
  - rewrite !(matches_other _ _ _ _ _ Hm) by discriminate.
    by intros [= <-].
  - intros Hd. rewrite app_nil_r.
    repeat (case_match; simplify_eq/=; try done);
      match goal with
      | Hb : bind ?r _ = Ok _ |- _ => destruct r; simplify_eq/=; done
      end.
Qed.

Lemma properties_cons n d : properties (n :: d) = properties [n] ++ properties d.
Proof.
  unfold properties. simpl. destruct n; [case_match|]; done.
Qed.

Lemma decodeChildren_properties d : forall o o',
  decodeChildren o d = Ok o' ->
  o_ExtendedProperty o' = o_ExtendedProperty o ++ properties d.
Proof.
  induction d as [|n d IH]; intros o o'; simpl.
  - intros [= <-]. by rewrite app_nil_r.
  - destruct (decodeChild o n) as [o1|e] eqn:H1; [|done]. simpl.
    intros H2. rewrite (IH _ _ H2), (decodeChild_properties _ _ _ H1).
    by rewrite <- app_assoc, <- properties_cons.
Qed.

Lemma DecodeElement_properties d start o :
  DecodeElement d start = Ok o -> o_ExtendedProperty o = properties d.
Proof.
  unfold DecodeElement. repeat case_match; try done.
  intros Hd. by rewrite (decodeChildren_properties _ _ _ Hd).
Qed.

(** The fields UnmarshalXML copies from the decoded [o]. *)
Lemma UnmarshalXML_Ok c d start c' :
  UnmarshalXML c d start = Ok c' ->
  exists o, DecodeElement d start = Ok o
            /\ o_Term o = contactTerm
            /\ ExtendedProperty c' = collectProperties (o_ExtendedProperty o)
            /\ etag c' = o_Etag o
            /\ editLink c'
               = (scanLinks (o_Link o) (photoLink c, selfLink c, editLink c)).2.
Proof.
  unfold UnmarshalXML.
  destruct (DecodeElement d start) as [o|e]; [simpl|done].
  destruct (String.eqb (o_Term o) contactTerm) eqn:Ht; [simpl|done].
  destruct (scanLinks _ _) as [[photo self] edit] eqn:Hl.
  intros [= <-]. exists o. apply String.eqb_eq in Ht.
  by rewrite Hl.
Qed.

(** C9.  In every entry that decodes to a contact, the mapping gives each
    name the value of the last extended-property element, in document
    order, that carries the name, and no value to a name that no element
    carries. *)
Theorem extended_properties_last_wins c d start c' :
  UnmarshalXML c d start = Ok c' ->
  forall k, ExtendedProperty c' !! k = lastValue k (properties d).
Proof.
  intros (o & Hd & _ & -> & _)%UnmarshalXML_Ok k.
  by rewrite collectProperties_lookup, (DecodeElement_properties _ _ _ Hd).
Qed.

(** A string attribute field ends with the last attribute of its name. *)
Lemma attrString_last local attrs : forall init,
  xml.attrString local attrs init
  = default init (last (omap (fun a => if xml.matches "" local (xml.AName a)
                                       then Some (xml.Value a) else None) attrs)).
Proof.
  unfold xml.attrString.
  induction attrs as [|a attrs IH]; intros init; simpl; [done|].
  rewrite IH. destruct (xml.matches "" local (xml.AName a)); [|done].
  rewrite last_cons. by destruct (last _).
Qed.

Lemma categoryTerms_cons n d :
  categoryTerms (n :: d) = categoryTerms [n] ++ categoryTerms d.
Proof. unfold categoryTerms. simpl. by rewrite app_nil_r. Qed.

Lemma decodeChild_term o n o' :
  decodeChild o n = Ok o' ->
  o_Term o' = default (o_Term o) (last (categoryTerms [n])).
Proof.
  unfold categoryTerms.
  destruct n as [nm attrs body|s]; simpl; [|by intros [= <-]].
  rewrite app_nil_r.
  destruct (xml.matches "" "category" nm) eqn:Hm.
  - intros [= <-]. simpl. apply attrString_last.
  - intros Hd.
    repeat (case_match; simplify_eq/=; try done);
      match goal with
      | Hb : bind ?r _ = Ok _ |- _ => destruct r; simplify_eq/=; done
      end.
Qed.

Lemma decodeChildren_term d : forall o o',
  decodeChildren o d = Ok o' ->
  o_Term o' = default (o_Term o) (last (categoryTerms d)).
Proof.
  induction d as [|n d IH]; intros o o'; cbn [decodeChildren].
  - by intros [= <-].
  - destruct (decodeChild o n) as [o1|e] eqn:H1; [|done]. cbn [bind].
    intros H2. rewrite (IH _ _ H2), (decodeChild_term _ _ _ H1).
    rewrite (categoryTerms_cons n d), last_app.
    by destruct (last (categoryTerms d)).
Qed.

Lemma DecodeElement_term d start o :
  DecodeElement d start = Ok o -> o_Term o = default "" (categoryTerm d).
Proof.
  unfold DecodeElement, categoryTerm. repeat case_match; try done.
  intros Hd. by rewrite (decodeChildren_term _ _ _ Hd).
Qed.

(** C8.  An entry whose category term is absent or is not the contact
    kind's never decodes to a contact: when the entry is read without error
    the decoding ends in the type mismatch error, and otherwise in the
    error of the reading. *)
Theorem category_guard c d start :
  categoryTerm d <> Some contactTerm ->
  UnmarshalXML c d start
  = match DecodeElement d start with
    | Ok _ => Err (typeMismatch (default "" (categoryTerm d)))
    | Err e => Err e
    end
  /\ is_ok (UnmarshalXML c d start) = false.
Proof.
  intros Hne.
  assert (Heq : UnmarshalXML c d start
                = match DecodeElement d start with
                  | Ok _ => Err (typeMismatch (default "" (categoryTerm d)))
                  | Err e => Err e
                  end).
  { unfold UnmarshalXML.
    destruct (DecodeElement d start) as [o|e] eqn:Hd; [simpl|done].
    rewrite (DecodeElement_term _ _ _ Hd).
    destruct (String.eqb _ contactTerm) eqn:Ht; [|done].
    apply String.eqb_eq in Ht.
    destruct (categoryTerm d) as [t|] eqn:Hc; simpl in Ht.
    - by subst t.
    - discriminate Ht. }
  split; [exact Heq|]. rewrite Heq. by destruct (DecodeElement d start).
Qed.

End entry.

Section entry_examples.

Import ContactKind.

Lemma category_guard_witness :
  categoryTerm groupEntry <> Some contactTerm
  /\ UnmarshalXML (clk := example.clock) zero groupEntry entryStart
     = Err (typeMismatch "http://schemas.google.com/contact/2008#group").
Proof.
  assert (Hne : categoryTerm groupEntry <> Some contactTerm) by discriminate.
  split; [exact Hne|].
  exact (proj1 (category_guard (clk := example.clock) zero groupEntry entryStart Hne)).
Defined.

Lemma colorEntry_decodes :
  UnmarshalXML (clk := example.clock) zero colorEntry entryStart = Ok colorContact.
Proof. vm_compute. reflexivity. Qed.

Lemma extended_properties_last_wins_witness :
  ExtendedProperty colorContact !! "color" = lastValue "color" (properties colorEntry)
  /\ lastValue "color" (properties colorEntry) = Some "blue"
  /\ ExtendedProperty colorContact !! "shape" = None.
Proof.
  pose proof (extended_properties_last_wins (clk := example.clock)
                zero colorEntry entryStart colorContact colorEntry_decodes) as Hk.
  split; [exact (Hk "color")|].
  split; [reflexivity|].
  rewrite (Hk "shape"). reflexivity.
Defined.

End entry_examples.

(** ** The service: conditional get and version-gated mutation *)

Section conditional.
Context {clk : Clock} {net : Net}.

Import service.

Lemma issued_app w w' l : sent w' = sent w ++ l -> issued w w' = l.
Proof. unfold issued. intros ->. by rewrite drop_app_length. Qed.

Lemma RoundTrip_get req :
  http.Method_ req = http.MethodGet ->
  RoundTrip req = http.SetHeader "GData-Version" "3.0" req.
Proof. unfold RoundTrip. simpl. by intros ->. Qed.

Lemma getRequest_method s id projection etag :
  http.Method_ (getRequest s id projection etag) = http.MethodGet.
Proof. unfold getRequest. by case_match. Qed.

(** getContact by cases on the URL and on the transport's next answer. *)
Lemma getContact_unfold s id projection etag errPrefix w :
  getContact s id projection etag errPrefix w =
  if validURL (contactURL s id projection) then
    let w' := mkWorld (tail (pending w))
                      (sent w ++ [RoundTrip (getRequest s id projection etag)]) in
    match pending w with
    | [] => (Waiting, w')
    | Err e :: _ => (Failed (Wrapf errPrefix e), w')
    | Ok res :: _ =>
        if Nat.eqb (http.StatusCode res) http.StatusNotModified
        then (Returned None, w')
        else match decodeContact (http.RBody res) with
             | Ok contact => (Returned (Some contact), w')
             | Err e => (Failed e, w')
             end
    end
  else (Failed (Wrapf errPrefix (URLError (contactURL s id projection))), w).
Proof.
  unfold getContact, cbind, try, http.NewRequest, getRequest, contactURL.
  destruct (validURL _); [|done]. simpl.
  unfold Do. destruct (pending w) as [|[res|e] rest]; simpl; try done.
  destruct (Nat.eqb _ _); [done|].
  by destruct (decodeContact _).
Qed.

(** Whatever getContact does, the only request it can issue is its GET. *)
Lemma getContact_issued s id projection etag errPrefix w :
  let w' := (getContact s id projection etag errPrefix w).2 in
  issued w w' = [] \/ issued w w' = [RoundTrip (getRequest s id projection etag)].
Proof.
  rewrite getContact_unfold.
  destruct (validURL _); simpl.
  - right. apply issued_app.
    destruct (pending w) as [|[res|e] rest]; simpl; try done.
    destruct (Nat.eqb _ _); [done|]. by destruct (decodeContact _).
  - left. unfold issued. by rewrite drop_all.
Qed.

(** C4.  GetContact issues one GET for the contact's URL.  Its
    If-None-Match header is the supplied version tag when that is neither
    empty nor the wildcard, and is not set otherwise.  When the answer has
    status 304 the call returns the nil contact with a nil error. *)
Theorem GetContact_conditional s id projection etag w :
  validURL (contactURL s id projection) = true ->
  (exists req,
      sent (GetContact s id projection etag w).2 = sent w ++ [req]
      /\ http.Method_ req = http.MethodGet
      /\ http.URL req = contactURL s id projection
      /\ http.Header req !! "If-None-Match"
         = if negb (String.eqb etag "") && negb (String.eqb etag "*")
           then Some etag else None)
  /\ (forall res rest,
         pending w = Ok res :: rest ->
         http.StatusCode res = http.StatusNotModified ->
         (GetContact s id projection etag w).1 = Returned None).
Proof.
  intros Hurl. unfold GetContact. rewrite getContact_unfold, Hurl.
  split.
  - exists (RoundTrip (getRequest s id projection etag)).
    split.
    { destruct (pending w) as [|[res|e] rest]; simpl; try done.
      destruct (Nat.eqb _ _); [done|]. by destruct (decodeContact _). }
    rewrite RoundTrip_get by apply getRequest_method.
    unfold getRequest.
    destruct (negb (String.eqb etag "") && negb (String.eqb etag "*")); simpl;
      repeat split; try done.
    all: rewrite lookup_insert_ne by discriminate.
    all: by rewrite ?lookup_insert_eq, ?lookup_empty.
  - intros res rest -> ->. reflexivity.
Qed.

(** C3.  When the contact re-fetched by UpdateContact or DeleteContact
    carries a version tag other than the supplied one, and the supplied one
    is not the wildcard, the call fails with the version mismatch error in
    the world the re-fetch left: of the requests issued none is a PUT, a
    DELETE or a POST. *)
Theorem version_mismatch s id etag p w :
  etag <> "*" ->
  (forall op w',
      getContact s id "full" "" "UpdateContact error: could not get a contact" w
      = (Returned (Some op), w') ->
      ContactKind.etag op <> etag ->
      UpdateContact s id etag p w = (Failed etagNotMatch, w')
      /\ Forall (fun r => http.mutating r = false) (issued w w'))
  /\ (forall op w',
         getContact s id "thin" "" "could not get a contact from DeleteContact" w
         = (Returned (Some op), w') ->
         ContactKind.etag op <> etag ->
         DeleteContact s id etag w = (Failed etagNotMatch, w')
         /\ Forall (fun r => http.mutating r = false) (issued w w')).
Proof.
  intros Hstar%String.eqb_neq.
  assert (Hget : forall projection errPrefix,
             Forall (fun r => http.mutating r = false)
               (issued w (getContact s id projection "" errPrefix w).2)).
  { intros projection errPrefix.
    destruct (getContact_issued s id projection "" errPrefix w) as [-> | ->];
      [constructor|].
    repeat constructor. }
  split; intros op w' Hop Hne%String.eqb_neq.
  - split.
    + unfold UpdateContact, cbind. rewrite Hop. simpl.
      by rewrite Hne, Hstar.
    + specialize (Hget "full" "UpdateContact error: could not get a contact").
      by rewrite Hop in Hget.
  - split.
    + unfold DeleteContact, cbind. rewrite Hop. simpl.
      by rewrite Hne, Hstar.
    + specialize (Hget "thin" "could not get a contact from DeleteContact").
      by rewrite Hop in Hget.
Qed.

(** When the re-fetched contact carries the supplied version tag, or the
    supplied tag is the wildcard, UpdateContact goes on to one more request:
    a PUT of the encoded contact to the re-fetched edit link, with the
    supplied tag as its If-Match header. *)
Theorem UpdateContact_puts s id etag p w op w' :
  getContact s id "full" "" "UpdateContact error: could not get a contact" w
  = (Returned (Some op), w') ->
  ContactKind.etag op = etag \/ etag = "*" ->
  validURL (ContactKind.editLink op) = true ->
  issued w' (UpdateContact s id etag p w).2
  = [RoundTrip (http.SetHeader "If-Match" etag
                  (http.mkRequest http.MethodPut (ContactKind.editLink op) ∅
                                  (option_map ContactKind.Marshal p)))].
Proof.
  intros Hop Hor Hurl.
  assert (Hc : negb (String.eqb (ContactKind.etag op) etag)
               && negb (String.eqb etag "*") = false).
  { destruct Hor as [<- | ->].
    - by rewrite String.eqb_refl.
    - by rewrite andb_false_r. }
  unfold UpdateContact, cbind at 1. rewrite Hop. cbn [fst snd]. rewrite Hc.
  unfold cbind, try, http.NewRequest. rewrite Hurl. cbn [ret].
  apply issued_app. unfold Do.
  destruct (pending w') as [|[res|e] rest]; cbn [sent snd]; try done.
  destruct (Nat.eqb (http.StatusCode res) http.StatusOK); cbn [negb];
    [|reflexivity].
  destruct (decodeContact (http.RBody res)); reflexivity.
Qed.

End conditional.

(** ** The service: traversal of the feed pages *)

Section traversal.
Context {clk : Clock} {net : Net}.

Import service.

Lemma appendClones_app ret cts :
  appendClones ret cts = ret ++ map ContactKind.Clone cts.
Proof.
  unfold appendClones. revert ret.
  induction cts as [|c cts IH]; intros ret; simpl.
  - by rewrite app_nil_r.
  - rewrite IH. by rewrite <- app_assoc.
Qed.

(** Once one link has been looked at, [req] no longer matters. *)
Lemma scanNext_cons l links req :
  scanNext (l :: links) req
  = match find isNext (l :: links) with
    | Some l' =>
        if validURL (Link.Href l')
        then Some (http.mkRequest http.MethodGet (Link.Href l') ∅ None)
        else None
    | None => None
    end.
Proof.
  revert l req. induction links as [|l2 links IH]; intros l req.
  - simpl. unfold isNext, http.NewRequest.
    destruct (String.eqb _ _); [|done]. by destruct (validURL _).
  - change (scanNext (l :: l2 :: links) req)
      with (if String.eqb (Link.Related l) "next"
            then match http.NewRequest http.MethodGet (Link.Href l) None with
                 | Ok r => Some r
                 | Err _ => None
                 end
            else scanNext (l2 :: links) None).
    rewrite IH. cbn [find]. unfold isNext at 3, http.NewRequest.
    destruct (String.eqb (Link.Related l) "next"); [|done].
    by destruct (validURL _).
Qed.

Lemma scanNext_follows f req :
  f_Links f <> [] -> scanNext (f_Links f) req = follows f.
Proof.
  unfold follows. destruct (f_Links f) as [|l links]; [done|].
  intros _. apply scanNext_cons.
Qed.

(** With no link at all the loop over the links does not run and [req]
    stays the request just answered. *)
Lemma scanNext_nil req : scanNext [] req = req.
Proof. reflexivity. Qed.

(** One turn of the loop starts with [Do req]. *)
Lemma pages_Do answers sent0 req ret0 :
  pages answers sent0 req ret0
  = match Do req (mkWorld answers sent0) with
    | (Returned res, w) =>
        match decodeFeed (http.RBody res) with
        | Err e => (Failed (Wrapf "ListContact error" e), w)
        | Ok f =>
            match scanNext (f_Links f) (Some req) with
            | Some req' =>
                pages (pending w) (sent w) req' (appendClones ret0 (f_Contacts f))
            | None =>
                (Returned (appendClones ret0 (f_Contacts f),
                           mkQueryStatus (f_Updated f) (f_Etag f)), w)
            end
        end
    | (Failed e, w) => (Failed e, w)
    | (Panicked, w) => (Panicked, w)
    | (Waiting, w) => (Waiting, w)
    end.
Proof. destruct answers as [|[res|e] rest]; reflexivity. Qed.

Lemma pages_step res rest sent0 req ret0 f :
  decodeFeed (http.RBody res) = Ok f ->
  pages (Ok res :: rest) sent0 req ret0
  = match scanNext (f_Links f) (Some req) with
    | Some req' =>
        pages rest (sent0 ++ [RoundTrip req]) req'
              (ret0 ++ map ContactKind.Clone (f_Contacts f))
    | None =>
        (Returned (ret0 ++ map ContactKind.Clone (f_Contacts f), status f),
         mkWorld rest (sent0 ++ [RoundTrip req]))
    end.
Proof. intros Hf. cbn [pages]. rewrite Hf. by rewrite appendClones_app. Qed.

(** Pagination over a chain of pages.  [chain] holds the pages that carry a
    usable "next" link, each with the response it came in; [res] and [f]
    are the last page, which has links but no "next" one.  The call
    returns the clones of all contacts in page order, with the last page's
    status; it has sent the first request and then one GET per "next" link;
    the answers after the last page are left alone. *)
Lemma pages_chain chain res f rest : forall sent0 req ret0,
  Forall (fun rf => decodeFeed (http.RBody rf.1) = Ok rf.2
                    /\ is_Some (follows rf.2)) chain ->
  decodeFeed (http.RBody res) = Ok f ->
  f_Links f <> [] ->
  follows f = None ->
  pages (map Ok (chain.*1 ++ [res]) ++ rest) sent0 req ret0
  = (Returned (ret0 ++ map ContactKind.Clone
                        (flat_map f_Contacts (chain.*2 ++ [f])),
               status f),
     mkWorld rest (sent0 ++ RoundTrip req
                     :: map RoundTrip (omap follows chain.*2))).
Proof.
  induction chain as [|[r1 f1] chain IH]; intros sent0 req ret0 Hc Hf Hl Hn.
  - change (map Ok ([].*1 ++ [res]) ++ rest) with (Ok res :: rest).
    rewrite (pages_step _ _ _ _ _ _ Hf), scanNext_follows, Hn by done.
    simpl. by rewrite app_nil_r.
  - apply Forall_cons in Hc as [[Hf1 [rq Hrq]] Hc]. simpl in Hf1, Hrq.
    change (map Ok (((r1, f1) :: chain).*1 ++ [res]) ++ rest)
      with (Ok r1 :: (map Ok (chain.*1 ++ [res]) ++ rest)).
    rewrite (pages_step _ _ _ _ _ _ Hf1).
    assert (Hl1 : f_Links f1 <> []).
    { intros Hnil. unfold follows in Hrq. by rewrite Hnil in Hrq. }
    rewrite scanNext_follows, Hrq by done.
    rewrite (IH _ _ _ Hc Hf Hl Hn).
    rewrite fmap_cons. cbn [snd app flat_map omap list_omap]. rewrite Hrq.
    cbn [map]. by rewrite map_app, <- !app_assoc.
Qed.

(** A page without any link is asked for again: while the transport keeps
    answering with it, the same request goes out, and the call never gets
    to return. *)
Lemma pages_no_links res f n : forall sent0 req ret0,
  decodeFeed (http.RBody res) = Ok f ->
  f_Links f = [] ->
  pages (replicate n (Ok res)) sent0 req ret0
  = (Waiting, mkWorld [] (sent0 ++ replicate (S n) (RoundTrip req))).
Proof.
  induction n as [|n IH]; intros sent0 req ret0 Hf Hl; [done|].
  cbn [replicate]. rewrite (pages_step _ _ _ _ _ _ Hf), Hl, scanNext_nil.
  rewrite IH by done. by rewrite <- app_assoc.
Qed.

Lemma ListContacts_unfold s projection etag queries w :
  validURL (listURL s projection queries) = true ->
  ListContacts s projection etag queries w
  = pages (pending w) (sent w) (listRequest s projection etag queries) [].
Proof.
  intros Hurl. unfold ListContacts, cbind, try, http.NewRequest, listRequest.
  fold (listURL s projection queries). by rewrite Hurl.
Qed.

End traversal.

Section traversal_chain.
Context {clk : Clock} {net : Net}.

Import service.

(** Pagination.  The transport answers with a chain of pages: every page of
    [chain] has a "next" link that is a usable URL, and the last page [f] has
    links but no "next" one.  ListContacts then returns the clones of all
    contacts of all pages, in page order and in the order of each page, with
    the last page's updated time and version tag as status.  It has sent its
    first request and, for every page of [chain], a GET of the page's first
    "next" link as it stands; it has taken one answer per page. *)
Theorem ListContacts_chain s projection etag queries w chain res f rest :
  validURL (listURL s projection queries) = true ->
  pending w = map Ok (chain.*1 ++ [res]) ++ rest ->
  Forall (fun rf => decodeFeed (http.RBody rf.1) = Ok rf.2
                    /\ is_Some (follows rf.2)) chain ->
  decodeFeed (http.RBody res) = Ok f ->
  f_Links f <> [] ->
  follows f = None ->
  ListContacts s projection etag queries w
  = (Returned (map ContactKind.Clone (flat_map f_Contacts (chain.*2 ++ [f])),
               status f),
     mkWorld rest (sent w ++ RoundTrip (listRequest s projection etag queries)
                     :: map RoundTrip (omap follows chain.*2))).
Proof.
  intros Hurl Hp Hc Hf Hl Hn.
  rewrite ListContacts_unfold, Hp by done.
  by rewrite (pages_chain _ _ _ _ _ _ _ Hc Hf Hl Hn).
Qed.

End traversal_chain.

(** ** The service on a small directory *)

Section service_examples.

Import service.

Lemma pages_decode :
  decodeFeed (clk := example.clock) (Some page1) = Ok feed1
  /\ decodeFeed (clk := example.clock) (Some page2) = Ok feed2
  /\ decodeFeed (clk := example.clock) (Some page3) = Ok feed3.
Proof. repeat split; vm_compute; reflexivity. Qed.

(** C2, on three pages of one contact each, the first two with a "next"
    link and the last with a "self" link only.  The call returns, with the
    last page's status, but the contacts it returns are not the contacts of
    the pages: each is a clone, with a zero e-mail address in front of the
    one the page has. *)
Theorem ListContacts_three_pages :
  let cts := [contactOf "a1" "ann@example.org"; contactOf "b1" "bob@example.org";
              contactOf "c1" "cat@example.org"] in
  flat_map f_Contacts [feed1; feed2; feed3] = cts
  /\ (ListContacts (clk := example.clock) (net := example.net) svc "" "" [] threePages).1
     = Returned (map ContactKind.Clone cts,
                 mkQueryStatus (clk := example.clock)
                               ("2023-08-18T11:00:00Z" : string) "p3")
  /\ map (fun c => length (ContactKind.Email c)) (map ContactKind.Clone cts) = [2; 2; 2]
  /\ map ContactKind.Clone cts <> cts.
Proof.
  intros cts. split; [reflexivity|].
  split; [vm_compute; reflexivity|].
  split; [vm_compute; reflexivity|].
  intros Heq. apply (f_equal (map (fun c => length (ContactKind.Email c)))) in Heq.
  vm_compute in Heq. discriminate Heq.
Qed.

Lemma ListContacts_chain_witness :
  ListContacts (clk := example.clock) (net := example.net) svc "" "" [] threePages
  = (Returned (map ContactKind.Clone (flat_map f_Contacts [feed1; feed2; feed3]),
               status feed3),
     mkWorld []
       (map RoundTrip
          [ http.mkRequest http.MethodGet
              "https://www.google.com/m8/feeds/contacts/example.com/full" ∅ None;
            http.mkRequest http.MethodGet "https://example.com/feed?start-index=2" ∅ None;
            http.mkRequest http.MethodGet "https://example.com/feed?start-index=3" ∅ None ])).
Proof.
  destruct pages_decode as (H1 & H2 & H3).
  apply (ListContacts_chain (clk := example.clock) (net := example.net)
           svc "" "" [] threePages
           [(http.mkResponse 200 "200 OK" (Some page1), feed1);
            (http.mkResponse 200 "200 OK" (Some page2), feed2)]
           (http.mkResponse 200 "200 OK" (Some page3)) feed3 []).
  - reflexivity.
  - reflexivity.
  - repeat constructor; simpl; try assumption; by eexists.
  - exact H3.
  - discriminate.
  - reflexivity.
Defined.

(** C6, on a page whose link collection is empty.  However many times the
    transport answers with the page, the call has not returned: it has sent
    its first request once more than it was answered, and waits. *)
Theorem ListContacts_asks_again n :
  ListContacts (clk := example.clock) (net := example.net) svc "" "" []
               (mkWorld (replicate n (ok lonePage)) [])
  = (Waiting,
     mkWorld []
       (replicate (S n)
          (RoundTrip (http.mkRequest http.MethodGet
                        "https://www.google.com/m8/feeds/contacts/example.com/full"
                        ∅ None)))).
Proof.
  rewrite ListContacts_unfold by reflexivity.
  cbn [pending sent].
  rewrite (pages_no_links (clk := example.clock) (net := example.net)
             (http.mkResponse 200 "200 OK" (Some lonePage))
             (feedOf "p1" "2023-08-18T09:00:00Z" [] [contactOf "a1" "ann@example.org"]));
    [reflexivity| |reflexivity].
  vm_compute. reflexivity.
Qed.

End service_examples.

Section conditional_examples.

Import service.

Lemma refetch projection errPrefix :
  getContact (clk := example.clock) (net := example.net)
             svc "42" projection "" errPrefix oneContact
  = (Returned (Some (contactOf "v2" "ann@example.org")), fetched projection).
Proof.
  rewrite getContact_unfold.
  destruct projection; vm_compute; reflexivity.
Qed.

Lemma version_mismatch_witness :
  "v1" <> "*"
  /\ ContactKind.etag (contactOf "v2" "ann@example.org") <> "v1"
  /\ UpdateContact (clk := example.clock) (net := example.net)
       svc "42" "v1" (Some (contactOf "v1" "ann@example.com")) oneContact
     = (Failed etagNotMatch, fetched "full")
  /\ DeleteContact (clk := example.clock) (net := example.net) svc "42" "v1" oneContact
     = (Failed etagNotMatch, fetched "thin")
  /\ Forall (fun r => http.mutating r = false) (issued oneContact (fetched "full"))
  /\ Forall (fun r => http.mutating r = false) (issued oneContact (fetched "thin")).
Proof.
  assert (Hstar : "v1" <> "*") by discriminate.
  assert (Hne : ContactKind.etag (contactOf "v2" "ann@example.org") <> "v1")
    by discriminate.
  pose proof (version_mismatch (clk := example.clock) (net := example.net)
                svc "42" "v1" (Some (contactOf "v1" "ann@example.com"))
                oneContact Hstar) as [Hu Hd].
  destruct (Hu _ _ (refetch "full" _) Hne) as [Hu1 Hu2].
  destruct (Hd _ _ (refetch "thin" _) Hne) as [Hd1 Hd2].
  repeat split; assumption.
Defined.

Lemma GetContact_conditional_witness :
  validURL (Net := example.net) (contactURL svc "42" "") = true
  /\ (GetContact (clk := example.clock) (net := example.net)
        svc "42" "" "v2" unchanged).1 = Returned None
  /\ exists req,
       sent (GetContact (clk := example.clock) (net := example.net)
               svc "42" "" "v2" unchanged).2 = [req]
       /\ http.Header req !! "If-None-Match" = Some "v2".
Proof.
  assert (Hurl : validURL (Net := example.net) (contactURL svc "42" "") = true)
    by reflexivity.
  destruct (GetContact_conditional (clk := example.clock) (net := example.net)
              svc "42" "" "v2" unchanged Hurl) as [(req & Hs & _ & _ & Hh) H304].
  split; [exact Hurl|].
  split; [exact (H304 _ _ eq_refl eq_refl)|].
  exists req. split; [exact Hs | exact Hh].
Defined.

Lemma UpdateContact_puts_witness :
  issued (fetched "full")
         (UpdateContact (clk := example.clock) (net := example.net)
            svc "42" "v2" (Some (contactOf "v2" "ann@example.com")) oneContact).2
  = [RoundTrip
       (http.SetHeader "If-Match" "v2"
          (http.mkRequest http.MethodPut
             "https://www.google.com/m8/feeds/contacts/example.com/full/42" ∅
             (Some (ContactKind.Marshal (contactOf "v2" "ann@example.com")))))].
Proof.
  apply (UpdateContact_puts (clk := example.clock) (net := example.net)
           svc "42" "v2" (Some (contactOf "v2" "ann@example.com")) oneContact
           (contactOf "v2" "ann@example.org") (fetched "full")).
  - apply refetch.
  - left. reflexivity.
  - reflexivity.
Defined.

End conditional_examples.

(** ** TrimSpace is a normal form *)

Section trim.

Import strings.

Variable seqs : list (list ascii).
Hypothesis nonempty : Forall (fun p => p <> []) seqs.

Lemma cut_Some p s r : cut p s = Some r <-> s = p ++ r.
Proof.
  revert s. induction p as [|a p IH]; intros s; simpl.
  - split; [by intros [= ->] | by intros ->].
  - destruct s as [|c s]; [split; discriminate|].
    destruct (Ascii.eqb a c) eqn:Hac.
    + apply Ascii.eqb_eq in Hac as ->. rewrite IH.
      split; [by intros -> | by intros [= ->]].
    + apply Ascii.eqb_neq in Hac. split; [discriminate | by intros [= -> ->]].
Qed.

Lemma cut_any_Some s r :
  cut_any seqs s = Some r -> exists p, p ∈ seqs /\ s = p ++ r.
Proof.
  clear nonempty. induction seqs as [|p l IH]; simpl; [discriminate|].
  destruct (cut p s) as [r'|] eqn:Hc.
  - intros [= ->]. exists p. split; [left | by apply cut_Some].
  - intros (q & Hq & ->)%IH. exists q. split; [by right | done].
Qed.

Lemma cut_any_None s :
  cut_any seqs s = None <-> forall p, p ∈ seqs -> cut p s = None.
Proof.
  clear nonempty. induction seqs as [|p l IH]; simpl.
  - split; [intros _ q Hq; inversion Hq | done].
  - destruct (cut p s) as [r|] eqn:Hc.
    + split; [discriminate|]. intros Hall.
      rewrite (Hall p) in Hc; [discriminate | left].
    + rewrite IH. split.
      * intros Hall q Hq. inversion Hq; subst; [done | by apply Hall].
      * intros Hall q Hq. apply Hall. by right.
Qed.

(** Nothing more to drop: dropping does nothing. *)
Lemma drop_seqs_id n s : cut_any seqs s = None -> drop_seqs seqs n s = s.
Proof. destruct n; simpl; [done|]. by intros ->. Qed.

(** With fuel for every byte, what is left starts with no member. *)
Lemma drop_seqs_done n : forall s,
  length s <= n -> cut_any seqs (drop_seqs seqs n s) = None.
Proof.
  induction n as [|n IH]; intros s Hlen; simpl.
  - destruct s; [|simpl in Hlen; lia].
    apply cut_any_None. intros p Hp. destruct p as [|a p]; [|done].
    rewrite Forall_forall in nonempty. by destruct (nonempty _ Hp).
  - destruct (cut_any seqs s) as [r|] eqn:Hc; [|done].
    apply IH. apply cut_any_Some in Hc as (p & Hp & ->).
    rewrite Forall_forall in nonempty. specialize (nonempty _ Hp).
    rewrite length_app in Hlen. destruct p; [done|]. simpl in Hlen. lia.
Qed.

(** What is left is the end of what was given. *)
Lemma drop_seqs_suffix n : forall s, exists p, s = p ++ drop_seqs seqs n s.
Proof.
  clear nonempty. induction n as [|n IH]; intros s; simpl.
  - by exists [].
  - destruct (cut_any seqs s) as [r|] eqn:Hc; [|by exists []].
    apply cut_any_Some in Hc as (p & _ & ->).
    destruct (IH r) as [q Hq]. exists (p ++ q).
    by rewrite <- app_assoc, <- Hq.
Qed.

(** A beginning of a text that starts with no member starts with none. *)
Lemma cut_any_None_prefix u q :
  cut_any seqs (u ++ q) = None -> cut_any seqs u = None.
Proof.
  clear nonempty. rewrite !cut_any_None. intros Hall p Hp.
  destruct (cut p u) as [r|] eqn:Hc; [|done].
  apply cut_Some in Hc as ->.
  specialize (Hall p Hp). rewrite <- app_assoc in Hall.
  assert (Hs : cut p (p ++ r ++ q) = Some (r ++ q)) by by apply cut_Some.
  by rewrite Hs in Hall.
Qed.

End trim.

Section trim_space.

Import strings.

Lemma spaces_nonempty : Forall (fun p : list ascii => p <> []) spaces.
Proof. repeat constructor; discriminate. Qed.

Lemma rspaces_nonempty :
  Forall (fun p : list ascii => p <> []) (map (@rev ascii) spaces).
Proof. repeat constructor; discriminate. Qed.

Lemma trim_left_done s : cut_any spaces (trim_left s) = None.
Proof. apply drop_seqs_done; [apply spaces_nonempty | done]. Qed.

Lemma trim_right_done s :
  cut_any (map (@rev ascii) spaces) (rev (trim_right s)) = None.
Proof.
  unfold trim_right. rewrite rev_involutive.
  apply drop_seqs_done; [apply rspaces_nonempty | by rewrite length_rev].
Qed.

Lemma trim_right_prefix s : exists q, s = trim_right s ++ q.
Proof.
  unfold trim_right.
  destruct (drop_seqs_suffix (map (@rev ascii) spaces) (length s) (rev s)) as [p Hp].
  exists (rev p). rewrite <- rev_app_distr, <- Hp. by rewrite rev_involutive.
Qed.

Lemma trim_left_id s : cut_any spaces s = None -> trim_left s = s.
Proof. apply drop_seqs_id. Qed.

Lemma trim_right_id s :
  cut_any (map (@rev ascii) spaces) (rev s) = None -> trim_right s = s.
Proof.
  intros Hn. unfold trim_right. rewrite drop_seqs_id by done.
  apply rev_involutive.
Qed.

(** strings.TrimSpace applied twice is strings.TrimSpace. *)
Lemma TrimSpace_idemp s : TrimSpace (TrimSpace s) = TrimSpace s.
Proof.
  unfold TrimSpace. rewrite list_ascii_of_string_of_list_ascii.
  set (t := trim_left (list_ascii_of_string s)).
  assert (Hl : cut_any spaces (trim_right t) = None).
  { destruct (trim_right_prefix t) as [q Hq].
    apply (cut_any_None_prefix _ _ q). rewrite <- Hq. apply trim_left_done. }
  rewrite (trim_left_id _ Hl).
  by rewrite (trim_right_id _ (trim_right_done t)).
Qed.

Lemma TrimSpace_empty : TrimSpace "" = "".
Proof. reflexivity. Qed.

End trim_space.

(** ** What the encoder writes and what the decoder reads back *)

Section xml_facts.

Import xml.

Lemma attrIn_app name l1 l2 : attrIn name (l1 ++ l2) = attrIn name l1 || attrIn name l2.
Proof. apply existsb_app. Qed.

Lemma attrIn_attr name k v : attrIn name (attr k v) = String.eqb name k.
Proof. unfold attrIn, attr. simpl. apply orb_false_r. Qed.

Lemma attrIn_attrOmitempty name k v :
  attrIn name (attrOmitempty k v) = String.eqb name k && negb (is_empty v).
Proof.
  unfold attrOmitempty. destruct (is_empty v); cbn [negb].
  - by rewrite andb_false_r.
  - by rewrite attrIn_attr, andb_true_r.
Qed.

Lemma attrIn_boolAttrOmitempty name k v :
  attrIn name (boolAttrOmitempty k v) = String.eqb name k && v.
Proof.
  unfold boolAttrOmitempty. destruct v.
  - by rewrite attrIn_attr, andb_true_r.
  - by rewrite andb_false_r.
Qed.

Lemma childIn_app name l1 l2 :
  childIn name (l1 ++ l2) = childIn name l1 || childIn name l2.
Proof. apply existsb_app. Qed.

Lemma childIn_elem name k v : childIn name (elem k v) = String.eqb name k.
Proof. unfold childIn, elem. simpl. apply orb_false_r. Qed.

Lemma childIn_elemOmitempty name k v :
  childIn name (elemOmitempty k v) = String.eqb name k && negb (is_empty v).
Proof.
  unfold elemOmitempty. destruct (is_empty v); cbn [negb].
  - by rewrite andb_false_r.
  - by rewrite childIn_elem, andb_true_r.
Qed.

(** The children written for a slice field are there when the slice is not
    empty. *)
Lemma childIn_map {T} name (f : T -> Node) (l : list T) :
  (forall v, hasChild name (Element (mkName "" "") [] [f v]) = true) ->
  childIn name (map f l) = negb (bool_decide (l = [])).
Proof.
  intros Hf. destruct l as [|v l]; [done|].
  simpl. specialize (Hf v). simpl in Hf. rewrite orb_false_r in Hf.
  by rewrite Hf.
Qed.

Lemma childIn_map_other {T} name (f : T -> Node) (l : list T) :
  (forall v, hasChild name (Element (mkName "" "") [] [f v]) = false) ->
  childIn name (map f l) = false.
Proof.
  intros Hf. induction l as [|v l IH]; [done|].
  simpl. specialize (Hf v). simpl in Hf. rewrite orb_false_r in Hf.
  by rewrite Hf.
Qed.

Lemma if_empty_id v : (if is_empty v then "" else v) = v.
Proof. by destruct v. Qed.

Lemma append_empty_r s : s +:+ "" = s.
Proof.
  induction s as [|a s IH]; [done|].
  change (String a (s +:+ "") = String a s). by rewrite IH.
Qed.

Lemma charData_text v : charData (text v) = v.
Proof.
  unfold text. destruct v; [done|]. cbn [is_empty charData].
  apply append_empty_r.
Qed.

(** *** Text through the Encoder and back *)

Lemma DecodeRune_width a l :
  1 <= (utf8.DecodeRune (a :: l)).2.
Proof. unfold utf8.DecodeRune. repeat case_match; simpl; lia. Qed.

Lemma escapeText_cons n a l : escapeText (S n) (a :: l) <> [].
Proof.
  cbn [escapeText].
  pose proof (DecodeRune_width a l) as Hw.
  destruct (utf8.DecodeRune (a :: l)) as [r w]. cbn [snd] in Hw.
  destruct (negb _ || _); [done|].
  destruct w as [|w]; [lia|]. done.
Qed.

Lemma wireText_empty : wireText "" = "".
Proof. reflexivity. Qed.

Lemma is_empty_wireText v : is_empty (wireText v) = is_empty v.
Proof.
  destruct v as [|a v]; [done|].
  unfold wireText. cbn [list_ascii_of_string length is_empty].
  destruct (escapeText _ _) eqn:He; [|done].
  by apply escapeText_cons in He.
Qed.

Lemma wireText_true : wireText "true" = "true".
Proof. reflexivity. Qed.

Lemma reparse_text ns v : map (reparse ns) (text v) = text (wireText v).
Proof.
  unfold text. rewrite is_empty_wireText. by destruct (is_empty v).
Qed.

Lemma wireAttr_app l1 l2 :
  map wireAttr (l1 ++ l2) = map wireAttr l1 ++ map wireAttr l2.
Proof. apply map_app. Qed.

Lemma wireAttr_attr k v : map wireAttr (attr k v) = attr k (wireText v).
Proof. reflexivity. Qed.

Lemma wireAttr_attrOmitempty k v :
  map wireAttr (attrOmitempty k v) = attrOmitempty k (wireText v).
Proof.
  unfold attrOmitempty. rewrite is_empty_wireText. by destruct (is_empty v).
Qed.

Lemma wireAttr_boolAttrOmitempty k v :
  map wireAttr (boolAttrOmitempty k v) = boolAttrOmitempty k v.
Proof. by destruct v. Qed.

(** *** Reading attributes back *)

Lemma matches_plain k k' : matches "" k (mkName "" k') = String.eqb k k'.
Proof. reflexivity. Qed.

Lemma attrString_app k l1 l2 init :
  attrString k (l1 ++ l2) init = attrString k l2 (attrString k l1 init).
Proof. apply fold_left_app. Qed.

Lemma attrString_attr k k' v init :
  attrString k (attr k' v) init = if String.eqb k k' then v else init.
Proof. reflexivity. Qed.

Lemma attrString_attrOmitempty k k' v init :
  attrString k (attrOmitempty k' v) init
  = if String.eqb k k' && negb (is_empty v) then v else init.
Proof.
  unfold attrOmitempty. destruct (is_empty v); cbn [negb].
  - by rewrite andb_false_r.
  - by rewrite attrString_attr, andb_true_r.
Qed.

Lemma attrString_boolAttrOmitempty k k' v init :
  attrString k (boolAttrOmitempty k' v) init
  = if String.eqb k k' && v then "true" else init.
Proof.
  unfold boolAttrOmitempty. destruct v.
  - by rewrite attrString_attr, andb_true_r.
  - by rewrite andb_false_r.
Qed.

Lemma attrBool_app k l1 : forall l2 acc,
  attrBool k (l1 ++ l2) acc = bind (attrBool k l1 acc) (attrBool k l2).
Proof.
  induction l1 as [|a l1 IH]; intros l2 acc; simpl; [done|].
  destruct (matches "" k (AName a)); [|apply IH].
  destruct (copyBool (Value a)); simpl; [apply IH | done].
Qed.

Lemma attrBool_attr k k' v acc :
  attrBool k (attr k' v) acc = if String.eqb k k' then copyBool v else Ok acc.
Proof.
  unfold attr. simpl. rewrite matches_plain.
  destruct (String.eqb k k'); [|done]. by destruct (copyBool v).
Qed.

Lemma attrBool_attrOmitempty k k' v acc :
  attrBool k (attrOmitempty k' v) acc
  = if String.eqb k k' && negb (is_empty v) then copyBool v else Ok acc.
Proof.
  unfold attrOmitempty. destruct (is_empty v); cbn [negb].
  - by rewrite andb_false_r.
  - by rewrite attrBool_attr, andb_true_r.
Qed.

Lemma attrBool_boolAttrOmitempty k k' v acc :
  attrBool k (boolAttrOmitempty k' v) acc
  = if String.eqb k k' && v then Ok true else Ok acc.
Proof.
  unfold boolAttrOmitempty. destruct v.
  - rewrite attrBool_attr, andb_true_r. by destruct (String.eqb k k').
  - by rewrite andb_false_r.
Qed.

(** *** Attributes that declare no name space come back as written *)

Lemma plainAttr_attr k v : plain k = true -> Forall plainAttr (attr k v).
Proof. intros Hk. by repeat constructor. Qed.

Lemma plainAttr_attrOmitempty k v :
  plain k = true -> Forall plainAttr (attrOmitempty k v).
Proof.
  intros Hk. unfold attrOmitempty.
  destruct (is_empty v); [constructor | by apply plainAttr_attr].
Qed.

Lemma plainAttr_boolAttrOmitempty k v :
  plain k = true -> Forall plainAttr (boolAttrOmitempty k v).
Proof.
  intros Hk. unfold boolAttrOmitempty.
  destruct v; [by apply plainAttr_attr | constructor].
Qed.

Lemma reparse_plain ns nm attrs body :
  Forall plainAttr attrs ->
  reparse ns (Element nm attrs body)
  = Element (translate ns true (nsname (Local nm))) (map wireAttr attrs)
            (map (reparse ns) body).
Proof.
  intros Hp. cbn [reparse].
  assert (Hnamed : map (fun a => mkAttr (nsname (Local (AName a)))
                                        (wireText (Value a))) attrs
                   = map wireAttr attrs).
  { induction Hp as [|[[sp lc] v] l [Hs Hk] _ IH]; [done|].
    simpl in *. subst sp. rewrite IH. f_equal.
    unfold wireAttr. cbn [AName Value]. f_equal.
    unfold plain in Hk. unfold nsname.
    by destruct (cutColon lc). }
  rewrite Hnamed.
  assert (Hns : forall ns0, fold_left pushNs (map wireAttr attrs) ns0 = ns0).
  { clear Hnamed. induction Hp as [|[[sp lc] v] l [Hs Hk] _ IH]; intros ns0; [done|].
    simpl in *. subst sp. rewrite <- (IH ns0) at 2. f_equal.
    unfold pushNs. simpl. unfold plain in Hk.
    destruct (cutColon lc); [done|].
    by destruct (String.eqb lc "xmlns"). }
  rewrite Hns. f_equal.
  clear Hnamed Hns. induction Hp as [|[[sp lc] v] l [Hs Hk] _ IH]; [done|].
  simpl in *. subst sp. by rewrite IH.
Qed.

Lemma translate_Local ns b n : Local (translate ns b n) = Local n.
Proof. unfold translate. repeat case_match; done. Qed.

(** *** Reading child elements back *)

Lemma childString_app k l1 l2 init :
  childString k (l1 ++ l2) init = childString k l2 (childString k l1 init).
Proof. apply fold_left_app. Qed.

Lemma childString_elemOmitempty ns k tag v init :
  childString k (map (reparse ns) (elemOmitempty tag v)) init
  = if String.eqb k (Local (nsname tag)) && negb (is_empty v)
    then wireText v else init.
Proof.
  unfold elemOmitempty. destruct (is_empty v) eqn:Hv; cbn [negb].
  - by rewrite andb_false_r.
  - unfold elem. cbn [map]. rewrite reparse_plain by constructor.
    unfold childString. cbn [fold_left]. unfold matches.
    rewrite translate_Local. cbn [is_empty orb andb].
    by rewrite reparse_text, charData_text, andb_true_r.
Qed.

Lemma if_nonempty_id v : (if negb (is_empty v) then v else "") = v.
Proof. by destruct v. Qed.

Lemma if_nonempty_wireText v :
  (if negb (is_empty v) then wireText v else "") = wireText v.
Proof. by destruct v. Qed.

End xml_facts.

Section wire_trim.

Import strings xml.

(** *** White space around a text and the Encoder's replacement

    The Encoder writes a text rune by rune; what it writes starts and ends
    with white space only where the text does, so a trimmed text is still
    trimmed when it is read back. *)

Lemma within_range lo hi a :
  utf8.within lo hi a = true <-> (lo <= utf8.byte a <= hi)%N.
Proof. unfold utf8.within. rewrite andb_true_iff, !N.leb_le. done. Qed.

Lemma isRune_3 b0 b1 b2 lo hi :
  (128 <= lo)%N -> (hi <= 191)%N ->
  utf8.within 224 239 b0 = true ->
  utf8.within lo hi b1 && utf8.within 128 191 b2 = true ->
  isRune [b0; b1; b2] = true.
Proof.
  intros Hlo Hhi H0 [H1 H2]%andb_true_iff. cbn [isRune].
  rewrite H0, H2, andb_true_r. cbn [andb].
  apply within_range in H1. apply within_range. lia.
Qed.

Lemma isRune_4 b0 b1 b2 b3 lo hi :
  (128 <= lo)%N -> (hi <= 191)%N ->
  utf8.within 240 244 b0 = true ->
  utf8.within lo hi b1 && utf8.within 128 191 b2 && utf8.within 128 191 b3 = true ->
  isRune [b0; b1; b2; b3] = true.
Proof.
  intros Hlo Hhi H0 [[H1 H2]%andb_true_iff H3]%andb_true_iff. cbn [isRune].
  rewrite H0, H2, H3, !andb_true_r. cbn [andb].
  apply within_range in H1. apply within_range. lia.
Qed.

Lemma bad_RuneError :
  negb (isInCharacterRange utf8.RuneError)
  || ((utf8.RuneError =? utf8.RuneError)%N && Nat.eqb 1 1) = true.
Proof. reflexivity. Qed.

(** One turn of the loop: the bytes [c] of one rune, or one byte that is no
    rune, are consumed and written as they are or as U+FFFD. *)
Lemma escapeText_chunk n b0 rest :
  exists c t' chunk,
    b0 :: rest = c ++ t' /\ c <> []
    /\ escapeText (S n) (b0 :: rest) = chunk ++ escapeText n t'
    /\ (chunk = escFFFD \/ (chunk = c /\ isRune c = true)).
Proof.
  cbn [escapeText].
  destruct (utf8.DecodeRune (b0 :: rest)) as [r w] eqn:Hd.
  exists (take w (b0 :: rest)), (drop w (b0 :: rest)).
  eexists. split; [by rewrite take_drop|].
  pose proof (DecodeRune_width b0 rest) as Hw. rewrite Hd in Hw. cbn [snd] in Hw.
  split; [destruct w; [lia|done]|].
  split; [reflexivity|].
  destruct (negb _ || _) eqn:Hbad; [by left|]. right. split; [done|].
  revert Hd. unfold utf8.DecodeRune.
  destruct (utf8.byte b0 <? 128)%N eqn:H1.
  { intros [= <- <-]. cbn [take isRune]. exact H1. }
  destruct (utf8.within 194 223 b0) eqn:H2.
  { destruct rest as [|b1 rest].
    - intros [= <- <-]. by rewrite bad_RuneError in Hbad.
    - destruct (utf8.within 128 191 b1) eqn:H21.
      + intros [= <- <-]. cbn [take isRune]. by rewrite H2, H21.
      + intros [= <- <-]. by rewrite bad_RuneError in Hbad. }
  destruct (utf8.within 224 239 b0) eqn:H3.
  { destruct rest as [|b1 [|b2 rest]];
      try (intros [= <- <-]; by rewrite bad_RuneError in Hbad).
    destruct (utf8.within _ _ b1 && utf8.within 128 191 b2) eqn:H31.
    - intros [= <- <-]. cbn [take].
      refine (isRune_3 _ _ _ _ _ _ _ H3 H31); repeat case_match; lia.
    - intros [= <- <-]. by rewrite bad_RuneError in Hbad. }
  destruct (utf8.within 240 244 b0) eqn:H4.
  { destruct rest as [|b1 [|b2 [|b3 rest]]];
      try (intros [= <- <-]; by rewrite bad_RuneError in Hbad).
    destruct (utf8.within _ _ b1 && utf8.within 128 191 b2 && utf8.within 128 191 b3)
      eqn:H41.
    - intros [= <- <-]. cbn [take].
      refine (isRune_4 _ _ _ _ _ _ _ _ H4 H41); repeat case_match; lia.
    - intros [= <- <-]. by rewrite bad_RuneError in Hbad. }
  intros [= <- <-]. by rewrite bad_RuneError in Hbad.
Qed.

Lemma escapeText_nil n : escapeText n [] = [].
Proof. by destruct n. Qed.

(** The head of what is written is no continuation byte. *)
Lemma isRune_head a c : isRune (a :: c) = true -> utf8.within 128 191 a = false.
Proof.
  intros Hr.
  assert (Ha : (utf8.byte a < 128)%N \/ (194 <= utf8.byte a)%N).
  { destruct c as [|a1 [|a2 [|a3 [|]]]]; cbn [isRune] in Hr; try done.
    - left. by apply N.ltb_lt.
    - right. apply andb_true_iff in Hr as [H0%within_range _]. lia.
    - right. apply andb_true_iff in Hr as [[H0%within_range _]%andb_true_iff _]. lia.
    - right.
      apply andb_true_iff in Hr
        as [[[H0%within_range _]%andb_true_iff _]%andb_true_iff _]. lia. }
  destruct (utf8.within 128 191 a) eqn:Hw; [|done].
  apply within_range in Hw. lia.
Qed.

Lemma escapeText_head n b0 rest e0 E :
  escapeText (S n) (b0 :: rest) = e0 :: E -> utf8.within 128 191 e0 = false.
Proof.
  destruct (escapeText_chunk n b0 rest) as (c & t' & chunk & Ht & Hc & -> & Hk).
  destruct Hk as [-> | [-> Hr]].
  - by intros [= <- _].
  - destruct c as [|a c]; [done|]. intros [= <- _]. by apply (isRune_head _ c).
Qed.

Ltac each_space tac :=
  unfold spaces;
  repeat first [apply List.Forall_nil | apply List.Forall_cons; [tac|]].

(** Split an equation between lists byte by byte. *)
Ltac peel :=
  repeat match goal with
    | H : _ :: _ = _ :: _ |- _ => injection H as ? H
    | H : [] = _ :: _ |- _ => discriminate H
    | H : _ :: _ = [] |- _ => discriminate H
    end.

Ltac absurd_byte :=
  match goal with
  | H : @eq ascii _ _ |- _ => vm_compute in H; discriminate H
  | H : @eq bool _ _ |- _ => vm_compute in H; discriminate H
  end.

(** What is written starts with white space only when the text does. *)
Lemma escapeText_prefix :
  Forall (fun p => forall n t r, escapeText n t = p ++ r -> exists r', t = p ++ r')
         spaces.
Proof.
  each_space ltac:(
    intros n t r He;
    destruct t as [|b0 rest]; [by rewrite escapeText_nil in He|];
    destruct n as [|n]; [done|];
    destruct (escapeText_chunk n b0 rest) as (c & t' & chunk & Ht & Hc & Hs & Hk);
    rewrite Hs in He; rewrite Ht; clear Hs Ht;
    destruct Hk as [-> | [-> Hr]];
    [ cbn [escFFFD app] in He; injection He as He0 _; by vm_compute in He0 |];
    destruct c as [|a0 [|a1 [|a2 [|a3 [|]]]]]; try done;
    cbn [app] in He; peel; subst;
    first [ by vm_compute in Hr | by eexists ]).
Qed.

Lemma chunk_length (b0 : ascii) rest c t' :
  b0 :: rest = c ++ t' -> c <> [] -> length t' <= length rest.
Proof.
  intros Ht Hc. apply (f_equal length) in Ht.
  rewrite length_app in Ht. destruct c; [done|]. simpl in Ht. lia.
Qed.

Lemma escapeText_cons_head m b' rest' :
  exists e0 E, escapeText (S m) (b' :: rest') = e0 :: E
               /\ utf8.within 128 191 e0 = false.
Proof.
  destruct (escapeText (S m) (b' :: rest')) as [|e0 E] eqn:HE.
  - by apply escapeText_cons in HE.
  - exists e0, E. split; [done|]. by apply escapeText_head in HE.
Qed.

(** What is written ends with white space only when the text does. *)
Lemma escapeText_suffix :
  Forall (fun p => forall n t q,
            length t <= n -> escapeText n t = q ++ p -> exists q', t = q' ++ p)
         spaces.
Proof.
  each_space ltac:(
    intros n; induction n as [|n IH]; intros t q Hlen He;
    [ destruct t; [|simpl in Hlen; lia]; by destruct q |];
    destruct t as [|b0 rest]; [by destruct q|];
    destruct (escapeText_chunk n b0 rest) as (c & t' & chunk & Ht & Hc & Hs & Hk);
    rewrite Hs in He; clear Hs;
    pose proof (chunk_length _ _ _ _ Ht Hc) as Hlen'; simpl in Hlen;
    apply app_eq_inv in He as [(k & Hck & Hp) | (k & Hq & HE)];
    [ | destruct (IH t' k ltac:(lia) HE) as [q' ->];
        exists (c ++ q'); by rewrite Ht, app_assoc ];
    destruct t' as [|b' rest'];
    [ rewrite escapeText_nil, app_nil_r in Hp; subst k;
      rewrite app_nil_r in Ht; rewrite Ht;
      destruct Hk as [-> | [-> Hr]]; [|by exists q];
      destruct q as [|q0 [|q1 [|q2 q]]];
      unfold escFFFD in Hck; cbn [app] in Hck; peel;
      first [ absurd_byte | by destruct q ]
    | destruct n as [|m]; [simpl in Hlen'; lia|];
      destruct k as [|k0 [|k1 [|k2 k]]];
      [ destruct (IH (b' :: rest') [] ltac:(lia) (eq_sym Hp)) as [q' Hq'];
        exists (c ++ q'); by rewrite Ht, Hq', app_assoc
      | | | ];
      destruct (escapeText_cons_head m b' rest') as (e0 & E & HE & Hcont);
      rewrite HE in Hp; cbn [app] in Hp; peel; subst;
      first [ by vm_compute in Hcont | by destruct k ] ]).
Qed.

Lemma elem_of_map_list {A B} (f : A -> B) (l : list A) (y : B) :
  y ∈ map f l <-> exists x, y = f x /\ x ∈ l.
Proof.
  induction l as [|a l IH]; simpl.
  - split; [by intros ?%elem_of_nil | by intros (x & _ & ?%elem_of_nil)].
  - rewrite elem_of_cons, IH. split.
    + intros [-> | (x & -> & Hx)].
      * exists a. split; [done | by left].
      * exists x. split; [done | by right].
    + intros (x & -> & [-> | Hx]%elem_of_cons); [by left|].
      right. by exists x.
Qed.

(** A trimmed text read back is trimmed. *)
Lemma TrimSpace_wireText s :
  TrimSpace (wireText (TrimSpace s)) = wireText (TrimSpace s).
Proof.
  unfold TrimSpace at 1. unfold wireText.
  rewrite !list_ascii_of_string_of_list_ascii.
  unfold TrimSpace. rewrite list_ascii_of_string_of_list_ascii.
  set (t0 := trim_left (list_ascii_of_string s)).
  set (t := trim_right t0).
  set (u := escapeText (length t) t).
  assert (Hl : cut_any spaces t = None).
  { destruct (trim_right_prefix t0) as [q Hq].
    apply (cut_any_None_prefix _ _ q). fold t in Hq. rewrite <- Hq.
    apply trim_left_done. }
  assert (Hr : cut_any (map (@rev ascii) spaces) (rev t) = None)
    by apply trim_right_done.
  assert (Hul : cut_any spaces u = None).
  { apply cut_any_None. intros p Hp.
    destruct (cut p u) as [r|] eqn:Hc; [|done].
    apply cut_Some in Hc.
    pose proof escapeText_prefix as HA. rewrite Forall_forall in HA.
    destruct (HA p Hp _ _ _ Hc) as [r' Hr'].
    rewrite cut_any_None in Hl. specialize (Hl p Hp).
    assert (Hc' : cut p t = Some r') by by apply cut_Some.
    by rewrite Hc' in Hl. }
  assert (Hur : cut_any (map (@rev ascii) spaces) (rev u) = None).
  { apply cut_any_None. intros p' Hp'.
    destruct (cut p' (rev u)) as [r|] eqn:Hc; [|done].
    apply cut_Some in Hc.
    apply elem_of_map_list in Hp' as (p & -> & Hp).
    assert (Hu : u = rev r ++ p).
    { rewrite <- (rev_involutive u), Hc, rev_app_distr. by rewrite rev_involutive. }
    pose proof escapeText_suffix as HB. rewrite Forall_forall in HB.
    destruct (HB p Hp _ _ _ (le_n _) Hu) as [q' Hq'].
    rewrite cut_any_None in Hr.
    specialize (Hr (rev p) ltac:(apply elem_of_map_list; by exists p)).
    assert (Hc' : cut (rev p) (rev t) = Some (rev q')).
    { apply cut_Some. by rewrite Hq', rev_app_distr. }
    by rewrite Hc' in Hr. }
  by rewrite (trim_left_id _ Hul), (trim_right_id _ Hur).
Qed.

End wire_trim.

(** ** Omit-if-empty *)

Create Rewrite HintDb written.
#[local] Hint Rewrite attrIn_app attrIn_attr attrIn_attrOmitempty
  attrIn_boolAttrOmitempty childIn_app childIn_elem childIn_elemOmitempty
  : written.

(** Compare the written names, which are literals, and tidy the booleans. *)
Ltac names :=
  cbn [String.eqb Ascii.eqb Bool.eqb andb orb];
  rewrite ?orb_false_r.

Ltac written :=
  cbn [hasAttr hasChild xml.SAttr xml.defaultStart app];
  autorewrite with written; names; try reflexivity.

Section omit_if_empty.

Lemma GDName_written n :
  let x := GDName.Marshal n in
  hasChild "gd:givenName" x = negb (is_empty (GDName.GivenName n))
  /\ hasChild "gd:additionalName" x = negb (is_empty (GDName.AdditionalName n))
  /\ hasChild "gd:familyName" x = negb (is_empty (GDName.FamilyName n))
  /\ hasChild "gd:namePrefix" x = negb (is_empty (GDName.Prefix n))
  /\ hasChild "gd:nameSuffix" x = negb (is_empty (GDName.Suffix n))
  /\ hasChild "gd:fullName" x
     = negb (is_empty (strings.TrimSpace (GDName.FullName n))).
Proof.
  unfold GDName.Marshal, GDName.MarshalXML.
  cbn [GDName.GivenName GDName.AdditionalName GDName.FamilyName GDName.Prefix
       GDName.Suffix GDName.FullName].
  repeat split; written.
Qed.

Lemma GDEmail_written m :
  let x := GDEmail.Marshal m in
  hasAttr "address" x = true
  /\ hasAttr "rel" x = negb (is_empty (GDEmail.Related m))
  /\ hasAttr "label" x = negb (is_empty (GDEmail.Label m))
  /\ hasAttr "primary" x = GDEmail.Primary m
  /\ hasAttr "displayName" x = negb (is_empty (GDEmail.DisplayName m)).
Proof.
  unfold GDEmail.Marshal, GDEmail.MarshalXML. repeat split; written.
Qed.

Lemma GDPhoneNumber_written n :
  let x := GDPhoneNumber.Marshal n in
  hasAttr "rel" x = negb (is_empty (GDPhoneNumber.Related n))
  /\ hasAttr "label" x = negb (is_empty (GDPhoneNumber.Label n))
  /\ hasAttr "uri" x = negb (is_empty (GDPhoneNumber.URI n))
  /\ hasAttr "primary" x = GDPhoneNumber.Primary n
  /\ hasText x = negb (is_empty (strings.TrimSpace (GDPhoneNumber.DialNumber n))).
Proof.
  unfold GDPhoneNumber.Marshal, GDPhoneNumber.MarshalXML.
  cbn [GDPhoneNumber.Related GDPhoneNumber.Label GDPhoneNumber.URI
       GDPhoneNumber.Primary GDPhoneNumber.DialNumber].
  repeat split; written.
  unfold hasText, xml.text. by destruct (is_empty _).
Qed.

Lemma GDIM_written im :
  let x := GDIM.Marshal im in
  hasAttr "address" x = true
  /\ hasAttr "label" x = negb (is_empty (GDIM.Label im))
  /\ hasAttr "rel" x = negb (is_empty (GDIM.Related im))
  /\ hasAttr "protocol" x = negb (is_empty (GDIM.Protocol im))
  /\ hasAttr "primary" x = GDIM.Primary im.
Proof.
  unfold GDIM.Marshal, GDIM.MarshalXML. repeat split; written.
Qed.

Lemma GDExtendedProperty_written p :
  let x := GDExtendedProperty.Marshal p in
  hasAttr "name" x = true
  /\ hasAttr "value" x = negb (is_empty (GDExtendedProperty.Value p))
  /\ hasAttr "realm" x = negb (is_empty (GDExtendedProperty.Realm p)).
Proof.
  unfold GDExtendedProperty.Marshal, GDExtendedProperty.MarshalXML.
  repeat split; written.
Qed.

Lemma GDStructuredPostalAddress_written a :
  let x := GDStructuredPostalAddress.Marshal a in
  hasAttr "rel" x = negb (is_empty (GDStructuredPostalAddress.Related a))
  /\ hasAttr "mailClass" x = negb (is_empty (GDStructuredPostalAddress.MailClass a))
  /\ hasAttr "usage" x = negb (is_empty (GDStructuredPostalAddress.Usage a))
  /\ hasAttr "label" x = negb (is_empty (GDStructuredPostalAddress.Label a))
  /\ hasAttr "primary" x = GDStructuredPostalAddress.Primary a
  /\ hasChild "gd:agent" x = negb (is_empty (GDStructuredPostalAddress.Agent a))
  /\ hasChild "gd:housename" x = negb (is_empty (GDStructuredPostalAddress.HouseName a))
  /\ hasChild "gd:pobox" x = negb (is_empty (GDStructuredPostalAddress.Pobox a))
  /\ hasChild "gd:neighborhood" x
     = negb (is_empty (GDStructuredPostalAddress.Neighborhood a))
  /\ hasChild "gd:city" x = negb (is_empty (GDStructuredPostalAddress.City a))
  /\ hasChild "gd:street" x = negb (is_empty (GDStructuredPostalAddress.Street a))
  /\ hasChild "gd:region" x = negb (is_empty (GDStructuredPostalAddress.Region a))
  /\ hasChild "gd:subregion" x = negb (is_empty (GDStructuredPostalAddress.SubRegion a))
  /\ hasChild "gd:postcode" x = negb (is_empty (GDStructuredPostalAddress.PostCode a))
  /\ hasChild "gd:country" x = negb (is_empty (GDStructuredPostalAddress.Country a))
  /\ hasChild "gd:formattedAddress" x
     = negb (is_empty (GDStructuredPostalAddress.FormattedAddress a)).
Proof.
  unfold GDStructuredPostalAddress.Marshal, GDStructuredPostalAddress.MarshalXML.
  repeat split; written.
Qed.

Context {clk : Clock}.

(** The children written for a slice field all carry the field's name. *)
Lemma childIn_map_tag {T} name tag (f : T -> xml.Node) (l : list T) :
  (forall v, childIn name [f v] = String.eqb name tag) ->
  childIn name (map f l) = String.eqb name tag && negb (bool_decide (l = [])).
Proof.
  intros Hf. induction l as [|v l IH].
  - by rewrite andb_false_r.
  - change (childIn name (map f (v :: l)))
      with (childIn name ([f v] ++ map f l)).
    rewrite childIn_app, Hf, IH.
    by destruct (String.eqb name tag).
Qed.

Lemma childIn_one name nm attrs body :
  childIn name [xml.Element nm attrs body] = String.eqb name (xml.Local nm).
Proof. unfold childIn. simpl. apply orb_false_r. Qed.

Lemma padded_nil {T} (z : T) n (l : list T) :
  (n = 0 <-> l = []) ->
  negb (bool_decide (appendEach (make z n) l = [])) = negb (bool_decide (l = [])).
Proof.
  intros Hn. rewrite appendEach_app. destruct l as [|v l]; [|by destruct n].
  by rewrite (proj2 Hn eq_refl).
Qed.

Lemma ContactKind_written c :
  let x := ContactKind.Marshal c in
  hasChild "gd:name" x = true
  /\ hasChild "content" x = true
  /\ hasChild "category" x = true
  /\ hasChild "gd:email" x = negb (bool_decide (ContactKind.Email c = []))
  /\ hasChild "gd:phoneNumber" x
     = negb (bool_decide (ContactKind.PhoneNumber c = []))
  /\ hasChild "gd:structuredPostalAddress" x
     = negb (bool_decide (ContactKind.StructuredPostalAddress c = []))
  /\ hasChild "gd:im" x = negb (bool_decide (ContactKind.IM c = []))
  /\ hasChild "gd:extendedProperty" x
     = negb (bool_decide (ContactKind.ExtendedProperty c = ∅)).
Proof.
  assert (Hext :
    negb (bool_decide
            (appendEach
               (make GDExtendedProperty.zero (size (ContactKind.ExtendedProperty c)))
               (map (fun kv => GDExtendedProperty.mk kv.1 kv.2 "")
                    (map_to_list (ContactKind.ExtendedProperty c))) = []))
    = negb (bool_decide (ContactKind.ExtendedProperty c = ∅))).
  { rewrite padded_nil.
    - destruct (decide (ContactKind.ExtendedProperty c = ∅)) as [->|Hne].
      + by rewrite map_to_list_empty.
      + rewrite (bool_decide_eq_false_2 _ Hne).
        destruct (map_to_list (ContactKind.ExtendedProperty c)) eqn:Hl; [|done].
        by apply map_to_list_empty_iff in Hl.
    - rewrite map_size_empty_iff, <- map_to_list_empty_iff.
      by destruct (map_to_list (ContactKind.ExtendedProperty c)). }
  unfold ContactKind.Marshal, ContactKind.MarshalXML.
  cbn zeta. cbn [hasChild].
  repeat split;
    rewrite !childIn_app;
    rewrite (childIn_map_tag _ "gd:email") by (intros v; apply childIn_one);
    rewrite (childIn_map_tag _ "gd:phoneNumber") by (intros v; apply childIn_one);
    rewrite (childIn_map_tag _ "gd:structuredPostalAddress")
      by (intros v; apply childIn_one);
    rewrite (childIn_map_tag _ "gd:extendedProperty")
      by (intros v; apply childIn_one);
    rewrite (childIn_map_tag _ "gd:im") by (intros v; apply childIn_one);
    rewrite !childIn_one, childIn_elem;
    names; try reflexivity.
  - by rewrite appendEach_app.
  - apply padded_nil. by destruct (ContactKind.PhoneNumber c).
  - apply padded_nil. by destruct (ContactKind.StructuredPostalAddress c).
  - apply padded_nil. by destruct (ContactKind.IM c).
  - exact Hext.
Qed.

(** C7, as the code has it.  Whether a field is written is decided field by
    field: a field tagged omitempty is written exactly when its value is not
    the zero value (the full name and the dial string after trimming); the
    fields without that tag are written whatever they hold: the name, content
    and category elements of a contact, the address of an e-mail address and
    of an instant-message account, the name of an extended property. *)
Theorem omit_if_empty :
  (forall n, let x := GDName.Marshal n in
     hasChild "gd:givenName" x = negb (is_empty (GDName.GivenName n))
     /\ hasChild "gd:additionalName" x = negb (is_empty (GDName.AdditionalName n))
     /\ hasChild "gd:familyName" x = negb (is_empty (GDName.FamilyName n))
     /\ hasChild "gd:namePrefix" x = negb (is_empty (GDName.Prefix n))
     /\ hasChild "gd:nameSuffix" x = negb (is_empty (GDName.Suffix n))
     /\ hasChild "gd:fullName" x
        = negb (is_empty (strings.TrimSpace (GDName.FullName n))))
  /\ (forall m, let x := GDEmail.Marshal m in
        hasAttr "address" x = true
        /\ hasAttr "rel" x = negb (is_empty (GDEmail.Related m))
        /\ hasAttr "label" x = negb (is_empty (GDEmail.Label m))
        /\ hasAttr "primary" x = GDEmail.Primary m
        /\ hasAttr "displayName" x = negb (is_empty (GDEmail.DisplayName m)))
  /\ (forall n, let x := GDPhoneNumber.Marshal n in
        hasAttr "rel" x = negb (is_empty (GDPhoneNumber.Related n))
        /\ hasAttr "label" x = negb (is_empty (GDPhoneNumber.Label n))
        /\ hasAttr "uri" x = negb (is_empty (GDPhoneNumber.URI n))
        /\ hasAttr "primary" x = GDPhoneNumber.Primary n
        /\ hasText x
           = negb (is_empty (strings.TrimSpace (GDPhoneNumber.DialNumber n))))
  /\ (forall a, let x := GDStructuredPostalAddress.Marshal a in
        hasAttr "rel" x = negb (is_empty (GDStructuredPostalAddress.Related a))
        /\ hasAttr "mailClass" x
           = negb (is_empty (GDStructuredPostalAddress.MailClass a))
        /\ hasAttr "usage" x = negb (is_empty (GDStructuredPostalAddress.Usage a))
        /\ hasAttr "label" x = negb (is_empty (GDStructuredPostalAddress.Label a))
        /\ hasAttr "primary" x = GDStructuredPostalAddress.Primary a
        /\ hasChild "gd:agent" x = negb (is_empty (GDStructuredPostalAddress.Agent a))
        /\ hasChild "gd:housename" x
           = negb (is_empty (GDStructuredPostalAddress.HouseName a))
        /\ hasChild "gd:pobox" x = negb (is_empty (GDStructuredPostalAddress.Pobox a))
        /\ hasChild "gd:neighborhood" x
           = negb (is_empty (GDStructuredPostalAddress.Neighborhood a))
        /\ hasChild "gd:city" x = negb (is_empty (GDStructuredPostalAddress.City a))
        /\ hasChild "gd:street" x
           = negb (is_empty (GDStructuredPostalAddress.Street a))
        /\ hasChild "gd:region" x
           = negb (is_empty (GDStructuredPostalAddress.Region a))
        /\ hasChild "gd:subregion" x
           = negb (is_empty (GDStructuredPostalAddress.SubRegion a))
        /\ hasChild "gd:postcode" x
           = negb (is_empty (GDStructuredPostalAddress.PostCode a))
        /\ hasChild "gd:country" x
           = negb (is_empty (GDStructuredPostalAddress.Country a))
        /\ hasChild "gd:formattedAddress" x
           = negb (is_empty (GDStructuredPostalAddress.FormattedAddress a)))
  /\ (forall im, let x := GDIM.Marshal im in
        hasAttr "address" x = true
        /\ hasAttr "label" x = negb (is_empty (GDIM.Label im))
        /\ hasAttr "rel" x = negb (is_empty (GDIM.Related im))
        /\ hasAttr "protocol" x = negb (is_empty (GDIM.Protocol im))
        /\ hasAttr "primary" x = GDIM.Primary im)
  /\ (forall p, let x := GDExtendedProperty.Marshal p in
        hasAttr "name" x = true
        /\ hasAttr "value" x = negb (is_empty (GDExtendedProperty.Value p))
        /\ hasAttr "realm" x = negb (is_empty (GDExtendedProperty.Realm p)))
  /\ (forall c : ContactKind.t, let x := ContactKind.Marshal c in
        hasChild "gd:name" x = true
        /\ hasChild "content" x = true
        /\ hasChild "category" x = true
        /\ hasChild "gd:email" x = negb (bool_decide (ContactKind.Email c = []))
        /\ hasChild "gd:phoneNumber" x
           = negb (bool_decide (ContactKind.PhoneNumber c = []))
        /\ hasChild "gd:structuredPostalAddress" x
           = negb (bool_decide (ContactKind.StructuredPostalAddress c = []))
        /\ hasChild "gd:im" x = negb (bool_decide (ContactKind.IM c = []))
        /\ hasChild "gd:extendedProperty" x
           = negb (bool_decide (ContactKind.ExtendedProperty c = ∅))).
Proof.
  split; [exact GDName_written|].
  split; [exact GDEmail_written|].
  split; [exact GDPhoneNumber_written|].
  split; [exact GDStructuredPostalAddress_written|].
  split; [exact GDIM_written|].
  split; [exact GDExtendedProperty_written|].
  exact ContactKind_written.
Qed.

(** The encoding of a contact is made of its name, its four sequences, its
    extended properties and its content: two contacts that agree on these
    are written alike, whatever their id, version tag, updated time, links
    and deleted flag. *)
Theorem Marshal_ignores_server_fields (c c' : ContactKind.t) :
  ContactKind.Name c = ContactKind.Name c' ->
  ContactKind.Email c = ContactKind.Email c' ->
  ContactKind.PhoneNumber c = ContactKind.PhoneNumber c' ->
  ContactKind.StructuredPostalAddress c = ContactKind.StructuredPostalAddress c' ->
  ContactKind.IM c = ContactKind.IM c' ->
  ContactKind.ExtendedProperty c = ContactKind.ExtendedProperty c' ->
  ContactKind.content c = ContactKind.content c' ->
  ContactKind.Marshal c = ContactKind.Marshal c'.
Proof.
  intros Hn He Hp Ha Hi Hx Hc.
  unfold ContactKind.Marshal, ContactKind.MarshalXML.
  by rewrite Hn, He, Hp, Ha, Hi, Hx, Hc.
Qed.

End omit_if_empty.

Lemma Marshal_ignores_server_fields_witness :
  ContactKind.Marshal (contactOf "v1" "ann@example.org")
  = ContactKind.Marshal (contactOf "v2" "ann@example.org").
Proof.
  apply (Marshal_ignores_server_fields (clk := example.clock)
           (contactOf "v1" "ann@example.org") (contactOf "v2" "ann@example.org"));
    reflexivity.
Defined.

(** The zero contact has the empty string for its content, and its encoding
    has a content element all the same; so has the encoding of the zero
    e-mail address an address attribute. *)
Lemma empty_content_is_written :
  ContactKind.content (ContactKind.zero (clk := example.clock)) = ""
  /\ hasChild "content" (ContactKind.Marshal (ContactKind.zero (clk := example.clock)))
     = true
  /\ GDEmail.Address GDEmail.zero = ""
  /\ hasAttr "address" (GDEmail.Marshal GDEmail.zero) = true.
Proof. repeat split; reflexivity. Qed.

(** ** Round trips of the sub-structures *)

Create Rewrite HintDb readback.
#[local] Hint Rewrite wireAttr_app wireAttr_attr wireAttr_attrOmitempty
  wireAttr_boolAttrOmitempty : readback.
#[local] Hint Rewrite map_app attrString_app attrString_attr attrString_attrOmitempty
  attrString_boolAttrOmitempty attrBool_app attrBool_attr attrBool_attrOmitempty
  attrBool_boolAttrOmitempty childString_app childString_elemOmitempty
  : readback.

(** The local part of a written name, which is a literal. *)
Ltac locals :=
  repeat match goal with
    | |- context [xml.Local (xml.nsname ?tag)] =>
        let v := eval vm_compute in (xml.Local (xml.nsname tag)) in
        change (xml.Local (xml.nsname tag)) with v
    end.

Ltac plain_attrs :=
  repeat first
    [ apply List.Forall_nil
    | apply Forall_app; split
    | apply plainAttr_attr; reflexivity
    | apply plainAttr_attrOmitempty; reflexivity
    | apply plainAttr_boolAttrOmitempty; reflexivity ].

Ltac readback :=
  unfold xml.wire; cbn [xml.SAttr xml.defaultStart app];
  rewrite reparse_plain by plain_attrs;
  cbn [xml.Decode xml.SAttr];
  repeat (progress (autorewrite with readback; locals; names; cbn [bind]));
  rewrite ?if_nonempty_id, ?if_nonempty_wireText.

Section roundtrip.

Lemma copyBool_true : xml.copyBool "true" = Ok true.
Proof. reflexivity. Qed.

Lemma GDName_roundtrip n :
  GDName.Unmarshal (xml.wire (GDName.Marshal n))
  = Ok {| GDName.GivenName := xml.wireText (GDName.GivenName n);
          GDName.AdditionalName := xml.wireText (GDName.AdditionalName n);
          GDName.FamilyName := xml.wireText (GDName.FamilyName n);
          GDName.Prefix := xml.wireText (GDName.Prefix n);
          GDName.Suffix := xml.wireText (GDName.Suffix n);
          GDName.FullName :=
            xml.wireText (strings.TrimSpace (GDName.FullName n)) |}.
Proof.
  unfold GDName.Unmarshal, GDName.Marshal, GDName.MarshalXML, GDName.UnmarshalXML.
  cbn [GDName.GivenName GDName.AdditionalName GDName.FamilyName GDName.Prefix
       GDName.Suffix GDName.FullName].
  readback. by rewrite TrimSpace_wireText.
Qed.

Lemma GDEmail_roundtrip m :
  GDEmail.Unmarshal (xml.wire (GDEmail.Marshal m))
  = Ok {| GDEmail.Address := xml.wireText (GDEmail.Address m);
          GDEmail.Related := xml.wireText (GDEmail.Related m);
          GDEmail.Label := xml.wireText (GDEmail.Label m);
          GDEmail.Primary := GDEmail.Primary m;
          GDEmail.DisplayName := xml.wireText (GDEmail.DisplayName m) |}.
Proof.
  destruct m as [addr rel lab [] dn];
    unfold GDEmail.Unmarshal, GDEmail.Marshal, GDEmail.MarshalXML, GDEmail.unmarshal;
    cbn [GDEmail.Address GDEmail.Related GDEmail.Label GDEmail.Primary
         GDEmail.DisplayName GDEmail.zero];
    readback; reflexivity.
Qed.

Lemma GDPhoneNumber_roundtrip n :
  GDPhoneNumber.Unmarshal (xml.wire (GDPhoneNumber.Marshal n))
  = Ok {| GDPhoneNumber.Related := xml.wireText (GDPhoneNumber.Related n);
          GDPhoneNumber.Label := xml.wireText (GDPhoneNumber.Label n);
          GDPhoneNumber.URI := xml.wireText (GDPhoneNumber.URI n);
          GDPhoneNumber.Primary := GDPhoneNumber.Primary n;
          GDPhoneNumber.DialNumber :=
            xml.wireText (strings.TrimSpace (GDPhoneNumber.DialNumber n)) |}.
Proof.
  destruct n as [rel lab uri [] dial];
    unfold GDPhoneNumber.Unmarshal, GDPhoneNumber.Marshal, GDPhoneNumber.MarshalXML,
      GDPhoneNumber.UnmarshalXML;
    cbn [GDPhoneNumber.Related GDPhoneNumber.Label GDPhoneNumber.URI
         GDPhoneNumber.Primary GDPhoneNumber.DialNumber];
    readback; by rewrite reparse_text, charData_text, TrimSpace_wireText.
Qed.

Lemma GDIM_roundtrip im :
  GDIM.Unmarshal (xml.wire (GDIM.Marshal im))
  = Ok {| GDIM.Address := xml.wireText (GDIM.Address im);
          GDIM.Label := xml.wireText (GDIM.Label im);
          GDIM.Related := xml.wireText (GDIM.Related im);
          GDIM.Protocol := xml.wireText (GDIM.Protocol im);
          GDIM.Primary := GDIM.Primary im |}.
Proof.
  destruct im as [addr lab rel proto []];
    unfold GDIM.Unmarshal, GDIM.Marshal, GDIM.MarshalXML, GDIM.unmarshal;
    cbn [GDIM.Address GDIM.Label GDIM.Related GDIM.Protocol GDIM.Primary GDIM.zero];
    readback; reflexivity.
Qed.

Lemma GDExtendedProperty_roundtrip p :
  GDExtendedProperty.Unmarshal (xml.wire (GDExtendedProperty.Marshal p))
  = Ok {| GDExtendedProperty.Name := xml.wireText (GDExtendedProperty.Name p);
          GDExtendedProperty.Value := xml.wireText (GDExtendedProperty.Value p);
          GDExtendedProperty.Realm := xml.wireText (GDExtendedProperty.Realm p) |}.
Proof.
  unfold GDExtendedProperty.Unmarshal, GDExtendedProperty.Marshal,
    GDExtendedProperty.MarshalXML, GDExtendedProperty.unmarshal.
  destruct p as [nm v realm].
  cbn [GDExtendedProperty.Name GDExtendedProperty.Value GDExtendedProperty.Realm
       GDExtendedProperty.zero].
  readback. reflexivity.
Qed.

(** The postal address comes back with every field but the relation, which
    the decoder leaves at the receiver's value, here the zero value. *)
Lemma GDStructuredPostalAddress_roundtrip a :
  GDStructuredPostalAddress.Unmarshal (xml.wire (GDStructuredPostalAddress.Marshal a))
  = Ok {| GDStructuredPostalAddress.Related := "";
          GDStructuredPostalAddress.MailClass :=
            xml.wireText (GDStructuredPostalAddress.MailClass a);
          GDStructuredPostalAddress.Usage :=
            xml.wireText (GDStructuredPostalAddress.Usage a);
          GDStructuredPostalAddress.Label :=
            xml.wireText (GDStructuredPostalAddress.Label a);
          GDStructuredPostalAddress.Primary := GDStructuredPostalAddress.Primary a;
          GDStructuredPostalAddress.Agent :=
            xml.wireText (GDStructuredPostalAddress.Agent a);
          GDStructuredPostalAddress.HouseName :=
            xml.wireText (GDStructuredPostalAddress.HouseName a);
          GDStructuredPostalAddress.Pobox :=
            xml.wireText (GDStructuredPostalAddress.Pobox a);
          GDStructuredPostalAddress.Neighborhood :=
            xml.wireText (GDStructuredPostalAddress.Neighborhood a);
          GDStructuredPostalAddress.City :=
            xml.wireText (GDStructuredPostalAddress.City a);
          GDStructuredPostalAddress.Street :=
            xml.wireText (GDStructuredPostalAddress.Street a);
          GDStructuredPostalAddress.Region :=
            xml.wireText (GDStructuredPostalAddress.Region a);
          GDStructuredPostalAddress.SubRegion :=
            xml.wireText (GDStructuredPostalAddress.SubRegion a);
          GDStructuredPostalAddress.PostCode :=
            xml.wireText (GDStructuredPostalAddress.PostCode a);
          GDStructuredPostalAddress.Country :=
            xml.wireText (GDStructuredPostalAddress.Country a);
          GDStructuredPostalAddress.FormattedAddress :=
            xml.wireText (GDStructuredPostalAddress.FormattedAddress a) |}.
Proof.
  destruct a as [rel mc us lab [] ag hn pb nb ci st rg sr pc co fa];
    unfold GDStructuredPostalAddress.Unmarshal, GDStructuredPostalAddress.Marshal,
      GDStructuredPostalAddress.MarshalXML, GDStructuredPostalAddress.UnmarshalXML;
    cbn [GDStructuredPostalAddress.Related GDStructuredPostalAddress.MailClass
         GDStructuredPostalAddress.Usage GDStructuredPostalAddress.Label
         GDStructuredPostalAddress.Primary GDStructuredPostalAddress.Agent
         GDStructuredPostalAddress.HouseName GDStructuredPostalAddress.Pobox
         GDStructuredPostalAddress.Neighborhood GDStructuredPostalAddress.City
         GDStructuredPostalAddress.Street GDStructuredPostalAddress.Region
         GDStructuredPostalAddress.SubRegion GDStructuredPostalAddress.PostCode
         GDStructuredPostalAddress.Country GDStructuredPostalAddress.FormattedAddress
         GDStructuredPostalAddress.zero];
    readback; reflexivity.
Qed.

(** C1, as the code has it.  Encoding a sub-structure and decoding the
    result into a fresh value gives it back with every string as it goes
    through the Encoder: the bytes that are no valid UTF-8 and the characters
    XML does not allow replaced by U+FFFD.  The full name of a name and the
    dial string of a phone number are trimmed first (the second trimming,
    after they are read, finds nothing to remove).  A postal address comes
    back so in every field other than the relation. *)
Theorem roundtrip_substructures :
  (forall n,
      GDName.Unmarshal (xml.wire (GDName.Marshal n))
      = Ok (GDName.mk (xml.wireText (GDName.GivenName n))
                      (xml.wireText (GDName.AdditionalName n))
                      (xml.wireText (GDName.FamilyName n))
                      (xml.wireText (GDName.Prefix n))
                      (xml.wireText (GDName.Suffix n))
                      (xml.wireText (strings.TrimSpace (GDName.FullName n)))))
  /\ (forall m,
        GDEmail.Unmarshal (xml.wire (GDEmail.Marshal m))
        = Ok (GDEmail.mk (xml.wireText (GDEmail.Address m))
                         (xml.wireText (GDEmail.Related m))
                         (xml.wireText (GDEmail.Label m))
                         (GDEmail.Primary m)
                         (xml.wireText (GDEmail.DisplayName m))))
  /\ (forall n,
        GDPhoneNumber.Unmarshal (xml.wire (GDPhoneNumber.Marshal n))
        = Ok (GDPhoneNumber.mk
                (xml.wireText (GDPhoneNumber.Related n))
                (xml.wireText (GDPhoneNumber.Label n))
                (xml.wireText (GDPhoneNumber.URI n))
                (GDPhoneNumber.Primary n)
                (xml.wireText (strings.TrimSpace (GDPhoneNumber.DialNumber n)))))
  /\ (forall a, exists a',
        GDStructuredPostalAddress.Unmarshal
          (xml.wire (GDStructuredPostalAddress.Marshal a)) = Ok a'
        /\ GDStructuredPostalAddress.MailClass a'
           = xml.wireText (GDStructuredPostalAddress.MailClass a)
        /\ GDStructuredPostalAddress.Usage a'
           = xml.wireText (GDStructuredPostalAddress.Usage a)
        /\ GDStructuredPostalAddress.Label a'
           = xml.wireText (GDStructuredPostalAddress.Label a)
        /\ GDStructuredPostalAddress.Primary a' = GDStructuredPostalAddress.Primary a
        /\ GDStructuredPostalAddress.Agent a'
           = xml.wireText (GDStructuredPostalAddress.Agent a)
        /\ GDStructuredPostalAddress.HouseName a'
           = xml.wireText (GDStructuredPostalAddress.HouseName a)
        /\ GDStructuredPostalAddress.Pobox a'
           = xml.wireText (GDStructuredPostalAddress.Pobox a)
        /\ GDStructuredPostalAddress.Neighborhood a'
           = xml.wireText (GDStructuredPostalAddress.Neighborhood a)
        /\ GDStructuredPostalAddress.City a'
           = xml.wireText (GDStructuredPostalAddress.City a)
        /\ GDStructuredPostalAddress.Street a'
           = xml.wireText (GDStructuredPostalAddress.Street a)
        /\ GDStructuredPostalAddress.Region a'
           = xml.wireText (GDStructuredPostalAddress.Region a)
        /\ GDStructuredPostalAddress.SubRegion a'
           = xml.wireText (GDStructuredPostalAddress.SubRegion a)
        /\ GDStructuredPostalAddress.PostCode a'
           = xml.wireText (GDStructuredPostalAddress.PostCode a)
        /\ GDStructuredPostalAddress.Country a'
           = xml.wireText (GDStructuredPostalAddress.Country a)
        /\ GDStructuredPostalAddress.FormattedAddress a'
           = xml.wireText (GDStructuredPostalAddress.FormattedAddress a))
  /\ (forall im,
        GDIM.Unmarshal (xml.wire (GDIM.Marshal im))
        = Ok (GDIM.mk (xml.wireText (GDIM.Address im))
                      (xml.wireText (GDIM.Label im))
                      (xml.wireText (GDIM.Related im))
                      (xml.wireText (GDIM.Protocol im))
                      (GDIM.Primary im)))
  /\ (forall p,
        GDExtendedProperty.Unmarshal (xml.wire (GDExtendedProperty.Marshal p))
        = Ok (GDExtendedProperty.mk
                (xml.wireText (GDExtendedProperty.Name p))
                (xml.wireText (GDExtendedProperty.Value p))
                (xml.wireText (GDExtendedProperty.Realm p)))).
Proof.
  split; [exact GDName_roundtrip|].
  split; [exact GDEmail_roundtrip|].
  split; [exact GDPhoneNumber_roundtrip|].
  split; [|split; [exact GDIM_roundtrip | exact GDExtendedProperty_roundtrip]].
  intros a. eexists. split; [apply GDStructuredPostalAddress_roundtrip|].
  repeat split.
Qed.

(** A value whose strings the Encoder writes as they are comes back as it
    was: an e-mail address, an instant-message handle and an extended
    property whole, a name and a phone number when the full name and the
    dial string are trimmed besides. *)
Corollary GDEmail_roundtrip_text m :
  xmlText (GDEmail.Address m) -> xmlText (GDEmail.Related m) ->
  xmlText (GDEmail.Label m) -> xmlText (GDEmail.DisplayName m) ->
  GDEmail.Unmarshal (xml.wire (GDEmail.Marshal m)) = Ok m.
Proof.
  unfold xmlText. intros H1 H2 H3 H4.
  rewrite GDEmail_roundtrip, H1, H2, H3, H4. by destruct m.
Qed.

Corollary GDIM_roundtrip_text im :
  xmlText (GDIM.Address im) -> xmlText (GDIM.Label im) ->
  xmlText (GDIM.Related im) -> xmlText (GDIM.Protocol im) ->
  GDIM.Unmarshal (xml.wire (GDIM.Marshal im)) = Ok im.
Proof.
  unfold xmlText. intros H1 H2 H3 H4.
  rewrite GDIM_roundtrip, H1, H2, H3, H4. by destruct im.
Qed.

Corollary GDExtendedProperty_roundtrip_text p :
  xmlText (GDExtendedProperty.Name p) -> xmlText (GDExtendedProperty.Value p) ->
  xmlText (GDExtendedProperty.Realm p) ->
  GDExtendedProperty.Unmarshal (xml.wire (GDExtendedProperty.Marshal p)) = Ok p.
Proof.
  unfold xmlText. intros H1 H2 H3.
  rewrite GDExtendedProperty_roundtrip, H1, H2, H3. by destruct p.
Qed.

Corollary GDName_roundtrip_trimmed n :
  xmlText (GDName.GivenName n) -> xmlText (GDName.AdditionalName n) ->
  xmlText (GDName.FamilyName n) -> xmlText (GDName.Prefix n) ->
  xmlText (GDName.Suffix n) -> xmlText (GDName.FullName n) ->
  strings.TrimSpace (GDName.FullName n) = GDName.FullName n ->
  GDName.Unmarshal (xml.wire (GDName.Marshal n)) = Ok n.
Proof.
  unfold xmlText. intros H1 H2 H3 H4 H5 H6 Ht.
  rewrite GDName_roundtrip, H1, H2, H3, H4, H5, Ht, H6. by destruct n.
Qed.

Corollary GDPhoneNumber_roundtrip_trimmed n :
  xmlText (GDPhoneNumber.Related n) -> xmlText (GDPhoneNumber.Label n) ->
  xmlText (GDPhoneNumber.URI n) -> xmlText (GDPhoneNumber.DialNumber n) ->
  strings.TrimSpace (GDPhoneNumber.DialNumber n) = GDPhoneNumber.DialNumber n ->
  GDPhoneNumber.Unmarshal (xml.wire (GDPhoneNumber.Marshal n)) = Ok n.
Proof.
  unfold xmlText. intros H1 H2 H3 H4 Ht.
  rewrite GDPhoneNumber_roundtrip, H1, H2, H3, Ht, H4. by destruct n.
Qed.

(** Text of letters, digits and blanks is written as it is; a NUL byte, a
    lone continuation byte and U+FFFE are not. *)
Lemma wireText_examples :
  xml.wireText "Elizabeth Bennet <liz@gmail.com> & co." 
  = "Elizabeth Bennet <liz@gmail.com> & co."
  /\ xml.wireText (String (ascii_of_nat 0) "")
     = string_of_list_ascii xml.escFFFD
  /\ xml.wireText (String (ascii_of_nat 128) "a")
     = string_of_list_ascii (xml.escFFFD ++ ["a"%char])
  /\ xml.wireText (string_of_list_ascii
                     [ascii_of_nat 239; ascii_of_nat 191; ascii_of_nat 190])
     = string_of_list_ascii xml.escFFFD
  /\ xml.wireText (string_of_list_ascii
                     [ascii_of_nat 195; ascii_of_nat 169; ascii_of_nat 10])
     = string_of_list_ascii [ascii_of_nat 195; ascii_of_nat 169; ascii_of_nat 10].
Proof. repeat split; vm_compute; reflexivity. Qed.

(** An e-mail address that holds a NUL byte comes back with U+FFFD in its
    place. *)
Lemma nul_address_comes_back_replaced :
  let m := GDEmail.mk (String (ascii_of_nat 0) "") "" "" false "" in
  GDEmail.Unmarshal (xml.wire (GDEmail.Marshal m))
  = Ok (GDEmail.mk (string_of_list_ascii xml.escFFFD) "" "" false "")
  /\ GDEmail.Unmarshal (xml.wire (GDEmail.Marshal m)) <> Ok m.
Proof.
  cbn zeta. rewrite GDEmail_roundtrip. split; [reflexivity | discriminate].
Qed.

(** The relation of a postal address does not come back: the decoder reads
    the rel attribute and stores it nowhere. *)
Lemma address_relation_not_read a :
  GDStructuredPostalAddress.Related
    <$> (match GDStructuredPostalAddress.Unmarshal
                 (xml.wire (GDStructuredPostalAddress.Marshal a)) with
         | Ok a' => Some a'
         | Err _ => None
         end)
  = Some "".
Proof. by rewrite GDStructuredPostalAddress_roundtrip. Qed.

(** The entry a contact is encoded to is written without a name space of
    its own (xmlns:atom binds a prefix the element does not use), and the
    decoder of contacts takes an entry of the Atom name space only. *)
Lemma contact_encoding_not_decodable {clk : Clock} (c : ContactKind.t) :
  ContactKind.Unmarshal (xml.wire (ContactKind.Marshal c))
  = Err (UnmarshalError
           ("expected element <entry> in name space " +:+ atomNS
            +:+ " but have no name space")).
Proof.
  unfold ContactKind.Unmarshal, ContactKind.Marshal, ContactKind.MarshalXML, xml.wire.
  cbn zeta. cbn [xml.reparse].
  match goal with
  | |- context [map (xml.reparse ?ns) ?body] => generalize (map (xml.reparse ns) body)
  end.
  intros d. cbn [xml.Decode]. unfold ContactKind.UnmarshalXML, ContactKind.DecodeElement.
  reflexivity.
Qed.

End roundtrip.

(** A full name written with blanks around it comes back without them. *)
Lemma padded_name_comes_back_trimmed :
  let n := GDName.mk "Elizabeth" "" "Bennet" "" "" " Elizabeth Bennet " in
  GDName.Unmarshal (xml.wire (GDName.Marshal n))
  = Ok (GDName.mk "Elizabeth" "" "Bennet" "" "" "Elizabeth Bennet")
  /\ GDName.Unmarshal (xml.wire (GDName.Marshal n)) <> Ok n.
Proof.
  assert (Hd : GDName.Unmarshal
                 (xml.wire (GDName.Marshal
                              (GDName.mk "Elizabeth" "" "Bennet" "" "" " Elizabeth Bennet ")))
               = Ok (GDName.mk "Elizabeth" "" "Bennet" "" "" "Elizabeth Bennet"))
    by (vm_compute; reflexivity).
  split; [exact Hd|]. rewrite Hd. discriminate.
Qed.

(** * Further properties of the code *)

(** ** The id of a contact *)

Section get_id.
Context {clk : Clock}.

Import strings.

Lemma sliceFrom_app q r : sliceFrom (String.length q) (q +:+ r) = r.
Proof. induction q as [|a q IH]; [by destruct r | exact IH]. Qed.

Lemma append_length (q r : string) :
  String.length (q +:+ r) = String.length q + String.length r.
Proof. induction q as [|a q IH]; [done|]. simpl. by rewrite <- IH. Qed.

Lemma append_assoc (q r t : string) : q +:+ (r +:+ t) = (q +:+ r) +:+ t.
Proof.
  induction q as [|a q IH]; [done|].
  change (String a (q +:+ (r +:+ t)) = String a ((q +:+ r) +:+ t)).
  by rewrite IH.
Qed.

(** Where the last separator is: nowhere, or between [q] and [r]. *)
Lemma lastIndexFrom_spec sep s : forall i acc,
  (containsByte sep s = false /\ lastIndexFrom sep s i acc = acc)
  \/ (exists q r, s = q +:+ String sep r
                  /\ containsByte sep r = false
                  /\ lastIndexFrom sep s i acc = Z.of_nat (i + String.length q)).
Proof.
  induction s as [|a s IH]; intros i acc; [by left|].
  cbn [lastIndexFrom containsByte].
  destruct (IH (S i) (if Ascii.eqb a sep then Z.of_nat i else acc))
    as [[Hno Hr] | (q & r & -> & Hno & Hr)].
  - destruct (Ascii.eqb a sep) eqn:Ha.
    + right. apply Ascii.eqb_eq in Ha as ->. exists "", s.
      repeat split; [done|]. rewrite Hr. f_equal. simpl. lia.
    + left. by rewrite Hno.
  - right. exists (String a q), r. repeat split; [done|].
    rewrite Hr. f_equal. simpl. lia.
Qed.

(** GetID gives the end of the id after its last "/": the result holds no
    "/", and the id is the result itself or something ending in "/" followed
    by the result.  An id without "/" is returned whole. *)
Theorem GetID_after_last_slash (c : ContactKind.t) :
  containsByte "/" (ContactKind.GetID c) = false
  /\ (ContactKind.id c = ContactKind.GetID c
      \/ exists q, ContactKind.id c = q +:+ "/" +:+ ContactKind.GetID c).
Proof.
  unfold ContactKind.GetID, LastIndex.
  destruct (lastIndexFrom_spec "/" (ContactKind.id c) 0 (-1)%Z)
    as [[Hno ->] | (q & r & Hid & Hno & ->)].
  - split; [exact Hno | by left].
  - rewrite Hid.
    replace (Z.to_nat (Z.of_nat (0 + String.length q) + 1))
      with (String.length (q +:+ "/")).
    2:{ rewrite append_length. simpl. lia. }
    change (q +:+ String "/" r) with (q +:+ ("/" +:+ r)).
    rewrite append_assoc, sliceFrom_app.
    split; [exact Hno|]. right. exists q. by rewrite append_assoc.
Qed.

End get_id.

(** ** The projection and the query parameters *)

Section parameters.
Context {clk : Clock} {net : Net}.

Import service.

(** The projection that goes into a URL is never empty: it is the
    request's own when that is given, else the service's, and NewService
    puts "full" where it is given none. *)
Theorem projection_never_empty domain defaultProjection p :
  is_empty (getPojection (NewService domain defaultProjection) p) = false.
Proof.
  unfold getPojection, NewService, setDefaultProjection. cbn [projection].
  destruct p; [|done]. by destruct defaultProjection.
Qed.

Lemma Set_keepsStrict key value :
  key <> "strict" -> keepsStrict (query.Set_ key value).
Proof. intros Hk v. unfold query.Set_. by rewrite lookup_insert_ne. Qed.

(** The options of the package leave the strict parameter alone. *)
Lemma options_keepStrict (Format : time -> string) :
  (forall n, keepsStrict (query.WithMaxResults n))
  /\ (forall n, keepsStrict (query.WithStartIndex n))
  /\ (forall t, keepsStrict (query.WithUpdateMin Format t))
  /\ (forall t, keepsStrict (query.WithUpdateMax Format t))
  /\ (forall b, keepsStrict (query.WithShowDeleted b))
  /\ (forall asc, keepsStrict (query.WithSort asc))
  /\ (forall name, keepsStrict (query.FilterByAuthor name))
  /\ (forall filters, keepsStrict (query.FilterByCategory filters))
  /\ (forall texts, keepsStrict (query.WithTextQuery texts))
  /\ (forall t, keepsStrict (query.withReturnType t)).
Proof.
  repeat split; intros; try (by apply Set_keepsStrict).
  intros v. unfold query.WithSort.
  by rewrite !Set_keepsStrict.
Qed.

Lemma listParams_strict queries :
  Forall keepsStrict queries ->
  listParams queries !! "strict" = Some ["true"].
Proof.
  unfold listParams.
  assert (Hgen : forall v, Forall keepsStrict queries ->
                   fold_left (fun v q => q v) queries v !! "strict" = v !! "strict").
  { induction queries as [|q queries IH]; intros v Hq; [done|].
    apply Forall_cons in Hq as [Hq Hqs]. simpl. by rewrite IH, Hq. }
  intros Hq. rewrite Hgen by done.
  unfold query.withStrict, query.Set_. apply lookup_insert_eq.
Qed.

(** When ListContacts is given options, and none of them touches the strict
    parameter (as none of the package's does), the query of its first URL is
    the encoding of parameters that hold strict=true, so the server rejects
    parameters it does not know. *)
Theorem strict_is_forced s projection q queries :
  Forall keepsStrict (q :: queries) ->
  exists params,
    listURL s projection (q :: queries)
    = endpoint s +:+ "/" +:+ getPojection s projection +:+ "?" +:+ Encode params
    /\ params !! "strict" = Some ["true"].
Proof.
  intros Hq. exists (listParams (q :: queries)).
  split; [reflexivity | by apply listParams_strict].
Qed.

(** *** The free-text query in closed form *)

Lemma joinWith_cons sep x l :
  joinWith sep (x :: l) = x +:+ appendAll (map (fun y => sep +:+ y) l).
Proof.
  revert x. induction l as [|y l IH]; intros x.
  - simpl. by rewrite append_empty_r.
  - change (joinWith sep (x :: y :: l)) with (x +:+ sep +:+ joinWith sep (y :: l)).
    rewrite IH. cbn [map appendAll fold_right]. by rewrite !append_assoc.
Qed.

Lemma writeTerms_later texts : forall b idx,
  query.writeTerms b (S idx) texts
  = b +:+ appendAll (map (fun t => " " +:+ rendered t) texts).
Proof.
  induction texts as [|t texts IH]; intros b idx.
  - simpl. by rewrite append_empty_r.
  - cbn [query.writeTerms map]. rewrite IH.
    assert (Hw : query.writeTerm b (S idx) t = b +:+ (" " +:+ rendered t)).
    { unfold query.writeTerm, rendered, negated. cbn [Nat.eqb negb].
      destruct (strings.HasPrefix t "-"); [|done].
      symmetry. apply append_assoc. }
    rewrite Hw. cbn [appendAll fold_right]. symmetry. apply append_assoc.
Qed.

(** What WithTextQuery puts in the q parameter, for every list of terms: one
    item per term, joined by single blanks, the item of a term that starts
    with "-" being its negated form in double quotes and the item of any
    other term being empty. *)
Theorem WithTextQuery_closed_form texts v :
  query.WithTextQuery texts v !! "q" = Some [joinWith " " (map rendered texts)].
Proof.
  unfold query.WithTextQuery, query.Set_. rewrite lookup_insert_eq.
  do 2 f_equal. destruct texts as [|t texts]; [done|].
  cbn [query.writeTerms map]. rewrite joinWith_cons, map_map.
  assert (Hw : query.writeTerm "" 0 t = rendered t).
  { unfold query.writeTerm, rendered, negated. cbn [Nat.eqb negb].
    by destruct (strings.HasPrefix t "-"). }
  rewrite Hw. apply writeTerms_later.
Qed.

End parameters.

(** ** The service: creating, updating and deleting *)

Section mutations.
Context {clk : Clock} {net : Net}.

Import service.

(** CreateContact by cases on the transport's next answer. *)
Lemma CreateContact_unfold s p w :
  validURL (createURL s) = true ->
  CreateContact s p w =
  let w' := mkWorld (tail (pending w))
              (sent w ++ [RoundTrip (http.mkRequest http.MethodPost (createURL s) ∅
                                       (option_map ContactKind.Marshal p))]) in
  match pending w with
  | [] => (Waiting, w')
  | Err e :: _ => (Failed (Wrapf "CreateContact error" e), w')
  | Ok res :: _ =>
      if Nat.eqb (http.StatusCode res) StatusCreated then
        match decodeContact (http.RBody res) with
        | Ok c => (Returned c, w')
        | Err e => (Failed e, w')
        end
      else if Nat.eqb (http.StatusCode res) StatusConflict then
        (Failed (Errorf "CreateContact error: version conflict"), w')
      else if existsb (Nat.eqb (http.StatusCode res)) [400; 401; 403; 404] then
        (Failed (Errorf ("CreateContact error: " +:+ http.Status res)), w')
      else
        (Failed (Errorf ("CreateContact error: unknown with " +:+ http.Status res)), w')
  end.
Proof.
  intros Hurl. unfold CreateContact, cbind, try, http.NewRequest.
  fold (createURL s). rewrite Hurl. cbn [ret]. unfold Do.
  destruct (pending w) as [|[res|e] rest]; cbn [tail]; try reflexivity.
  destruct (Nat.eqb (http.StatusCode res) StatusCreated).
  { by destruct (decodeContact (http.RBody res)). }
  destruct (Nat.eqb (http.StatusCode res) StatusConflict); [reflexivity|].
  by destruct (existsb _ _).
Qed.

(** When the service's URL is one a request can be made for, CreateContact
    sends exactly one request, whatever the transport answers: a POST of the
    encoded contact to the endpoint followed by the service's own projection,
    with the protocol version and the Atom content type as headers. *)
Theorem CreateContact_posts s p w :
  validURL (createURL s) = true ->
  exists req,
    sent (CreateContact s (Some p) w).2 = sent w ++ [req]
    /\ http.Method_ req = http.MethodPost
    /\ http.URL req = endpoint s +:+ "/" +:+ projection s
    /\ http.Body req = Some (ContactKind.Marshal p)
    /\ http.Header req !! "GData-Version" = Some "3.0"
    /\ http.Header req !! "Content-Type" = Some "application/atom+xml".
Proof.
  intros Hurl. rewrite (CreateContact_unfold _ _ _ Hurl).
  eexists. split.
  - destruct (pending w) as [|[res|e] rest]; cbn [snd sent]; try reflexivity.
    destruct (Nat.eqb (http.StatusCode res) StatusCreated).
    { by destruct (decodeContact (http.RBody res)). }
    destruct (Nat.eqb (http.StatusCode res) StatusConflict); [reflexivity|].
    by destruct (existsb _ _).
  - repeat split.
Qed.


(** The common start of UpdateContact and DeleteContact, when the re-fetch
    gives a contact whose tag passes. *)
Lemma tagPasses_check op etag :
  tagPasses op etag ->
  negb (String.eqb (ContactKind.etag op) etag) && negb (String.eqb etag "*") = false.
Proof.
  intros [<- | ->].
  - by rewrite String.eqb_refl.
  - by rewrite andb_false_r.
Qed.

(** DeleteContact never looks at the status of the answer to its DELETE:
    once the version check has passed and the DELETE has been answered at
    all, the call returns a nil error. *)
Theorem DeleteContact_ignores_status s id etag w op w' res rest :
  getContact s id "thin" "" "could not get a contact from DeleteContact" w
  = (Returned (Some op), w') ->
  tagPasses op etag ->
  validURL (ContactKind.editLink op) = true ->
  pending w' = Ok res :: rest ->
  DeleteContact s id etag w
  = (Returned tt,
     mkWorld rest (sent w' ++ [mutation http.MethodDelete op etag None])).
Proof.
  intros Hop Hc%tagPasses_check Hurl Hp.
  unfold DeleteContact, cbind at 1. rewrite Hop, Hc.
  unfold cbind, try, http.NewRequest. rewrite Hurl. cbn [ret].
  unfold Do. by rewrite Hp.
Qed.

(** UpdateContact takes nothing but status 200 for success: when the PUT is
    answered with any other status, the call fails with an error that quotes
    the status line, and the body is not decoded. *)
Theorem UpdateContact_needs_200 s id etag p w op w' res rest :
  getContact s id "full" "" "UpdateContact error: could not get a contact" w
  = (Returned (Some op), w') ->
  tagPasses op etag ->
  validURL (ContactKind.editLink op) = true ->
  pending w' = Ok res :: rest ->
  http.StatusCode res <> 200 ->
  UpdateContact s id etag p w
  = (Failed (Errorf ("expect get HTTP status OK, got: " +:+ http.Status res)),
     mkWorld rest (sent w' ++ [mutation http.MethodPut op etag
                                 (option_map ContactKind.Marshal p)])).
Proof.
  intros Hop Hc%tagPasses_check Hurl Hp Hne%Nat.eqb_neq.
  unfold UpdateContact, cbind at 1. rewrite Hop, Hc.
  unfold cbind, try, http.NewRequest. rewrite Hurl. cbn [ret].
  unfold Do. rewrite Hp. unfold http.StatusOK. by rewrite Hne.
Qed.

(** When the re-fetch of UpdateContact or DeleteContact is answered with
    status 304, getContact hands back a nil contact with a nil error, and the
    caller reads the version tag through the nil pointer: the call ends in a
    panic, with the GET as the only request sent. *)
Theorem mutation_panics_on_304 s id etag p w res rest :
  pending w = Ok res :: rest ->
  http.StatusCode res = 304 ->
  (validURL (contactURL s id "full") = true ->
   UpdateContact s id etag p w
   = (Panicked, mkWorld rest (sent w ++ [RoundTrip (getRequest s id "full" "")])))
  /\ (validURL (contactURL s id "thin") = true ->
      DeleteContact s id etag w
      = (Panicked, mkWorld rest (sent w ++ [RoundTrip (getRequest s id "thin" "")]))).
Proof.
  intros Hp Hc.
  split; intros Hurl.
  - unfold UpdateContact, cbind. rewrite getContact_unfold, Hurl, Hp.
    cbn zeta. unfold http.StatusNotModified. by rewrite Hc.
  - unfold DeleteContact, cbind. rewrite getContact_unfold, Hurl, Hp.
    cbn zeta. unfold http.StatusNotModified. by rewrite Hc.
Qed.

End mutations.

Section mutation_examples.

Import service.

Lemma refetch_then projection errPrefix res :
  getContact (clk := example.clock) (net := example.net)
             svc "42" projection "" errPrefix (thenAnswers res)
  = (Returned (Some (contactOf "v2" "ann@example.org")), refetched projection res).
Proof.
  rewrite getContact_unfold.
  destruct projection; vm_compute; reflexivity.
Qed.

Lemma CreateContact_posts_witness :
  exists req,
    sent (CreateContact (clk := example.clock) (net := example.net)
            svc (Some (contactOf "" "ann@example.org")) created).2 = [req]
    /\ http.Method_ req = http.MethodPost
    /\ http.URL req = "https://www.google.com/m8/feeds/contacts/example.com/full"
    /\ http.Header req !! "Content-Type" = Some "application/atom+xml".
Proof.
  destruct (CreateContact_posts (clk := example.clock) (net := example.net)
              svc (contactOf "" "ann@example.org") created eq_refl)
    as (req & Hs & Hm & Hu & _ & _ & Hc).
  exists req. repeat split; assumption.
Defined.



Lemma DeleteContact_ignores_status_witness :
  DeleteContact (clk := example.clock) (net := example.net)
    svc "42" "v2" (thenAnswers preconditionFailed)
  = (Returned tt,
     mkWorld []
       [RoundTrip (getRequest svc "42" "thin" "");
        mutation http.MethodDelete (contactOf "v2" "ann@example.org") "v2" None]).
Proof.
  apply (DeleteContact_ignores_status (clk := example.clock) (net := example.net)
           svc "42" "v2" (thenAnswers preconditionFailed)
           (contactOf "v2" "ann@example.org")
           (refetched "thin" preconditionFailed) preconditionFailed []).
  - apply refetch_then.
  - left. reflexivity.
  - reflexivity.
  - reflexivity.
Defined.

Lemma UpdateContact_needs_200_witness :
  UpdateContact (clk := example.clock) (net := example.net)
    svc "42" "*" (Some (contactOf "" "ann@example.com"))
    (thenAnswers preconditionFailed)
  = (Failed (Errorf "expect get HTTP status OK, got: 412 Precondition Failed"),
     mkWorld []
       [RoundTrip (getRequest svc "42" "full" "");
        mutation http.MethodPut (contactOf "v2" "ann@example.org") "*"
                 (Some (ContactKind.Marshal (contactOf "" "ann@example.com")))]).
Proof.
  apply (UpdateContact_needs_200 (clk := example.clock) (net := example.net)
           svc "42" "*" (Some (contactOf "" "ann@example.com"))
           (thenAnswers preconditionFailed)
           (contactOf "v2" "ann@example.org")
           (refetched "full" preconditionFailed) preconditionFailed []).
  - apply refetch_then.
  - right. reflexivity.
  - reflexivity.
  - reflexivity.
  - discriminate.
Defined.

Lemma mutation_panics_on_304_witness :
  (UpdateContact (clk := example.clock) (net := example.net)
     svc "42" "v2" (Some (contactOf "v2" "ann@example.com")) unchanged).1 = Panicked
  /\ (DeleteContact (clk := example.clock) (net := example.net)
        svc "42" "v2" unchanged).1 = Panicked.
Proof.
  destruct (mutation_panics_on_304 (clk := example.clock) (net := example.net)
              svc "42" "v2" (Some (contactOf "v2" "ann@example.com")) unchanged
              (http.mkResponse 304 "304 Not Modified" None) [] eq_refl eq_refl)
    as [Hu Hd].
  split.
  - by rewrite (Hu eq_refl).
  - by rewrite (Hd eq_refl).
Defined.

End mutation_examples.

(** ** The service: what the traversal sends and when it gives up *)

Section traversal_more.
Context {clk : Clock} {net : Net}.

Import service.

Lemma RoundTrip_plainGet req :
  plainGet req -> plainGet (RoundTrip req) /\ stamped (RoundTrip req).
Proof.
  intros [Hm Hb]. rewrite (RoundTrip_get _ Hm).
  repeat split; [done..|]. apply lookup_insert_eq.
Qed.

Lemma scanNext_plainGet links : forall r req',
  scanNext links r = Some req' ->
  (forall q, r = Some q -> plainGet q) ->
  plainGet req'.
Proof.
  induction links as [|l links IH]; intros r req'; cbn [scanNext].
  - intros -> Hr. by apply Hr.
  - destruct (String.eqb (Link.Related l) "next").
    + unfold http.NewRequest. destruct (validURL _); [|done].
      by intros [= <-] _.
    + intros Hs _. by apply (IH _ _ Hs).
Qed.

Lemma pages_sent answers : forall sent0 req ret0,
  plainGet req ->
  exists l, sent (pages answers sent0 req ret0).2 = sent0 ++ l
            /\ Forall (fun r => plainGet r /\ stamped r) l.
Proof.
  induction answers as [|[res|e] rest IH]; intros sent0 req ret0 Hreq;
    cbn [pages].
  - exists [RoundTrip req]. split; [done|].
    repeat constructor; by apply RoundTrip_plainGet.
  - destruct (decodeFeed (http.RBody res)) as [f|e].
    + destruct (scanNext (f_Links f) (Some req)) as [req'|] eqn:Hs.
      * destruct (IH (sent0 ++ [RoundTrip req]) req'
                     (appendClones ret0 (f_Contacts f))) as (l & Hl & HP).
        { apply (scanNext_plainGet _ _ _ Hs). by intros q [= <-]. }
        exists (RoundTrip req :: l). split.
        -- by rewrite Hl, <- app_assoc.
        -- constructor; [by apply RoundTrip_plainGet | exact HP].
      * exists [RoundTrip req]. split; [done|].
        repeat constructor; by apply RoundTrip_plainGet.
    + exists [RoundTrip req]. split; [done|].
      repeat constructor; by apply RoundTrip_plainGet.
  - exists [RoundTrip req]. split; [done|].
    repeat constructor; by apply RoundTrip_plainGet.
Qed.

(** Whatever the options, the version tag and the transport's answers,
    every request ListContacts sends is a GET without body that carries the
    protocol version header: listing never writes to the directory. *)
Theorem ListContacts_only_gets s projection etag queries w :
  Forall (fun r => plainGet r /\ stamped r)
         (issued w (ListContacts s projection etag queries w).2).
Proof.
  destruct (validURL (listURL s projection queries)) eqn:Hurl.
  - rewrite (ListContacts_unfold _ _ _ _ _ Hurl).
    destruct (pages_sent (pending w) (sent w)
                (listRequest s projection etag queries) [])
      as (l & Hl & HP).
    { unfold listRequest. by destruct (negb _). }
    by rewrite (issued_app _ _ _ Hl).
  - unfold ListContacts, cbind, try, http.NewRequest.
    fold (listURL s projection queries). rewrite Hurl.
    unfold fail, issued. cbn [snd]. rewrite drop_all. constructor.
Qed.

(** Pages with a usable "next" link, then an answer the loop stops at with
    an error. *)
Lemma pages_chain_fails chain a rest out : forall sent0 req ret0,
  Forall (fun rf => decodeFeed (http.RBody rf.1) = Ok rf.2
                    /\ is_Some (follows rf.2)) chain ->
  (forall sent1 req1 ret1,
      pages (a :: rest) sent1 req1 ret1
      = (Failed out, mkWorld rest (sent1 ++ [RoundTrip req1]))) ->
  pages (map Ok chain.*1 ++ a :: rest) sent0 req ret0
  = (Failed out,
     mkWorld rest (sent0 ++ RoundTrip req :: map RoundTrip (omap follows chain.*2))).
Proof.
  induction chain as [|[r1 f1] chain IH]; intros sent0 req ret0 Hc Ha.
  - apply Ha.
  - apply Forall_cons in Hc as [[Hf1 [rq Hrq]] Hc]. simpl in Hf1, Hrq.
    change (map Ok ((r1, f1) :: chain).*1 ++ a :: rest)
      with (Ok r1 :: (map Ok chain.*1 ++ a :: rest)).
    rewrite (pages_step _ _ _ _ _ _ Hf1).
    assert (Hl1 : f_Links f1 <> []).
    { intros Hnil. unfold follows in Hrq. by rewrite Hnil in Hrq. }
    rewrite scanNext_follows, Hrq by done.
    rewrite (IH _ _ _ Hc Ha).
    rewrite fmap_cons. cbn [snd omap list_omap]. rewrite Hrq.
    cbn [map]. by rewrite <- !app_assoc.
Qed.

(** ListContacts gives all or nothing.  After any number of good pages, a
    transport error ends the call with that error as it is, and an answer
    whose body is no feed ends it with the decoding error wrapped; the
    contacts of the pages read so far are not returned. *)
Theorem ListContacts_all_or_nothing s projection etag queries w chain rest :
  validURL (listURL s projection queries) = true ->
  Forall (fun rf => decodeFeed (http.RBody rf.1) = Ok rf.2
                    /\ is_Some (follows rf.2)) chain ->
  let w' := mkWorld rest
              (sent w ++ RoundTrip (listRequest s projection etag queries)
                 :: map RoundTrip (omap follows chain.*2)) in
  (forall e,
      pending w = map Ok chain.*1 ++ Err e :: rest ->
      ListContacts s projection etag queries w = (Failed e, w'))
  /\ (forall res e,
         pending w = map Ok chain.*1 ++ Ok res :: rest ->
         decodeFeed (http.RBody res) = Err e ->
         ListContacts s projection etag queries w
         = (Failed (Wrapf "ListContact error" e), w')).
Proof.
  intros Hurl Hc w'. split.
  - intros e Hp. rewrite ListContacts_unfold, Hp by done.
    by apply pages_chain_fails.
  - intros res e Hp Hd. rewrite ListContacts_unfold, Hp by done.
    apply pages_chain_fails; [done|].
    intros sent1 req1 ret1. cbn [pages]. by rewrite Hd.
Qed.

Lemma pages_sameBody answers answers' :
  Forall2 sameBody answers answers' ->
  forall sent0 req ret0,
    (pages answers sent0 req ret0).1 = (pages answers' sent0 req ret0).1
    /\ sent (pages answers sent0 req ret0).2
       = sent (pages answers' sent0 req ret0).2.
Proof.
  induction 1 as [|a a' answers answers' Ha _ IH]; intros sent0 req ret0; [done|].
  destruct a as [res|e], a' as [res'|e']; try done; cbn [sameBody] in Ha.
  - cbn [pages]. rewrite Ha.
    destruct (decodeFeed (http.RBody res')) as [f|e]; [|done].
    destruct (scanNext (f_Links f) (Some req)) as [req'|]; [|done].
    apply IH.
  - by subst e'.
Qed.

(** ListContacts never looks at a status code: when two transports give the
    same bodies and the same errors, whatever the status of each answer, the
    call ends alike and sends the same requests.  An error page served with a
    feed as its body counts as a page. *)
Theorem ListContacts_ignores_status s projection etag queries w w' :
  sent w = sent w' ->
  Forall2 sameBody (pending w) (pending w') ->
  (ListContacts s projection etag queries w).1
  = (ListContacts s projection etag queries w').1
  /\ sent (ListContacts s projection etag queries w).2
     = sent (ListContacts s projection etag queries w').2.
Proof.
  intros Hs Hp.
  destruct (validURL (listURL s projection queries)) eqn:Hurl.
  - rewrite !ListContacts_unfold, <- Hs by done. by apply pages_sameBody.
  - unfold ListContacts, cbind, try, http.NewRequest.
    fold (listURL s projection queries). by rewrite Hurl.
Qed.

End traversal_more.

Section traversal_more_examples.

Import service.

Lemma ListContacts_all_or_nothing_witness :
  ListContacts (clk := example.clock) (net := example.net) svc "" "" []
               brokenAfterFirst
  = (Failed (TransportError "connection reset"),
     mkWorld []
       (map RoundTrip
          [ http.mkRequest http.MethodGet
              "https://www.google.com/m8/feeds/contacts/example.com/full" ∅ None;
            http.mkRequest http.MethodGet "https://example.com/feed?start-index=2" ∅ None ]))
  /\ (ListContacts (clk := example.clock) (net := example.net) svc "" "" []
                   emptyAfterFirst).1
     = Failed (Wrapf "ListContact error" SyntaxError).
Proof.
  destruct pages_decode as (H1 & _ & _).
  assert (Hc : Forall (fun rf => decodeFeed (clk := example.clock) (http.RBody rf.1)
                                 = Ok rf.2
                                 /\ is_Some (follows (net := example.net) rf.2))
                      [(http.mkResponse 200 "200 OK" (Some page1), feed1)]).
  { constructor; [split; [exact H1 | by eexists] | constructor]. }
  split.
  - destruct (ListContacts_all_or_nothing (clk := example.clock) (net := example.net)
                svc "" "" [] brokenAfterFirst _ [] eq_refl Hc) as [He _].
    exact (He _ eq_refl).
  - destruct (ListContacts_all_or_nothing (clk := example.clock) (net := example.net)
                svc "" "" [] emptyAfterFirst _ [] eq_refl Hc) as [_ Hd].
    by rewrite (Hd _ _ eq_refl eq_refl).
Defined.

Lemma ListContacts_ignores_status_witness :
  (ListContacts (clk := example.clock) (net := example.net) svc "" "" []
                threePages500).1
  = (ListContacts (clk := example.clock) (net := example.net) svc "" "" []
                  threePages).1.
Proof.
  apply (ListContacts_ignores_status (clk := example.clock) (net := example.net)
           svc "" "" [] threePages500 threePages).
  - reflexivity.
  - repeat constructor.
Defined.

End traversal_more_examples.

(** ** Decoding an entry: sequences, links and trimmed text *)

Section entry_more.
Context {clk : Clock}.

Import ContactKind.

Ltac other_child :=
  repeat (case_match; simplify_eq/=; try done);
  match goal with
  | Hb : bind ?r _ = Ok _ |- _ => destruct r; simplify_eq/=; done
  end.

Lemma decodedChildren_cons {T} xmlns local
    (u : list xml.Node -> xml.StartElement -> result T) n d :
  decodedChildren xmlns local u (n :: d)
  = decodedChildren xmlns local u [n] ++ decodedChildren xmlns local u d.
Proof.
  unfold decodedChildren. simpl. destruct n; [case_match|]; done.
Qed.

Lemma elem_of_decodedChildren {T} xmlns local
    (u : list xml.Node -> xml.StartElement -> result T) d r :
  r ∈ decodedChildren xmlns local u d ->
  exists body start, r = u body start.
Proof.
  induction d as [|n d IH]; [by intros ?%elem_of_nil|].
  rewrite decodedChildren_cons, elem_of_app. intros [Hn|Hd]; [|by apply IH].
  unfold decodedChildren in Hn. destruct n as [nm attrs body|s]; simpl in Hn.
  - destruct (xml.matches xmlns local nm); [|by apply elem_of_nil in Hn].
    apply list_elem_of_singleton in Hn. by eexists _, _.
  - by apply elem_of_nil in Hn.
Qed.

(** A slice field of the decoded entry grows by what the children of its
    name decode to. *)
Lemma decodeChildren_seq {T} (F : decodeContactKind -> list T) xmlns local
    (u : list xml.Node -> xml.StartElement -> result T) :
  (forall o n o',
      decodeChild o n = Ok o' ->
      Ok <$> F o' = (Ok <$> F o) ++ decodedChildren xmlns local u [n]) ->
  forall d o o',
    decodeChildren o d = Ok o' ->
    Ok <$> F o' = (Ok <$> F o) ++ decodedChildren xmlns local u d.
Proof.
  intros Hstep. induction d as [|n d IH]; intros o o'; cbn [decodeChildren].
  - intros [= <-]. by rewrite app_nil_r.
  - destruct (decodeChild o n) as [o1|e] eqn:H1; [|done]. cbn [bind].
    intros H2. rewrite (IH _ _ H2), (Hstep _ _ _ H1).
    by rewrite <- app_assoc, <- decodedChildren_cons.
Qed.

Lemma DecodeElement_seq {T} (F : decodeContactKind -> list T) xmlns local
    (u : list xml.Node -> xml.StartElement -> result T) :
  (forall nm e, F (set_Etag e (set_XMLName nm decodeZero)) = []) ->
  (forall o n o',
      decodeChild o n = Ok o' ->
      Ok <$> F o' = (Ok <$> F o) ++ decodedChildren xmlns local u [n]) ->
  forall d start o,
    DecodeElement d start = Ok o ->
    Ok <$> F o = decodedChildren xmlns local u d.
Proof.
  intros Hzero Hstep d start o. unfold DecodeElement.
  repeat case_match; try done.
  intros Hd. by rewrite (decodeChildren_seq F _ _ _ Hstep _ _ _ Hd), Hzero.
Qed.

Lemma decodeChild_Email o n o' :
  decodeChild o n = Ok o' ->
  Ok <$> o_Email o'
  = (Ok <$> o_Email o)
    ++ decodedChildren gdNS "email" (GDEmail.unmarshal GDEmail.zero) [n].
Proof.
  unfold decodedChildren, decodeChild.
  destruct n as [nm attrs body|s]; cbn [omap list_omap];
    [|intros [= <-]; by rewrite app_nil_r].
  destruct (xml.matches gdNS "email" nm) eqn:Hm.
  - rewrite !(matches_other _ _ _ _ _ Hm) by discriminate.
    destruct (GDEmail.unmarshal _ _ _) as [v|e]; [|done].
    cbn [bind]. intros [= <-]. cbn [o_Email set_Email]. by rewrite fmap_app.
  - intros Hd. rewrite app_nil_r. other_child.
Qed.

Lemma decodeChild_PhoneNumber o n o' :
  decodeChild o n = Ok o' ->
  Ok <$> o_PhoneNumber o'
  = (Ok <$> o_PhoneNumber o)
    ++ decodedChildren gdNS "phoneNumber"
         (GDPhoneNumber.UnmarshalXML GDPhoneNumber.zero) [n].
Proof.
  unfold decodedChildren, decodeChild.
  destruct n as [nm attrs body|s]; cbn [omap list_omap];
    [|intros [= <-]; by rewrite app_nil_r].
  destruct (xml.matches gdNS "phoneNumber" nm) eqn:Hm.
  - rewrite !(matches_other _ _ _ _ _ Hm) by discriminate.
    destruct (GDPhoneNumber.UnmarshalXML _ _ _) as [v|e]; [|done].
    cbn [bind]. intros [= <-]. cbn [o_PhoneNumber set_PhoneNumber].
    by rewrite fmap_app.
  - intros Hd. rewrite app_nil_r. other_child.
Qed.

Lemma decodeChild_StructuredPostalAddress o n o' :
  decodeChild o n = Ok o' ->
  Ok <$> o_StructuredPostalAddress o'
  = (Ok <$> o_StructuredPostalAddress o)
    ++ decodedChildren gdNS "structuredPostalAddress"
         (GDStructuredPostalAddress.UnmarshalXML GDStructuredPostalAddress.zero) [n].
Proof.
  unfold decodedChildren, decodeChild.
  destruct n as [nm attrs body|s]; cbn [omap list_omap];
    [|intros [= <-]; by rewrite app_nil_r].
  destruct (xml.matches gdNS "structuredPostalAddress" nm) eqn:Hm.
  - rewrite !(matches_other _ _ _ _ _ Hm) by discriminate.
    destruct (GDStructuredPostalAddress.UnmarshalXML _ _ _) as [v|e]; [|done].
    cbn [bind]. intros [= <-].
    cbn [o_StructuredPostalAddress set_StructuredPostalAddress].
    by rewrite fmap_app.
  - intros Hd. rewrite app_nil_r. other_child.
Qed.

Lemma decodeChild_IM o n o' :
  decodeChild o n = Ok o' ->
  Ok <$> o_IM o'
  = (Ok <$> o_IM o) ++ decodedChildren gdNS "im" (GDIM.unmarshal GDIM.zero) [n].
Proof.
  unfold decodedChildren, decodeChild.
  destruct n as [nm attrs body|s]; cbn [omap list_omap];
    [|intros [= <-]; by rewrite app_nil_r].
  destruct (xml.matches gdNS "im" nm) eqn:Hm.
  - rewrite !(matches_other _ _ _ _ _ Hm) by discriminate.
    destruct (GDIM.unmarshal _ _ _) as [v|e]; [|done].
    cbn [bind]. intros [= <-]. cbn [o_IM set_IM]. by rewrite fmap_app.
  - intros Hd. rewrite app_nil_r. other_child.
Qed.

Lemma decodeChild_Link o n o' :
  decodeChild o n = Ok o' ->
  Ok <$> o_Link o'
  = (Ok <$> o_Link o)
    ++ decodedChildren atomNS "link" (Link.unmarshal Link.zero) [n].
Proof.
  unfold decodedChildren, decodeChild.
  destruct n as [nm attrs body|s]; cbn [omap list_omap];
    [|intros [= <-]; by rewrite app_nil_r].
  destruct (xml.matches atomNS "link" nm) eqn:Hm.
  - rewrite !(matches_other _ _ _ _ _ Hm) by discriminate.
    destruct (Link.unmarshal _ _ _) as [v|e]; [|done].
    cbn [bind]. intros [= <-]. cbn [o_Link set_Link]. by rewrite fmap_app.
  - intros Hd. rewrite app_nil_r. other_child.
Qed.

(** What UnmarshalXML copies from the decoded [o] into the contact. *)
Lemma UnmarshalXML_fields c d start c' :
  UnmarshalXML c d start = Ok c' ->
  exists o, DecodeElement d start = Ok o
            /\ Name c' = o_Name o
            /\ Email c' = o_Email o
            /\ PhoneNumber c' = o_PhoneNumber o
            /\ StructuredPostalAddress c' = o_StructuredPostalAddress o
            /\ IM c' = o_IM o
            /\ (photoLink c', selfLink c', editLink c')
               = scanLinks (o_Link o) (photoLink c, selfLink c, editLink c).
Proof.
  unfold UnmarshalXML.
  destruct (DecodeElement d start) as [o|e]; [cbn [bind]|done].
  destruct (String.eqb (o_Term o) contactTerm); [cbn [negb]|done].
  destruct (scanLinks _ _) as [[photo self] edit] eqn:Hl.
  intros [= <-]. exists o. cbn [Name Email PhoneNumber StructuredPostalAddress IM
                                 photoLink selfLink editLink].
  rewrite !appendEach_app. by destruct (o_Name o).
Qed.

Lemma UnmarshalXML_PhoneNumber c d start c' :
  UnmarshalXML c d start = Ok c' ->
  Ok <$> PhoneNumber c'
  = decodedChildren gdNS "phoneNumber"
      (GDPhoneNumber.UnmarshalXML GDPhoneNumber.zero) d.
Proof.
  intros (o & Hd & _ & _ & -> & _)%UnmarshalXML_fields.
  by apply (DecodeElement_seq o_PhoneNumber _ _ _ (fun _ _ => eq_refl)
              decodeChild_PhoneNumber d start).
Qed.

(** The e-mail addresses, phone numbers, postal addresses and
    instant-message handles of a decoded contact are what the entry's
    elements of that kind decode to, one per element and in document order,
    whatever the receiver held before. *)
Theorem decoded_in_document_order c d start c' :
  UnmarshalXML c d start = Ok c' ->
  Ok <$> Email c' = decodedChildren gdNS "email" (GDEmail.unmarshal GDEmail.zero) d
  /\ Ok <$> PhoneNumber c'
     = decodedChildren gdNS "phoneNumber"
         (GDPhoneNumber.UnmarshalXML GDPhoneNumber.zero) d
  /\ Ok <$> StructuredPostalAddress c'
     = decodedChildren gdNS "structuredPostalAddress"
         (GDStructuredPostalAddress.UnmarshalXML GDStructuredPostalAddress.zero) d
  /\ Ok <$> IM c' = decodedChildren gdNS "im" (GDIM.unmarshal GDIM.zero) d.
Proof.
  intros Hc. split; [|split; [by apply (UnmarshalXML_PhoneNumber c d start)|]].
  all: apply UnmarshalXML_fields in Hc as (o & Hd & _ & He & _ & Ha & Hi & _).
  - rewrite He.
    by apply (DecodeElement_seq o_Email _ _ _ (fun _ _ => eq_refl)
                decodeChild_Email d start).
  - rewrite Ha, Hi. split.
    + by apply (DecodeElement_seq o_StructuredPostalAddress _ _ _
                  (fun _ _ => eq_refl) decodeChild_StructuredPostalAddress d start).
    + by apply (DecodeElement_seq o_IM _ _ _ (fun _ _ => eq_refl)
                  decodeChild_IM d start).
Qed.

(** *** The three links *)

Lemma lastHref_cons rel l links init :
  lastHref rel (l :: links) init
  = lastHref rel links (if decide (Link.Related l = rel) then Link.Href l else init).
Proof.
  unfold lastHref. rewrite filter_cons.
  destruct (decide (Link.Related l = rel)); [|done].
  rewrite fmap_cons, last_cons. by destruct (last _).
Qed.

Lemma scanLinks_spec links : forall photo self edit,
  scanLinks links (photo, self, edit)
  = (lastHref photoRel links photo, lastHref "self" links self,
     lastHref "edit" links edit).
Proof.
  unfold scanLinks.
  induction links as [|l links IH]; intros photo self edit; [done|].
  cbn [fold_left]. rewrite !lastHref_cons.
  destruct (String.eqb_spec (Link.Related l) photoRel) as [H1|H1];
    [|destruct (String.eqb_spec (Link.Related l) "self") as [H2|H2];
      [|destruct (String.eqb_spec (Link.Related l) "edit") as [H3|H3]]];
    rewrite IH; unfold photoRel in *;
    repeat case_decide; congruence.
Qed.

Lemma fmap_Ok_inj {T} (l1 l2 : list T) :
  Ok <$> l1 = Ok <$> l2 -> l1 = l2.
Proof.
  revert l2. induction l1 as [|x l1 IH]; intros [|y l2]; try done.
  intros [= -> H]. by rewrite (IH _ H).
Qed.

Lemma decodedChildren_links d :
  decodedChildren atomNS "link" (Link.unmarshal Link.zero) d = Ok <$> entryLinks d.
Proof.
  unfold decodedChildren, entryLinks.
  induction d as [|n d IH]; [done|].
  cbn [omap list_omap]. rewrite IH.
  destruct n as [nm attrs body|s]; [|done].
  by destruct (xml.matches atomNS "link" nm).
Qed.

(** The edit, self and photo links of a decoded contact are the href of the
    last link element of that relation in the entry; a relation no link
    element carries leaves the receiver's link as it was. *)
Theorem decoded_links_last_wins c d start c' :
  UnmarshalXML c d start = Ok c' ->
  editLink c' = lastHref "edit" (entryLinks d) (editLink c)
  /\ selfLink c' = lastHref "self" (entryLinks d) (selfLink c)
  /\ photoLink c' = lastHref photoRel (entryLinks d) (photoLink c).
Proof.
  intros (o & Hd & _ & _ & _ & _ & _ & Hl)%UnmarshalXML_fields.
  assert (Ho : o_Link o = entryLinks d).
  { apply fmap_Ok_inj. rewrite <- decodedChildren_links.
    by apply (DecodeElement_seq o_Link _ _ _ (fun _ _ => eq_refl)
                decodeChild_Link d start). }
  rewrite Ho, scanLinks_spec in Hl. by injection Hl as -> -> ->.
Qed.

(** *** Trimmed text *)

Lemma decodeChild_FullName o n o' :
  decodeChild o n = Ok o' ->
  strings.TrimSpace (GDName.FullName (o_Name o)) = GDName.FullName (o_Name o) ->
  strings.TrimSpace (GDName.FullName (o_Name o')) = GDName.FullName (o_Name o').
Proof.
  unfold decodeChild.
  destruct n as [nm attrs body|s]; [|by intros [= <-]].
  destruct (xml.matches gdNS "name" nm) eqn:Hm.
  - rewrite !(matches_other _ _ _ _ _ Hm) by discriminate.
    unfold GDName.UnmarshalXML. cbn [bind]. intros [= <-] _.
    cbn [o_Name set_Name GDName.FullName]. apply TrimSpace_idemp.
  - intros Hd HP. other_child.
Qed.

Lemma decodeChildren_FullName d : forall o o',
  decodeChildren o d = Ok o' ->
  strings.TrimSpace (GDName.FullName (o_Name o)) = GDName.FullName (o_Name o) ->
  strings.TrimSpace (GDName.FullName (o_Name o')) = GDName.FullName (o_Name o').
Proof.
  induction d as [|n d IH]; intros o o'; cbn [decodeChildren].
  - by intros [= <-].
  - destruct (decodeChild o n) as [o1|e] eqn:H1; [|done]. cbn [bind].
    intros H2 HP. apply (IH _ _ H2). by apply (decodeChild_FullName _ _ _ H1).
Qed.

(** A decoded contact holds trimmed text: its full name and the dial string
    of each of its phone numbers have no white space at either end. *)
Theorem decoded_text_is_trimmed c d start c' :
  UnmarshalXML c d start = Ok c' ->
  strings.TrimSpace (GDName.FullName (Name c')) = GDName.FullName (Name c')
  /\ Forall (fun p => strings.TrimSpace (GDPhoneNumber.DialNumber p)
                      = GDPhoneNumber.DialNumber p)
            (PhoneNumber c').
Proof.
  intros Hc. split.
  - apply UnmarshalXML_fields in Hc as (o & Hd & -> & _).
    unfold DecodeElement in Hd. repeat case_match; try done.
    by apply (decodeChildren_FullName _ _ _ Hd).
  - apply Forall_forall. intros p Hp.
    apply (list_elem_of_fmap_2 Ok) in Hp.
    rewrite (UnmarshalXML_PhoneNumber _ _ _ _ Hc) in Hp.
    apply elem_of_decodedChildren in Hp as (body & st & Hu).
    unfold GDPhoneNumber.UnmarshalXML in Hu.
    destruct (xml.attrBool _ _ _); simplify_eq/=.
    apply TrimSpace_idemp.
Qed.

(** *** The relation of a postal address *)

Lemma UnmarshalXML_StructuredPostalAddress c d start c' :
  UnmarshalXML c d start = Ok c' ->
  Ok <$> StructuredPostalAddress c'
  = decodedChildren gdNS "structuredPostalAddress"
      (GDStructuredPostalAddress.UnmarshalXML GDStructuredPostalAddress.zero) d.
Proof.
  intros (o & Hd & _ & _ & _ & -> & _)%UnmarshalXML_fields.
  by apply (DecodeElement_seq o_StructuredPostalAddress _ _ _ (fun _ _ => eq_refl)
              decodeChild_StructuredPostalAddress d start).
Qed.

(** The rel attribute of a postal address is read and stored nowhere
    ([a.Region = o.Related] is overwritten by [a.Region = o.Region]): every
    postal address of a decoded contact has the empty relation, whatever the
    entry says. *)
Theorem decoded_address_has_no_relation c d start c' :
  UnmarshalXML c d start = Ok c' ->
  Forall (fun a => GDStructuredPostalAddress.Related a = "")
         (StructuredPostalAddress c').
Proof.
  intros Hc. apply Forall_forall. intros a Ha.
  apply (list_elem_of_fmap_2 Ok) in Ha.
  rewrite (UnmarshalXML_StructuredPostalAddress _ _ _ _ Hc) in Ha.
  apply elem_of_decodedChildren in Ha as (body & st & Hu).
  unfold GDStructuredPostalAddress.UnmarshalXML in Hu.
  destruct (xml.attrBool _ _ _); by simplify_eq/=.
Qed.

End entry_more.

Section entry_more_examples.

Import ContactKind.

Lemma fullEntry_decodes :
  UnmarshalXML (clk := example.clock) zero fullEntry entryStart = Ok fullContact.
Proof. vm_compute. reflexivity. Qed.

Lemma decoded_in_document_order_witness :
  Ok <$> Email fullContact
  = decodedChildren gdNS "email" (GDEmail.unmarshal GDEmail.zero) fullEntry
  /\ GDEmail.Address <$> Email fullContact = ["ann@example.org"; "lee@example.org"].
Proof.
  split; [|reflexivity].
  exact (proj1 (decoded_in_document_order (clk := example.clock)
                  zero fullEntry entryStart fullContact fullEntry_decodes)).
Defined.

Lemma decoded_links_last_wins_witness :
  editLink fullContact = lastHref "edit" (entryLinks fullEntry) ""
  /\ lastHref "edit" (entryLinks fullEntry) "" = "https://example.com/edit/2"
  /\ photoLink fullContact = "".
Proof.
  destruct (decoded_links_last_wins (clk := example.clock)
              zero fullEntry entryStart fullContact fullEntry_decodes)
    as (He & _ & Hp).
  split; [exact He|]. split; [reflexivity|]. rewrite Hp. reflexivity.
Defined.

Lemma decoded_text_is_trimmed_witness :
  xml.childString "fullName"
    [xml.Element (xml.mkName gdNS "fullName") [] [xml.CharData " Ann Lee "]] ""
  = " Ann Lee "
  /\ strings.TrimSpace (GDName.FullName (Name fullContact))
     = GDName.FullName (Name fullContact)
  /\ GDName.FullName (Name fullContact) = "Ann Lee".
Proof.
  destruct (decoded_text_is_trimmed (clk := example.clock)
              zero fullEntry entryStart fullContact fullEntry_decodes)
    as [Hn _].
  split; [reflexivity|]. split; [exact Hn | reflexivity].
Defined.

Lemma decoded_address_has_no_relation_witness :
  xml.attrString "rel"
    [xml.mkAttr (xml.mkName "" "rel") "http://schemas.google.com/g/2005#home"] ""
  = "http://schemas.google.com/g/2005#home"
  /\ GDStructuredPostalAddress.City <$> StructuredPostalAddress fullContact = ["Bath"]
  /\ Forall (fun a => GDStructuredPostalAddress.Related a = "")
            (StructuredPostalAddress fullContact).
Proof.
  split; [reflexivity|]. split; [reflexivity|].
  exact (decoded_address_has_no_relation (clk := example.clock)
           zero fullEntry entryStart fullContact fullEntry_decodes).
Defined.

End entry_more_examples.

(** ** The primary attribute *)

Section primary.

Lemma attrBool_primaryOk attrs : forall acc,
  is_ok (xml.attrBool "primary" attrs acc) = primaryOk attrs.
Proof.
  unfold primaryOk.
  induction attrs as [|a attrs IH]; intros acc; cbn [xml.attrBool forallb]; [done|].
  destruct (xml.matches "" "primary" (xml.AName a)); [|apply IH].
  destruct (xml.copyBool (xml.Value a)); cbn [bind is_ok andb]; [apply IH | done].
Qed.

(** Decoding an e-mail address, a phone number, a postal address or an
    instant-message handle fails exactly when one of the element's primary
    attributes holds text that is no boolean; a name, an extended property
    and a link always decode. *)
Theorem primary_must_be_boolean d start :
  (forall m, is_ok (GDEmail.unmarshal m d start) = primaryOk (xml.SAttr start))
  /\ (forall n, is_ok (GDPhoneNumber.UnmarshalXML n d start)
                = primaryOk (xml.SAttr start))
  /\ (forall a, is_ok (GDStructuredPostalAddress.UnmarshalXML a d start)
                = primaryOk (xml.SAttr start))
  /\ (forall im, is_ok (GDIM.unmarshal im d start) = primaryOk (xml.SAttr start))
  /\ (forall n, is_ok (GDName.UnmarshalXML n d start) = true)
  /\ (forall p, is_ok (GDExtendedProperty.unmarshal p d start) = true)
  /\ (forall l, is_ok (Link.unmarshal l d start) = true).
Proof.
  repeat split; try done; intros x.
  - unfold GDEmail.unmarshal.
    rewrite <- (attrBool_primaryOk _ (GDEmail.Primary x)).
    by destruct (xml.attrBool _ _ _).
  - unfold GDPhoneNumber.UnmarshalXML.
    rewrite <- (attrBool_primaryOk _ false).
    by destruct (xml.attrBool _ _ _).
  - unfold GDStructuredPostalAddress.UnmarshalXML.
    rewrite <- (attrBool_primaryOk _ false).
    by destruct (xml.attrBool _ _ _).
  - unfold GDIM.unmarshal.
    rewrite <- (attrBool_primaryOk _ (GDIM.Primary x)).
    by destruct (xml.attrBool _ _ _).
Qed.

End primary.

(** ** What the encoder writes for the sequences of a contact *)

Section marshal_sequences.
Context {clk : Clock}.

Import ContactKind.

Lemma filter_named_map {T} name tag (f : T -> xml.Node) (l : list T) :
  (forall v, named name (f v) = String.eqb name tag) ->
  List.filter (named name) (map f l) = if String.eqb name tag then map f l else [].
Proof.
  intros Hf. induction l as [|v l IH]; cbn [map List.filter].
  - by destruct (String.eqb name tag).
  - rewrite Hf, IH. by destruct (String.eqb name tag).
Qed.

Lemma named_GDName name n st :
  named name (GDName.MarshalXML n st) = String.eqb name "gd:name".
Proof. reflexivity. Qed.

Lemma map_replicate_const {A B} (f : A -> B) n x :
  map f (replicate n x) = replicate n (f x).
Proof. induction n as [|n IH]; [done|]. simpl. by rewrite IH. Qed.

Lemma padded_app {T} (z : T) n (l : list T) :
  appendEach (make z n) l = replicate n z ++ l.
Proof. by rewrite appendEach_app. Qed.

(** The encoding of a contact holds its e-mail addresses as they are, in
    order.  Its phone numbers, postal addresses and instant-message handles
    come each after as many empty elements of their kind as the contact has
    of them: the slices they are copied into are made with that length and
    then appended to. *)
Theorem Marshal_sequences (c : ContactKind.t) :
  let x := Marshal c in
  childrenNamed "gd:email" x = map GDEmail.Marshal (Email c)
  /\ childrenNamed "gd:phoneNumber" x
     = replicate (length (PhoneNumber c)) (GDPhoneNumber.Marshal GDPhoneNumber.zero)
       ++ map GDPhoneNumber.Marshal (PhoneNumber c)
  /\ childrenNamed "gd:structuredPostalAddress" x
     = replicate (length (StructuredPostalAddress c))
                 (GDStructuredPostalAddress.Marshal GDStructuredPostalAddress.zero)
       ++ map GDStructuredPostalAddress.Marshal (StructuredPostalAddress c)
  /\ childrenNamed "gd:im" x
     = replicate (length (IM c)) (GDIM.Marshal GDIM.zero) ++ map GDIM.Marshal (IM c).
Proof.
  unfold Marshal, MarshalXML. cbn zeta. cbn [childrenNamed].
  rewrite !padded_app.
  repeat split;
    rewrite !List.filter_app;
    rewrite (filter_named_map _ "gd:email") by (intros v; reflexivity);
    rewrite (filter_named_map _ "gd:phoneNumber") by (intros v; reflexivity);
    rewrite (filter_named_map _ "gd:structuredPostalAddress")
      by (intros v; reflexivity);
    rewrite (filter_named_map _ "gd:extendedProperty") by (intros v; reflexivity);
    rewrite (filter_named_map _ "gd:im") by (intros v; reflexivity);
    cbn [List.filter]; rewrite named_GDName;
    cbn [List.filter named xml.elem xml.Local String.eqb Ascii.eqb Bool.eqb app];
    rewrite ?app_nil_r; rewrite ?map_app, ?map_replicate_const; reflexivity.
Qed.

End marshal_sequences.

Section parameter_examples.

Import service.

Lemma strict_is_forced_witness :
  exists params,
    listURL (net := example.net) svc "thin"
      [query.WithMaxResults 10; query.WithSort "ascending";
       query.WithTextQuery ["-Austen"]]
    = "https://www.google.com/m8/feeds/contacts/example.com/thin?"
      +:+ Encode (Net := example.net) params
    /\ params !! "strict" = Some ["true"].
Proof.
  assert (Hq : Forall keepsStrict
                 [query.WithMaxResults 10; query.WithSort "ascending";
                  query.WithTextQuery ["-Austen"]]).
  { destruct (options_keepStrict (clk := example.clock) (fun t => t))
      as (Hm & _ & _ & _ & _ & Hs & _ & _ & Ht & _).
    repeat constructor; [apply Hm | apply Hs | apply Ht]. }
  destruct (strict_is_forced (net := example.net) svc "thin" _ _ Hq)
    as (params & Hu & Hs).
  exists params. split; [exact Hu | exact Hs].
Defined.

End parameter_examples.

(** ** Clone, and a contact through its own encoding *)

Section clone_more.
Context {clk : Clock}.

Import ContactKind.


(** No contact comes back from its own encoding: MarshalXML writes the
    entry element without a name space (it declares the prefixes atom and gd
    and uses neither on the element), and UnmarshalXML takes an entry of the
    Atom name space only.  This holds for every contact and every receiver. *)
Theorem contact_roundtrip_fails (c0 c : ContactKind.t) :
  xml.Decode (UnmarshalXML c0) (xml.wire (Marshal c))
  = Err (UnmarshalError
           ("expected element <entry> in name space " +:+ atomNS
            +:+ " but have no name space")).
Proof.
  unfold Marshal, MarshalXML, xml.wire.
  cbn zeta. cbn [xml.reparse].
  match goal with
  | |- context [map (xml.reparse ?ns) ?body] => generalize (map (xml.reparse ns) body)
  end.
  intros d. cbn [xml.Decode]. unfold UnmarshalXML, DecodeElement.
  reflexivity.
Qed.

End clone_more.

